(** * CardDefs: the card/hand domain model of the double-dummy solver

    A shallow embedding of [src/CardDefs.h].  Every class of the header is
    a record around its one data member; member functions become functions
    on the record (mutating members return the modified object).  The
    header is compiled with [DDS_CHECKING_CARDDEFS] set to 1, so every
    [DDS_CARDDEFS_CHECKVALID()] is a live [assert]: a computation that may
    hit an assertion lives in [Checked], where [None] is the abort. *)

From Stdlib Require Import ZArith List Bool Lia Sorted.
From Stdlib Require Ascii String.
Import ListNotations Ascii.AsciiSyntax String.StringSyntax.
Delimit Scope char_scope with char.
Delimit Scope string_scope with string.
Local Open Scope Z_scope.

(** ** Machine integers

    [unsigned char] and [unsigned short] values are integers in [Z]; the
    conversion back to the narrow type after integer promotion is written
    out as a reduction modulo the width. *)

Definition u8 (z : Z) : Z := z mod 256.
Definition u16 (z : Z) : Z := z mod 65536.

(** ** Assertions *)

Definition Checked (A : Type) : Type := option A.

Definition ret {A : Type} (a : A) : Checked A := Some a.

Definition bind {A B : Type} (m : Checked A) (k : A -> Checked B) : Checked B :=
  match m with
  | Some a => k a
  | None => None
  end.

Definition check (b : bool) : Checked unit := if b then Some tt else None.

Notation "x <- m ;; k" := (bind m (fun x => k))
  (at level 61, m at next level, right associativity).
Notation "m ;;; k" := (bind m (fun _ => k))
  (at level 61, right associativity).

(** [mapM] runs a checked computation over a list, left to right: static
    initialiser lists and the table-filling loops are instances. *)
Fixpoint mapM {A B : Type} (f : A -> Checked B) (l : list A) : Checked (list B) :=
  match l with
  | [] => ret []
  | a :: l' => b <- f a ;; bs <- mapM f l' ;; ret (b :: bs)
  end.

(** The bit pattern every one-byte class reserves for "absent"
    ([optionalValue = 0xBD]). *)
Definition optionalValue : Z := 0xBD.

(** ** [StrainT<noTrumpOk>], [Strain] and [Suit]

    Spades=0, Hearts=1, Diamonds=2, Clubs=3, NoTrump=4. *)

Record StrainT (noTrumpOk : bool) : Type := mkStrainT { StrainT_value : Z }.
Arguments mkStrainT {noTrumpOk} _.
Arguments StrainT_value {noTrumpOk} _.

Definition Strain : Type := StrainT true.
Definition Suit : Type := StrainT false.

Definition StrainT_max (noTrumpOk : bool) : Z := if noTrumpOk then 4 else 3.

Definition StrainT_checkValid {nt : bool} (optionalOk : bool) (s : StrainT nt) : bool :=
  let value := StrainT_value s in
  (if negb (value =? optionalValue) then true else optionalOk)
  || ((value <=? StrainT_max nt) && (if negb (value =? 4) then true else nt)).

(** [explicit StrainT (unsigned char value)] *)
Definition StrainT_ctor {nt : bool} (value : Z) : Checked (StrainT nt) :=
  let s := mkStrainT value in
  check (StrainT_checkValid false s) ;;; ret s.

Definition StrainT_gt {nt : bool} (lhs rhs : StrainT nt) : bool :=
  if StrainT_value rhs =? 4 then false
  else StrainT_value lhs <? StrainT_value rhs.

Definition StrainT_ge {nt : bool} (lhs rhs : StrainT nt) : bool :=
  if StrainT_value rhs =? 4 then StrainT_value lhs =? 4
  else StrainT_value lhs <=? StrainT_value rhs.

Definition StrainT_lt {nt : bool} (lhs rhs : StrainT nt) : bool :=
  if StrainT_value lhs =? 4 then false
  else StrainT_value lhs >? StrainT_value rhs.

Definition StrainT_le {nt : bool} (lhs rhs : StrainT nt) : bool :=
  if StrainT_value lhs =? 4 then StrainT_value rhs =? 4
  else StrainT_value lhs >=? StrainT_value rhs.

Definition StrainT_eq {nt : bool} (lhs rhs : StrainT nt) : bool :=
  StrainT_value lhs =? StrainT_value rhs.

Definition StrainT_ne {nt : bool} (lhs rhs : StrainT nt) : bool :=
  StrainT_value lhs =? StrainT_value rhs.

(** The domain the header documents: a Suit is one of 0..3, a Strain one
    of 0..4. *)
Definition StrainT_inDomain {nt : bool} (s : StrainT nt) : Prop :=
  0 <= StrainT_value s <= StrainT_max nt.

Definition Spades {nt : bool} : StrainT nt := mkStrainT 0.
Definition Hearts {nt : bool} : StrainT nt := mkStrainT 1.
Definition Diamonds {nt : bool} : StrainT nt := mkStrainT 2.
Definition Clubs {nt : bool} : StrainT nt := mkStrainT 3.
Definition NoTrump : Strain := mkStrainT 4.

Definition Strain_highToLow : Checked (list Strain) :=
  mapM StrainT_ctor [4; 0; 1; 2; 3].

Definition Strain_lowToHigh : Checked (list Strain) :=
  mapM StrainT_ctor [0; 3; 2; 1; 0].

Definition Suit_numCards : Z := 13.

Definition Suit_highToLow : Checked (list Suit) :=
  mapM StrainT_ctor [0; 1; 2; 3].

Definition Suit_lowToHigh : Checked (list Suit) :=
  mapM StrainT_ctor [3; 2; 1; 0].

(** How often a strain occurs in a sequence of strains. *)
Definition Strain_occurrences (s : Strain) (l : list Strain) : nat :=
  length (filter (fun x => StrainT_value x =? StrainT_value s) l).

(** ** [Direction] and [Position] *)

Record Direction : Type := mkDirection { Direction_value : Z }.
Record Position : Type := mkPosition { Position_value : Z }.

Definition Direction_max : Z := 3.

Definition Direction_checkValid (d : Direction) : bool :=
  Direction_value d <=? Direction_max.

(** [explicit Direction (unsigned char value)] *)
Definition Direction_ctor (value : Z) : Checked Direction :=
  let d := mkDirection value in
  check (Direction_checkValid d) ;;; ret d.

Definition Direction_toNumber (d : Direction) : Checked Z :=
  check (Direction_checkValid d) ;;; ret (Direction_value d).

Definition Position_checkValid (p : Position) : bool :=
  Position_value p <=? 3.

(** [Position (unsigned char value)] *)
Definition Position_ctor (value : Z) : Checked Position :=
  let p := mkPosition value in
  check (Position_checkValid p) ;;; ret p.

Definition Position_toNumber (p : Position) : Checked Z :=
  check (Position_checkValid p) ;;; ret (Position_value p).

(** [Position (Direction const & leading, Direction const & relative)]:
    the initialiser [(leading + relative) & 3] adds two [const] Directions.
    [Direction::operator+] is a non-const member taking a [Position], so
    it does not apply; both operands go through
    [operator unsigned char() const] (that is, [toNumber()]) and are added
    as integers. *)
Definition Position_of (leading relative : Direction) : Checked Position :=
  l <- Direction_toNumber leading ;;
  r <- Direction_toNumber relative ;;
  Position_ctor (u8 (Z.land (l + r) 3)).

Definition Position_oneBackwards (p : Position) : Checked Position :=
  check (Position_checkValid p) ;;;
  Position_ctor (u8 (Z.land (Position_value p + 3) 3)).

(** [Direction::operator+ (Position const & relative)] *)
Definition Direction_plus (d : Direction) (relative : Position) : Checked Direction :=
  check (Direction_checkValid d) ;;;
  n <- Position_toNumber relative ;;
  Direction_ctor (u8 (Z.land (Direction_value d + n) 3)).

Definition North : Direction := mkDirection 0.
Definition East : Direction := mkDirection 1.
Definition South : Direction := mkDirection 2.
Definition West : Direction := mkDirection 3.

(** ** [RankT<zeroOk, oneOk, fifteenOk>] and [Rank] *)

Definition RankT_minValue (zeroOk oneOk : bool) : Z :=
  if zeroOk then 0 else if oneOk then 1 else 2.

Definition RankT_maxValue (fifteenOk : bool) : Z :=
  if fifteenOk then 15 else 14.

Definition RankT_checkValid (zeroOk oneOk fifteenOk : bool) (value : Z) : bool :=
  (value <=? RankT_maxValue fifteenOk)
  && (if negb (value =? 0) then true else zeroOk)
  && (if negb (value =? 1) then true else oneOk)
  && (if negb (value =? 15) then true else fifteenOk).

(** [class Rank : public RankT<false, false, false>] *)
Record Rank : Type := mkRank { Rank_value : Z }.

Definition Rank_min : Z := RankT_minValue false false.
Definition Rank_max : Z := RankT_maxValue false.

Definition Rank_checkValid (r : Rank) : bool :=
  RankT_checkValid false false false (Rank_value r).

(** [explicit RankT (unsigned char value)] *)
Definition Rank_ctor (value : Z) : Checked Rank :=
  let r := mkRank value in
  check (Rank_checkValid r) ;;; ret r.

(** [toNumber()] and [operator unsigned char()] have the same body. *)
Definition Rank_toNumber (r : Rank) : Checked Z :=
  check (Rank_checkValid r) ;;; ret (Rank_value r).

Definition bitMaskRankData : list Z :=
  [ 0xAE00; 0xAE01;
    0x0001; 0x0002; 0x0004; 0x0008; 0x0010; 0x0020;
    0x0040; 0x0080; 0x0100; 0x0200; 0x0400; 0x0800; 0x1000;
    0xAE0F ].

Definition Rank_bitMask (r : Rank) : Checked Z :=
  check (Rank_checkValid r) ;;;
  ret (nth (Z.to_nat (Rank_value r)) bitMaskRankData 0).

Definition Rank_highToLow : Checked (list Rank) :=
  mapM Rank_ctor [14; 13; 12; 11; 10; 9; 8; 7; 6; 5; 4; 3; 2].

(** [optional<Rank>] is [SpecializeOptional<Rank>]: a [Rank] object whose
    value may be the reserved pattern. *)
Definition Rank_nullopt : Rank := mkRank optionalValue.

Definition Rank_testOptional (r : Rank) : bool := Rank_value r =? optionalValue.

(** [explicit operator bool()] of [SpecializeOptional] *)
Definition Rank_hasValue (o : Rank) : bool := negb (Rank_testOptional o).

(** ** [Priority] *)

Record Priority : Type := mkPriority { Priority_value : Z }.

Definition Priority_checkValid (p : Priority) : bool :=
  negb (Priority_value p =? 0) && (Priority_value p <=? 14).

(** [explicit Priority (unsigned char value)] *)
Definition Priority_ctor (value : Z) : Checked Priority :=
  let p := mkPriority value in
  check (Priority_checkValid p) ;;; ret p.

Definition Priority_toNumber (p : Priority) : Checked Z :=
  check (Priority_checkValid p) ;;; ret (Priority_value p).

Definition Priority_nullopt : Priority := mkPriority optionalValue.

Definition Priority_testOptional (p : Priority) : bool :=
  Priority_value p =? optionalValue.

(** ** Loops

    A [for] loop whose body may [break]: the body maps the accumulated
    state to [Continue] or [Break]. *)

Inductive LoopCtl (A : Type) : Type :=
| Continue (a : A)
| Break (a : A).
Arguments Continue {A} a.
Arguments Break {A} a.

Fixpoint for_each {X A : Type} (xs : list X)
    (body : X -> A -> Checked (LoopCtl A)) (acc : A) : Checked A :=
  match xs with
  | [] => ret acc
  | x :: xs' =>
      c <- body x acc ;;
      match c with
      | Continue a => for_each xs' body a
      | Break a => ret a
      end
  end.

(** The values the loop variable takes in
    [for (T v = start; v >= lo; v--)] on an [unsigned char] and in
    [for (T v = start; v <= hi; v++)] on an [unsigned short].  The headers
    compare and step without validity checks.  [fuel] bounds the number
    of iterations. *)
Fixpoint loop_down (fuel : nat) (v lo : Z) : list Z :=
  match fuel with
  | O => []
  | S fuel' => if v >=? lo then v :: loop_down fuel' (u8 (v - 1)) lo else []
  end.

Fixpoint loop_up (fuel : nat) (v hi : Z) : list Z :=
  match fuel with
  | O => []
  | S fuel' => if v <=? hi then v :: loop_up fuel' (u16 (v + 1)) hi else []
  end.

(** [for (Rank r = Rank::max(); r >= Rank::min(); r--)]: an
    [unsigned char] counter visits at most 256 values. *)
Definition Rank_loop : list Rank :=
  map mkRank (loop_down 256 Rank_max Rank_min).

(** ** [RankSet] *)

Record RankSet : Type := mkRankSet { RankSet_value : Z }.

Definition RankSet_min : Z := 0.
Definition RankSet_max : Z := Z.shiftl 1 Suit_numCards - 1.

Definition RankSet_optionalValue : Z := 0xBFD3.

Definition RankSet_checkValid (s : RankSet) : bool :=
  RankSet_value s <=? RankSet_max.

(** [explicit RankSet (unsigned short value)] *)
Definition RankSet_ctor (value : Z) : Checked RankSet :=
  let s := mkRankSet value in
  check (RankSet_checkValid s) ;;; ret s.

(** [RankSet ()] *)
Definition RankSet_empty : RankSet := mkRankSet 0.

(** [explicit RankSet (Rank const & rank)] *)
Definition RankSet_ofRank (rank : Rank) : Checked RankSet :=
  m <- Rank_bitMask rank ;;
  let s := mkRankSet m in
  check (RankSet_checkValid s) ;;; ret s.

(** [toNumber()] and [operator unsigned short()] have the same body. *)
Definition RankSet_toNumber (s : RankSet) : Checked Z :=
  check (RankSet_checkValid s) ;;; ret (RankSet_value s).

Definition RankSet_test (s : RankSet) (rank : Rank) : Checked bool :=
  check (RankSet_checkValid s) ;;;
  m <- Rank_bitMask rank ;;
  ret (negb (Z.land (RankSet_value s) m =? 0)).

(** [for (RankSet rs = RankSet::min(); rs <= RankSet::max(); rs++)] *)
Definition RankSet_loop : list RankSet :=
  map mkRankSet (loop_up (Z.to_nat 65536) RankSet_min RankSet_max).

Definition RankSet_toSingleRank (s : RankSet) : Checked Rank :=
  check (RankSet_checkValid s) ;;;
  let value := RankSet_value s in
  if value =? 0x1000 then Rank_ctor 14
  else if value =? 0x0800 then Rank_ctor 13
  else if value =? 0x0400 then Rank_ctor 12
  else if value =? 0x0200 then Rank_ctor 11
  else if value =? 0x0100 then Rank_ctor 10
  else if value =? 0x0080 then Rank_ctor 9
  else if value =? 0x0040 then Rank_ctor 8
  else if value =? 0x0020 then Rank_ctor 7
  else if value =? 0x0010 then Rank_ctor 6
  else if value =? 0x0008 then Rank_ctor 5
  else if value =? 0x0004 then Rank_ctor 4
  else if value =? 0x0002 then Rank_ctor 3
  else if value =? 0x0001 then Rank_ctor 2
  else if value =? 0x0000 then ret Rank_nullopt
  else ret Rank_nullopt.

(** *** The lookup tables

    Each query fills a function-local static table on its first call and
    reads it afterwards.  Filling depends on nothing but the code, so the
    table is the same at every call: the model computes it (one entry per
    iteration of the outer loop, in loop order) and indexes it. *)

Definition highestRank_body (rs : RankSet) (r data_rs : Rank)
    : Checked (LoopCtl Rank) :=
  b <- RankSet_test rs r ;;
  if b then RankSet_toNumber rs ;;; ret (Break r)
  else ret (Continue data_rs).

Definition highestRank_entry (rs : RankSet) : Checked Rank :=
  for_each Rank_loop (highestRank_body rs) Rank_nullopt.

Definition highestRank_data : Checked (list Rank) :=
  mapM highestRank_entry RankSet_loop.

Definition RankSet_highestRank (s : RankSet) : Checked Rank :=
  check (RankSet_checkValid s) ;;;
  data <- highestRank_data ;;
  ret (nth (Z.to_nat (RankSet_value s)) data Rank_nullopt).

Definition count_body (rs : RankSet) (r : Rank) (result : Z)
    : Checked (LoopCtl Z) :=
  b <- RankSet_test rs r ;;
  ret (Continue (if b then u8 (result + 1) else result)).

Definition count_entry (rs : RankSet) : Checked Z :=
  result <- for_each Rank_loop (count_body rs) 0 ;;
  RankSet_toNumber rs ;;; ret result.

Definition count_data : Checked (list Z) := mapM count_entry RankSet_loop.

Definition RankSet_count (s : RankSet) : Checked Z :=
  check (RankSet_checkValid s) ;;;
  data <- count_data ;;
  ret (nth (Z.to_nat (RankSet_value s)) data 0).

Definition RankSet_none (s : RankSet) : bool := RankSet_value s =? 0.
Definition RankSet_any (s : RankSet) : bool := negb (RankSet_value s =? 0).

(** One row [data[rs]] of the priority table: cells are addressed by
    [r - Rank::min()] and start at 0 (static storage). *)
Definition Row : Type := Z -> Z.
Definition Row_zero : Row := fun _ => 0.
Definition Row_store (row : Row) (i x : Z) : Row :=
  fun j => if j =? i then x else row j.

Definition priority_body (rs : RankSet) (r : Rank) (st : Z * Row)
    : Checked (LoopCtl (Z * Row)) :=
  let (ord, row) := st in
  b <- RankSet_test rs r ;;
  RankSet_toNumber rs ;;;
  rv <- Rank_toNumber r ;;
  if b then
    let ord' := u8 (ord + 1) in
    ret (Continue (ord', Row_store row (rv - Rank_min) ord'))
  else
    ret (Continue (ord, Row_store row (rv - Rank_min) 0)).

Definition priority_entry (rs : RankSet) : Checked Row :=
  st <- for_each Rank_loop (priority_body rs) (0, Row_zero) ;;
  ret (snd st).

Definition priority_data : Checked (list Row) := mapM priority_entry RankSet_loop.

Definition RankSet_priorityIfInHand (s : RankSet) (rank : Rank) : Checked Priority :=
  check (RankSet_checkValid s) ;;;
  rankValue <- Rank_toNumber rank ;;
  if rankValue <? 2 then ret Priority_nullopt
  else
    data <- priority_data ;;
    let temp := nth (Z.to_nat (RankSet_value s)) data Row_zero (rankValue - Rank_min) in
    if temp =? 0 then ret Priority_nullopt
    else Priority_ctor temp.

(** [priority] dereferences the optional: [operator*] asserts that it is
    not the absent value. *)
Definition RankSet_priority (s : RankSet) (rank : Rank) : Checked Priority :=
  o <- RankSet_priorityIfInHand s rank ;;
  check (negb (Priority_testOptional o)) ;;; ret o.

(** *** Mutating members *)

Definition RankSet_or_assign (s other : RankSet) : Checked RankSet :=
  check (RankSet_checkValid s) ;;;
  o <- RankSet_toNumber other ;;
  ret (mkRankSet (u16 (Z.lor (RankSet_value s) o))).

Definition RankSet_and_assign (s other : RankSet) : Checked RankSet :=
  check (RankSet_checkValid s) ;;;
  o <- RankSet_toNumber other ;;
  ret (mkRankSet (u16 (Z.land (RankSet_value s) o))).

Definition RankSet_xor_assign (s other : RankSet) : Checked RankSet :=
  check (RankSet_checkValid s) ;;;
  o <- RankSet_toNumber other ;;
  ret (mkRankSet (u16 (Z.lxor (RankSet_value s) o))).

(** [reset (Rank const &)] and [reset ()] *)
Definition RankSet_reset (s : RankSet) (rank : Rank) : Checked RankSet :=
  check (RankSet_checkValid s) ;;;
  m <- Rank_bitMask rank ;;
  ret (mkRankSet (u16 (Z.land (RankSet_value s) (Z.lnot m)))).

Definition RankSet_reset_all (s : RankSet) : Checked RankSet :=
  check (RankSet_checkValid s) ;;;
  ret (mkRankSet 0).

(** [set (Rank const &)] and [set ()] *)
Definition RankSet_set (s : RankSet) (rank : Rank) : Checked RankSet :=
  check (RankSet_checkValid s) ;;;
  m <- Rank_bitMask rank ;;
  ret (mkRankSet (u16 (Z.lor (RankSet_value s) m))).

Definition RankSet_set_all (s : RankSet) : Checked RankSet :=
  check (RankSet_checkValid s) ;;;
  ret (mkRankSet RankSet_max).

(** [flip (Rank const &)] and [flip ()] *)
Definition RankSet_flip (s : RankSet) (rank : Rank) : Checked RankSet :=
  check (RankSet_checkValid s) ;;;
  m <- Rank_bitMask rank ;;
  ret (mkRankSet (u16 (Z.lxor (RankSet_value s) m))).

Definition RankSet_flip_all (s : RankSet) : Checked RankSet :=
  check (RankSet_checkValid s) ;;;
  ret (mkRankSet (u16 (Z.land (Z.lnot (RankSet_value s)) RankSet_max))).

(** [operator~] *)
Definition RankSet_complement (s : RankSet) : Checked RankSet :=
  check (RankSet_checkValid s) ;;;
  RankSet_ctor (u16 (Z.land (Z.lnot (RankSet_value s)) RankSet_max)).

(** *** The asserting operators *)

(** [operator-= (RankSet const &)] *)
Definition RankSet_sub_assign_set (s other : RankSet) : Checked RankSet :=
  check (RankSet_checkValid s) ;;;
  check (Z.land (RankSet_value other) (RankSet_value s) =? RankSet_value other) ;;;
  o <- RankSet_toNumber other ;;
  ret (mkRankSet (u16 (Z.land (RankSet_value s) (Z.lnot o)))).

(** [operator+= (RankSet const &)] *)
Definition RankSet_add_assign_set (s other : RankSet) : Checked RankSet :=
  check (RankSet_checkValid s) ;;;
  check (Z.land (RankSet_value other) (RankSet_value s) =? 0) ;;;
  o <- RankSet_toNumber other ;;
  ret (mkRankSet (u16 (Z.lor (RankSet_value s) o))).

(** [operator-= (Rank const &)] *)
Definition RankSet_sub_assign (s : RankSet) (rank : Rank) : Checked RankSet :=
  check (RankSet_checkValid s) ;;;
  m <- Rank_bitMask rank ;;
  check (negb (Z.land m (RankSet_value s) =? 0)) ;;;
  m' <- Rank_bitMask rank ;;
  ret (mkRankSet (u16 (Z.land (RankSet_value s) (Z.lnot m')))).

(** [operator+= (Rank const &)] *)
Definition RankSet_add_assign (s : RankSet) (rank : Rank) : Checked RankSet :=
  check (RankSet_checkValid s) ;;;
  m <- Rank_bitMask rank ;;
  check (Z.land m (RankSet_value s) =? 0) ;;;
  m' <- Rank_bitMask rank ;;
  ret (mkRankSet (u16 (Z.lor (RankSet_value s) m'))).

(** *** [winRanks] *)

(** [for (int lw = 1; lw < 14; lw++)] *)
Definition leastWin_loop : list Z := map Z.of_nat (seq 1 13).

Definition winRanks_body (rs : RankSet) (lw : Z) (r : Rank)
    (st : Z * RankSet) : Checked (LoopCtl (Z * RankSet)) :=
  let (nextBitNo, result) := st in
  b <- RankSet_test rs r ;;
  if b then
    if nextBitNo <=? lw then
      result' <- RankSet_add_assign result r ;;
      ret (Continue (u16 (nextBitNo + 1), result'))
    else ret (Break st)
  else ret (Continue st).

(** The body of the [lw] loop: the value stored in
    [winRanksData[rs][lw - 1]]. *)
Definition winRanks_cell (rs : RankSet) (lw : Z) : Checked RankSet :=
  st <- for_each Rank_loop (winRanks_body rs lw) (1, RankSet_empty) ;;
  RankSet_toNumber rs ;;; ret (snd st).

Definition winRanks_entry (rs : RankSet) : Checked (list RankSet) :=
  mapM (winRanks_cell rs) leastWin_loop.

Definition winRanks_data : Checked (list (list RankSet)) :=
  mapM winRanks_entry RankSet_loop.

Definition RankSet_winRanks (s : RankSet) (leastWin : Z) : Checked RankSet :=
  check (RankSet_checkValid s) ;;;
  if leastWin =? 0 then RankSet_ctor 0
  else
    check (leastWin <? 14) ;;;
    data <- winRanks_data ;;
    ret (nth (Z.to_nat (leastWin - 1))
             (nth (Z.to_nat (RankSet_value s)) data [])
             RankSet_empty).

(** ** The remaining members

    *** [StrainT] *)


Definition strainChars : list Ascii.ascii :=
  ["S"; "H"; "D"; "C"; "N"]%char.

(** Reading a table past its end is undefined in C++; the model reads
    NUL there. *)
Definition StrainT_toChar {nt : bool} (s : StrainT nt) : Checked Ascii.ascii :=
  check (StrainT_checkValid false s) ;;;
  ret (nth (Z.to_nat (StrainT_value s)) strainChars "000"%char).

(** *** [Rank] and [AnyRank] *)

Definition cardRank : list Ascii.ascii :=
  [ "z"; "o"; "2"; "3"; "4"; "5"; "6"; "7";
    "8"; "9"; "T"; "J"; "Q"; "K"; "A"; "f" ]%char.

Definition Rank_toChar (r : Rank) : Checked Ascii.ascii :=
  check (Rank_checkValid r) ;;;
  ret (nth (Z.to_nat (Rank_value r)) cardRank "000"%char).

Definition Rank_lowTohigh : Checked (list Rank) :=
  mapM Rank_ctor [2; 3; 4; 5; 6; 7; 8; 9; 10; 11; 12; 13; 14].

(** [class AnyRank : public RankT<true, false, false>] *)
Record AnyRank : Type := mkAnyRank { AnyRank_value : Z }.

Definition AnyRank_checkValid (r : AnyRank) : bool :=
  RankT_checkValid true false false (AnyRank_value r).

Definition AnyRank_ctor (value : Z) : Checked AnyRank :=
  let r := mkAnyRank value in
  check (AnyRank_checkValid r) ;;; ret r.

Definition AnyRank_toNumber (r : AnyRank) : Checked Z :=
  check (AnyRank_checkValid r) ;;; ret (AnyRank_value r).


Definition AnyRank_testOptional (r : AnyRank) : bool :=
  AnyRank_value r =? optionalValue.

(** *** [Direction] and [Position] *)

(** A default-constructed object holds [0xAE] when checking is on; the
    model reads it where C++ would read past a table. *)
Definition garbage : Z := 0xAE.

Definition Direction_NESW : Checked (list Direction) :=
  mapM Direction_ctor [0; 1; 2; 3].

Definition lhoData : Checked (list Direction) :=
  mapM Direction_ctor [1; 2; 3; 0].

Definition rhoData : Checked (list Direction) :=
  mapM Direction_ctor [3; 0; 1; 2].

Definition partnerData : Checked (list Direction) :=
  mapM Direction_ctor [2; 3; 0; 1].

Definition Direction_lho (d : Direction) : Checked Direction :=
  check (Direction_checkValid d) ;;;
  data <- lhoData ;;
  ret (nth (Z.to_nat (Direction_value d)) data (mkDirection garbage)).

Definition Direction_rho (d : Direction) : Checked Direction :=
  check (Direction_checkValid d) ;;;
  data <- rhoData ;;
  ret (nth (Z.to_nat (Direction_value d)) data (mkDirection garbage)).

Definition Direction_partner (d : Direction) : Checked Direction :=
  check (Direction_checkValid d) ;;;
  data <- partnerData ;;
  ret (nth (Z.to_nat (Direction_value d)) data (mkDirection garbage)).

Definition directionChars : list Ascii.ascii := ["N"; "E"; "S"; "W"]%char.

Definition Direction_toChar (d : Direction) : Checked Ascii.ascii :=
  check (Direction_checkValid d) ;;;
  ret (nth (Z.to_nat (Direction_value d)) directionChars "000"%char).

Definition directionStrings : list String.string :=
  ["North"; "East"; "South"; "West"]%string.

Definition Direction_toString (d : Direction) : Checked String.string :=
  check (Direction_checkValid d) ;;;
  ret (nth (Z.to_nat (Direction_value d)) directionStrings ""%string).

Definition Direction_testOptional (d : Direction) : bool :=
  Direction_value d =? optionalValue.

Definition positionChars : list Ascii.ascii := ["1"; "2"; "3"; "4"]%char.

Definition Position_toChar (p : Position) : Checked Ascii.ascii :=
  check (Position_checkValid p) ;;;
  ret (nth (Z.to_nat (Position_value p)) positionChars "000"%char).

Definition positionStrings : list String.string :=
  ["First"; "Second"; "Third"; "Fourth"]%string.

Definition Position_toString (p : Position) : Checked String.string :=
  check (Position_checkValid p) ;;;
  ret (nth (Z.to_nat (Position_value p)) positionStrings ""%string).

Definition Position_testOptional (p : Position) : bool :=
  Position_value p =? optionalValue.

(** *** [RankSet] *)

Definition RankSet_testOptional (s : RankSet) : bool :=
  RankSet_value s =? RankSet_optionalValue.

(** [operator==] and [operator!=] *)
Definition RankSet_eq (s other : RankSet) : Checked bool :=
  check (RankSet_checkValid s) ;;;
  o <- RankSet_toNumber other ;;
  ret (RankSet_value s =? o).

Definition RankSet_ne (s other : RankSet) : Checked bool :=
  check (RankSet_checkValid s) ;;;
  o <- RankSet_toNumber other ;;
  ret (negb (RankSet_value s =? o)).

(** [toLowest()] and [cloneOnlyLSB()] have the same body: the value is
    promoted to [int], negated there, and the conjunction converted back. *)
Definition RankSet_toLowest (s : RankSet) : Checked RankSet :=
  check (RankSet_checkValid s) ;;;
  RankSet_ctor (u16 (Z.land (RankSet_value s) (- RankSet_value s))).

Definition RankSet_cloneOnlyLSB (s : RankSet) : Checked RankSet :=
  check (RankSet_checkValid s) ;;;
  RankSet_ctor (u16 (Z.land (RankSet_value s) (- RankSet_value s))).

(** [operator<] and [operator>] *)
Definition RankSet_lt (s other : RankSet) : Checked bool :=
  check (RankSet_checkValid s) ;;;
  o <- RankSet_toNumber other ;;
  ret (RankSet_value s <? o).

Definition RankSet_gt (s other : RankSet) : Checked bool :=
  check (RankSet_checkValid s) ;;;
  o <- RankSet_toNumber other ;;
  ret (RankSet_value s >? o).

(** The friend operators take [lhs] by value and return the result of
    the assigning operator on that copy. *)
Definition RankSet_plus (lhs rhs : RankSet) : Checked RankSet :=
  RankSet_add_assign_set lhs rhs.

Definition RankSet_minus (lhs rhs : RankSet) : Checked RankSet :=
  RankSet_sub_assign_set lhs rhs.

Definition RankSet_or (lhs rhs : RankSet) : Checked RankSet :=
  RankSet_or_assign lhs rhs.

Definition RankSet_xor (lhs rhs : RankSet) : Checked RankSet :=
  RankSet_xor_assign lhs rhs.

Definition RankSet_and (lhs rhs : RankSet) : Checked RankSet :=
  RankSet_and_assign lhs rhs.

(** ** Vocabulary of the properties *)

(** A valid object: its value is not negative (the C types are unsigned)
    and its [checkValid] accepts it. *)
Definition Direction_valid (d : Direction) : Prop :=
  0 <= Direction_value d /\ Direction_checkValid d = true.

Definition Position_valid (p : Position) : Prop :=
  0 <= Position_value p /\ Position_checkValid p = true.

Definition Rank_valid (r : Rank) : Prop :=
  0 <= Rank_value r /\ Rank_checkValid r = true.

Definition RankSet_valid (s : RankSet) : Prop :=
  0 <= RankSet_value s /\ RankSet_checkValid s = true.

(** Membership as [test] reports it. *)
Definition RankSet_has (s : RankSet) (r : Rank) : bool :=
  match RankSet_test s r with
  | Some b => b
  | None => false
  end.

(** The thirteen ranks, Ace first. *)
Definition all_ranks : list Rank :=
  map mkRank [14; 13; 12; 11; 10; 9; 8; 7; 6; 5; 4; 3; 2].

(** The members of a set, highest first. *)
Definition RankSet_members (s : RankSet) : list Rank :=
  filter (RankSet_has s) all_ranks.

(** The members of [s] that outrank [r]. *)
Definition outranking (s : RankSet) (r : Rank) : list Rank :=
  filter (fun r' => Rank_value r <? Rank_value r') (RankSet_members s).

(** [r] is the [k]-th highest member of [s] (counting from 1): it is a
    member and exactly [k - 1] members outrank it. *)
Definition kth_highest (s : RankSet) (k : Z) (r : Rank) : Prop :=
  In r (RankSet_members s) /\
  Z.of_nat (length (outranking s r)) = k - 1.

(** Ranks in strictly falling order. *)
Definition falling (l : list Rank) : Prop :=
  StronglySorted (fun x y => Rank_value y < Rank_value x) l.

(** The members' priorities, highest rank first. *)
Definition RankSet_priorities (s : RankSet) : list (Checked Priority) :=
  map (RankSet_priority s) (RankSet_members s).

(** The priorities 1, 2, ..., n. *)
Definition first_priorities (n : Z) : list (Checked Priority) :=
  map (fun i => Some (mkPriority (Z.of_nat i))) (seq 1 (Z.to_nat n)).

(** An operation that returns a valid set, and one whose result, when
    its assertions let it return, is a valid set. *)
Definition returns_valid (res : Checked RankSet) : Prop :=
  exists s', res = Some s' /\ RankSet_valid s'.

Definition valid_if_returns (res : Checked RankSet) : Prop :=
  forall s', res = Some s' -> RankSet_valid s'.

(** The lowest member of a set (the absent value for a set without
    members). *)
Definition RankSet_lowest (s : RankSet) : Rank :=
  last (RankSet_members s) Rank_nullopt.

(** The number of members. *)
Definition RankSet_size (s : RankSet) : Z :=
  Z.of_nat (length (RankSet_members s)).

(** * Properties *)

(** ** Suits and strains *)

(** Among the four suits the order is the documented one: the stronger
    suit (the smaller number) compares greater. *)
Lemma StrainT_gt_suits (nt : bool) (a b : StrainT nt) :
  StrainT_value b <> 4 ->
  StrainT_gt a b = (StrainT_value a <? StrainT_value b).
Proof.
  intros Hb. unfold StrainT_gt.
  destruct (Z.eqb_spec (StrainT_value b) 4); [contradiction | reflexivity].
Qed.

(** No suit is below NoTrump and NoTrump is above no suit: the four
    operators only treat the NoTrump operand on one side. *)
Lemma NoTrump_incomparable (s : Strain) :
  StrainT_inDomain s -> StrainT_value s <> 4 ->
  StrainT_lt s NoTrump = false /\ StrainT_gt NoTrump s = false /\
  StrainT_ge NoTrump s = false /\ StrainT_le s NoTrump = false.
Proof.
  unfold StrainT_inDomain, StrainT_lt, StrainT_gt, StrainT_ge, StrainT_le.
  destruct s as [v]; simpl. intros Hd Hne.
  destruct (Z.eqb_spec v 4) as [E | _]; [contradiction |].
  repeat split; lia.
Qed.

(** C1: the specification has NoTrump as the maximum of the order on
    strains ([s < NoTrump], [NoTrump > s], [NoTrump >= s] and
    [s <= NoTrump] for every suit [s]).  On the code all four comparisons
    of Spades with NoTrump answer false. *)
Theorem C1_NoTrump_is_not_above_Spades :
  StrainT_lt (Spades : Strain) NoTrump = false /\
  StrainT_gt NoTrump (Spades : Strain) = false /\
  StrainT_ge NoTrump (Spades : Strain) = false /\
  StrainT_le (Spades : Strain) NoTrump = false.
Proof. repeat split; reflexivity. Qed.

(** [operator!=] has the body of [operator==]. *)
Lemma StrainT_ne_is_eq (nt : bool) (a b : StrainT nt) :
  StrainT_ne a b = StrainT_eq a b.
Proof. reflexivity. Qed.

(** C3: the specification has [a != b] as the negation of [a == b] on
    suits and on strains.  On the code Spades != Spades holds together
    with Spades == Spades, and Spades != Hearts fails together with
    Spades == Hearts, for a Suit as for a Strain. *)
Theorem C3_ne_agrees_with_eq :
  StrainT_ne (Spades : Suit) Spades = true /\
  StrainT_eq (Spades : Suit) Spades = true /\
  StrainT_ne (Spades : Suit) Hearts = false /\
  StrainT_eq (Spades : Suit) Hearts = false /\
  StrainT_ne (Spades : Strain) Spades = true /\
  StrainT_eq (Spades : Strain) Spades = true.
Proof. repeat split; reflexivity. Qed.

(** The two suit sequences are each other's reverse. *)
Lemma Suit_lowToHigh_rev :
  Suit_lowToHigh = option_map (@rev Suit) Suit_highToLow.
Proof. reflexivity. Qed.

(** C4: the specification has [Strain::lowToHigh()] hold each of the
    five strains once, in the reverse order of [Strain::highToLow()].  On
    the code it is Spades, Clubs, Diamonds, Hearts, Spades: Spades twice,
    NoTrump never, and not the reverse of [highToLow()], which is Clubs,
    Diamonds, Hearts, Spades, NoTrump. *)
Theorem C4_lowToHigh_repeats_Spades :
  Strain_lowToHigh = Some [Spades; Clubs; Diamonds; Hearts; Spades] /\
  option_map (Strain_occurrences Spades) Strain_lowToHigh = Some 2%nat /\
  option_map (Strain_occurrences NoTrump) Strain_lowToHigh = Some 0%nat /\
  option_map (@rev Strain) Strain_highToLow
    = Some [Clubs; Diamonds; Hearts; Spades; NoTrump].
Proof. repeat split; reflexivity. Qed.

(** ** Directions and positions *)

Lemma land_3 (z : Z) : Z.land z 3 = z mod 4.
Proof. change 3 with (Z.ones 2). rewrite Z.land_ones by lia. reflexivity. Qed.

Lemma Direction_valid_range (d : Direction) :
  Direction_valid d <-> 0 <= Direction_value d <= 3.
Proof.
  unfold Direction_valid, Direction_checkValid, Direction_max.
  rewrite Z.leb_le. tauto.
Qed.

Lemma Position_valid_range (p : Position) :
  Position_valid p <-> 0 <= Position_value p <= 3.
Proof.
  unfold Position_valid, Position_checkValid. rewrite Z.leb_le. tauto.
Qed.

(** The sum of a Direction and a Position is taken modulo 4. *)
Lemma Direction_plus_spec (d : Direction) (p : Position) :
  Direction_valid d -> Position_valid p ->
  Direction_plus d p
  = Some (mkDirection ((Direction_value d + Position_value p) mod 4)).
Proof.
  rewrite Direction_valid_range, Position_valid_range.
  destruct d as [dv], p as [pv]; simpl. intros Hd Hp.
  unfold Direction_plus, Position_toNumber, Direction_ctor,
    Direction_checkValid, Position_checkValid, Direction_max.
  cbn [Direction_value Position_value].
  destruct (Z.leb_spec dv 3); [| lia].
  destruct (Z.leb_spec pv 3); [| lia].
  cbn [bind check ret]. rewrite land_3.
  assert (Hm : 0 <= (dv + pv) mod 4 < 4) by (apply Z.mod_pos_bound; lia).
  assert (Hu : u8 ((dv + pv) mod 4) = (dv + pv) mod 4)
    by (unfold u8; apply Z.mod_small; lia).
  rewrite Hu.
  destruct (Z.leb_spec ((dv + pv) mod 4) 3); [| lia].
  reflexivity.
Qed.

(** The two-Direction constructor of Position adds the two numbers. *)
Lemma Position_of_spec (leading relative : Direction) :
  Direction_valid leading -> Direction_valid relative ->
  Position_of leading relative
  = Some (mkPosition ((Direction_value leading + Direction_value relative) mod 4)).
Proof.
  rewrite !Direction_valid_range.
  destruct leading as [l], relative as [r]; simpl. intros Hl Hr.
  unfold Position_of, Direction_toNumber, Position_ctor,
    Direction_checkValid, Position_checkValid, Direction_max.
  cbn [Direction_value Position_value].
  destruct (Z.leb_spec l 3); [| lia].
  destruct (Z.leb_spec r 3); [| lia].
  cbn [bind check ret]. rewrite land_3.
  assert (Hm : 0 <= (l + r) mod 4 < 4) by (apply Z.mod_pos_bound; lia).
  assert (Hu : u8 ((l + r) mod 4) = (l + r) mod 4)
    by (unfold u8; apply Z.mod_small; lia).
  rewrite Hu.
  destruct (Z.leb_spec ((l + r) mod 4) 3); [| lia].
  reflexivity.
Qed.

(** Adding the Position of [relative] from [leading] back to [leading]
    gives seat [2 * leading + relative], not [relative]. *)
Lemma Direction_plus_Position_of (leading relative : Direction) :
  Direction_valid leading -> Direction_valid relative ->
  (p <- Position_of leading relative ;; Direction_plus leading p)
  = Some (mkDirection
            ((2 * Direction_value leading + Direction_value relative) mod 4)).
Proof.
  intros Hl Hr. rewrite Position_of_spec by assumption. simpl.
  rewrite Direction_plus_spec; try assumption.
  - cbn [Position_value]. rewrite Zplus_mod_idemp_r.
    replace (Direction_value leading + (Direction_value leading + Direction_value relative))
      with (2 * Direction_value leading + Direction_value relative) by lia.
    reflexivity.
  - apply Position_valid_range; simpl.
    apply Direction_valid_range in Hl, Hr.
    pose proof (Z.mod_pos_bound (Direction_value leading + Direction_value relative) 4).
    lia.
Qed.

(** C2: the specification has [leading + Position(leading, relative)]
    equal to [relative].  On the code the Position of East as seen from
    East is Third, and East plus that Position is West. *)
Theorem C2_East_plus_Position_of_East_is_West :
  Position_of East East = Some (mkPosition 2) /\
  (p <- Position_of East East ;; Direction_plus East p) = Some West.
Proof. split; reflexivity. Qed.

(** ** Checked computations *)

Lemma bind_Some {A B : Type} (m : Checked A) (k : A -> Checked B) (b : B) :
  bind m k = Some b <-> exists a, m = Some a /\ k a = Some b.
Proof.
  destruct m as [a |]; simpl; split.
  - intros H. exists a. auto.
  - intros [a' [E H]]. inversion E. subst. exact H.
  - discriminate.
  - intros [a' [E _]]. discriminate.
Qed.

Lemma mapM_total {A B : Type} (f : A -> Checked B) (l : list A) :
  (forall a, In a l -> exists b, f a = Some b) ->
  exists bs, mapM f l = Some bs.
Proof.
  induction l as [| a l IH]; intros H; simpl.
  - exists []. reflexivity.
  - destruct (H a (or_introl eq_refl)) as [b Hb].
    destruct IH as [bs Hbs]; [intros x Hx; apply H; right; exact Hx |].
    exists (b :: bs). rewrite Hb. simpl. rewrite Hbs. reflexivity.
Qed.

Lemma mapM_nth {A B : Type} (f : A -> Checked B) (l : list A) (bs : list B)
    (da : A) (db : B) :
  mapM f l = Some bs ->
  forall i, (i < length l)%nat -> f (nth i l da) = Some (nth i bs db).
Proof.
  revert bs. induction l as [| a l IH]; intros bs H i Hi; simpl in *.
  - lia.
  - apply bind_Some in H. destruct H as [b [Hb H]].
    apply bind_Some in H. destruct H as [bs' [Hbs H]].
    inversion H; subst bs; clear H.
    destruct i as [| i]; simpl.
    + exact Hb.
    + apply IH; [exact Hbs | lia].
Qed.

(** ** The loop headers terminate within their fuel *)

Lemma loop_down_Rank_fuel (k : nat) :
  loop_down (13 + k) Rank_max Rank_min = loop_down 13 Rank_max Rank_min.
Proof. destruct k; reflexivity. Qed.

Lemma Rank_loop_all_ranks : Rank_loop = all_ranks.
Proof. reflexivity. Qed.

Lemma loop_up_fuel (hi : Z) (n : nat) :
  hi + 1 < 65536 ->
  forall (v : Z) (k : nat),
    0 <= v -> v + Z.of_nat n = hi + 1 ->
    loop_up (n + k) v hi = map Z.of_nat (seq (Z.to_nat v) n).
Proof.
  intros Hhi. induction n as [| n IH]; intros v k Hv Hn.
  - destruct k; simpl; [reflexivity |].
    destruct (Z.leb_spec v hi); [lia | reflexivity].
  - cbn [Nat.add loop_up seq map].
    destruct (Z.leb_spec v hi); [| lia].
    rewrite Z2Nat.id by lia. f_equal.
    assert (Hu : u16 (v + 1) = v + 1) by (unfold u16; apply Z.mod_small; lia).
    rewrite Hu, IH by lia.
    replace (Z.to_nat (v + 1)) with (S (Z.to_nat v)) by lia.
    reflexivity.
Qed.

Lemma RankSet_loop_seq :
  RankSet_loop
  = map mkRankSet (map Z.of_nat (seq 0 (Z.to_nat 8192))).
Proof.
  unfold RankSet_loop. apply (f_equal (map mkRankSet)).
  replace (Z.to_nat 65536) with (Z.to_nat 8192 + Z.to_nat 57344)%nat by lia.
  apply (loop_up_fuel RankSet_max (Z.to_nat 8192)).
  - reflexivity.
  - unfold RankSet_min. lia.
  - reflexivity.
Qed.

Lemma RankSet_loop_length : length RankSet_loop = Z.to_nat 8192.
Proof. rewrite RankSet_loop_seq, !length_map, length_seq. reflexivity. Qed.

Lemma RankSet_loop_nth (v : Z) (d : RankSet) :
  0 <= v <= 8191 -> nth (Z.to_nat v) RankSet_loop d = mkRankSet v.
Proof.
  intros Hv. rewrite RankSet_loop_seq, map_map.
  rewrite nth_indep with (d' := mkRankSet (Z.of_nat 0))
    by (rewrite length_map, length_seq; lia).
  rewrite (map_nth (fun n => mkRankSet (Z.of_nat n))).
  rewrite seq_nth by lia. simpl. f_equal. lia.
Qed.

Lemma RankSet_loop_In (rs : RankSet) :
  In rs RankSet_loop -> 0 <= RankSet_value rs <= 8191.
Proof.
  rewrite RankSet_loop_seq, map_map. intros H.
  apply in_map_iff in H. destruct H as [n [E Hn]]. subst rs.
  apply in_seq in Hn. simpl. lia.
Qed.

(** ** Bits *)

Lemma land_pow2 (v i : Z) :
  0 <= i -> Z.land v (2 ^ i) = if Z.testbit v i then 2 ^ i else 0.
Proof.
  intros Hi. apply Z.bits_inj'. intros n Hn.
  rewrite Z.land_spec, Z.pow2_bits_eqb by lia.
  destruct (Z.eqb_spec i n) as [E | E].
  - subst n. destruct (Z.testbit v i); simpl.
    + rewrite Z.pow2_bits_true by lia. reflexivity.
    + rewrite Z.bits_0. reflexivity.
  - rewrite andb_false_r. destruct (Z.testbit v i).
    + rewrite Z.pow2_bits_false by lia. reflexivity.
    + rewrite Z.bits_0. reflexivity.
Qed.

Lemma land_pow2_eqb (v i : Z) :
  0 <= i -> negb (Z.land v (2 ^ i) =? 0) = Z.testbit v i.
Proof.
  intros Hi. rewrite land_pow2 by lia.
  assert (0 < 2 ^ i) by (apply Z.pow_pos_nonneg; lia).
  destruct (Z.testbit v i).
  - destruct (Z.eqb_spec (2 ^ i) 0); [lia | reflexivity].
  - reflexivity.
Qed.

Lemma bits_above (n w : Z) :
  0 <= n -> 0 <= w < 2 ^ n -> forall i, n <= i -> Z.testbit w i = false.
Proof.
  intros Hn Hw i Hi.
  rewrite <- (Z.mod_small w (2 ^ n)) by lia.
  apply Z.mod_pow2_bits_high. lia.
Qed.

Lemma bits_bounded (n w : Z) :
  0 <= n -> 0 <= w ->
  (forall i, n <= i -> Z.testbit w i = false) -> w < 2 ^ n.
Proof.
  intros Hn Hw H.
  assert (E : w mod 2 ^ n = w).
  { apply Z.bits_inj'. intros i Hi.
    destruct (Z_lt_le_dec i n) as [L | L].
    - apply Z.mod_pow2_bits_low. lia.
    - rewrite Z.mod_pow2_bits_high by lia. symmetry. apply H. lia. }
  rewrite <- E. apply Z.mod_pos_bound. apply Z.pow_pos_nonneg; lia.
Qed.

(** Two non-negative integers with the same bits below [n] and none
    above are equal. *)
Lemma bits_eq_below (n a b : Z) :
  0 <= n -> 0 <= a < 2 ^ n -> 0 <= b < 2 ^ n ->
  (forall i, 0 <= i < n -> Z.testbit a i = Z.testbit b i) -> a = b.
Proof.
  intros Hn Ha Hb H. apply Z.bits_inj'. intros i Hi.
  destruct (Z_lt_le_dec i n) as [L | L].
  - apply H. lia.
  - rewrite (bits_above n a), (bits_above n b) by lia. reflexivity.
Qed.

(** ** Ranks *)

Lemma Rank_highToLow_all_ranks : Rank_highToLow = Some all_ranks.
Proof. reflexivity. Qed.

Lemma Rank_valid_range (r : Rank) :
  Rank_valid r <-> 2 <= Rank_value r <= 14.
Proof.
  unfold Rank_valid, Rank_checkValid, RankT_checkValid, RankT_maxValue.
  destruct r as [v]; cbn [Rank_value]. split.
  - intros [H0 H]. rewrite !andb_true_iff in H.
    destruct H as [[[H1 H2] H3] _]. apply Z.leb_le in H1.
    destruct (Z.eqb_spec v 0); [discriminate |].
    destruct (Z.eqb_spec v 1); [discriminate |]. lia.
  - intros H. split; [lia |].
    destruct (Z.leb_spec v 14); [| lia].
    destruct (Z.eqb_spec v 0); [lia |].
    destruct (Z.eqb_spec v 1); [lia |].
    destruct (Z.eqb_spec v 15); [lia |]. reflexivity.
Qed.

Lemma Rank_valid_cases (r : Rank) :
  Rank_valid r -> In r all_ranks.
Proof.
  intros H. apply Rank_valid_range in H. destruct r as [v]. simpl in H.
  assert (C : v = 14 \/ v = 13 \/ v = 12 \/ v = 11 \/ v = 10 \/ v = 9 \/ v = 8
              \/ v = 7 \/ v = 6 \/ v = 5 \/ v = 4 \/ v = 3 \/ v = 2) by lia.
  unfold all_ranks. cbn [map In].
  repeat (destruct C as [C | C]; [subst v; tauto |]). subst v. tauto.
Qed.

Lemma all_ranks_valid (r : Rank) : In r all_ranks -> Rank_valid r.
Proof.
  intros H. apply Rank_valid_range. unfold all_ranks in H. cbn [map In] in H.
  repeat (destruct H as [H | H]; [subst r; simpl; lia |]). contradiction.
Qed.

Lemma all_ranks_NoDup : NoDup all_ranks.
Proof.
  unfold all_ranks. cbn [map].
  repeat (constructor; [cbn [In]; intros H;
    repeat (destruct H as [H | H]; [discriminate H |]); exact H |]).
  constructor.
Qed.

Lemma Rank_eq_value (r r' : Rank) : Rank_value r = Rank_value r' -> r = r'.
Proof. destruct r, r'; simpl; intros; subst; reflexivity. Qed.

Lemma Rank_bitMask_spec (r : Rank) :
  Rank_valid r -> Rank_bitMask r = Some (2 ^ (Rank_value r - 2)).
Proof.
  intros H. apply Rank_valid_cases in H. unfold all_ranks in H.
  cbn [map In] in H.
  repeat (destruct H as [H | H]; [subst r; reflexivity |]). contradiction.
Qed.

Lemma Rank_toNumber_spec (r : Rank) :
  Rank_valid r -> Rank_toNumber r = Some (Rank_value r).
Proof.
  intros [_ H]. unfold Rank_toNumber. rewrite H. reflexivity.
Qed.

(** ** Rank sets: validity, membership, bounds *)

Lemma RankSet_valid_range (s : RankSet) :
  RankSet_valid s <-> 0 <= RankSet_value s <= 8191.
Proof.
  unfold RankSet_valid, RankSet_checkValid. rewrite Z.leb_le.
  change RankSet_max with 8191. tauto.
Qed.

Lemma RankSet_toNumber_spec (s : RankSet) :
  RankSet_valid s -> RankSet_toNumber s = Some (RankSet_value s).
Proof.
  intros [_ H]. unfold RankSet_toNumber. rewrite H. reflexivity.
Qed.

Lemma RankSet_test_spec (s : RankSet) (r : Rank) :
  RankSet_valid s -> Rank_valid r ->
  RankSet_test s r = Some (Z.testbit (RankSet_value s) (Rank_value r - 2)).
Proof.
  intros [_ Hs] Hr. unfold RankSet_test.
  rewrite Hs, (Rank_bitMask_spec r Hr). cbn [check bind ret].
  apply Rank_valid_range in Hr. rewrite land_pow2_eqb by lia. reflexivity.
Qed.

Lemma RankSet_has_spec (s : RankSet) (r : Rank) :
  RankSet_valid s -> Rank_valid r ->
  RankSet_has s r = Z.testbit (RankSet_value s) (Rank_value r - 2).
Proof.
  intros Hs Hr. unfold RankSet_has.
  rewrite (RankSet_test_spec s r Hs Hr). reflexivity.
Qed.

Lemma RankSet_test_has (s : RankSet) (r : Rank) :
  RankSet_valid s -> Rank_valid r ->
  RankSet_test s r = Some (RankSet_has s r).
Proof.
  intros Hs Hr. rewrite (RankSet_has_spec s r Hs Hr).
  apply RankSet_test_spec; assumption.
Qed.

Lemma RankSet_members_In (s : RankSet) (r : Rank) :
  In r (RankSet_members s) <-> Rank_valid r /\ RankSet_has s r = true.
Proof.
  unfold RankSet_members. rewrite filter_In. split.
  - intros [H1 H2]. split; [apply all_ranks_valid |]; assumption.
  - intros [H1 H2]. split; [apply Rank_valid_cases |]; assumption.
Qed.

(** Two valid sets with the same members are the same set. *)
Lemma RankSet_ext (s s' : RankSet) :
  RankSet_valid s -> RankSet_valid s' ->
  (forall r, Rank_valid r -> RankSet_has s r = RankSet_has s' r) ->
  s = s'.
Proof.
  intros Hs Hs' H. destruct s as [v], s' as [v'].
  pose proof (proj1 (RankSet_valid_range _) Hs) as Rv.
  pose proof (proj1 (RankSet_valid_range _) Hs') as Rv'.
  cbn [RankSet_value] in Rv, Rv'. f_equal.
  apply (bits_eq_below 13); try lia.
  intros i Hi.
  assert (Hr : Rank_valid (mkRank (i + 2)))
    by (apply Rank_valid_range; simpl; lia).
  specialize (H _ Hr).
  rewrite (RankSet_has_spec _ _ Hs Hr), (RankSet_has_spec _ _ Hs' Hr) in H.
  cbn [RankSet_value Rank_value] in H.
  replace (i + 2 - 2) with i in H by lia. exact H.
Qed.

Lemma u16_small (z : Z) : 0 <= z <= 8191 -> u16 z = z.
Proof. intros H. unfold u16. apply Z.mod_small. lia. Qed.

Lemma lor_range (a b : Z) :
  0 <= a <= 8191 -> 0 <= b <= 8191 -> 0 <= Z.lor a b <= 8191.
Proof.
  intros Ha Hb.
  assert (N : 0 <= Z.lor a b) by (apply Z.lor_nonneg; lia).
  split; [exact N |].
  assert (Z.lor a b < 2 ^ 13); [| lia].
  apply bits_bounded; [lia | exact N |].
  intros i Hi. rewrite Z.lor_spec.
  rewrite (bits_above 13 a), (bits_above 13 b) by lia. reflexivity.
Qed.

Lemma land_range (a b : Z) :
  0 <= a <= 8191 -> 0 <= Z.land a b <= 8191.
Proof.
  intros Ha.
  assert (N : 0 <= Z.land a b) by (apply Z.land_nonneg; lia).
  split; [exact N |].
  assert (Z.land a b < 2 ^ 13); [| lia].
  apply bits_bounded; [lia | exact N |].
  intros i Hi. rewrite Z.land_spec.
  rewrite (bits_above 13 a) by lia. reflexivity.
Qed.

Lemma lxor_range (a b : Z) :
  0 <= a <= 8191 -> 0 <= b <= 8191 -> 0 <= Z.lxor a b <= 8191.
Proof.
  intros Ha Hb.
  assert (N : 0 <= Z.lxor a b) by (apply Z.lxor_nonneg; lia).
  split; [exact N |].
  assert (Z.lxor a b < 2 ^ 13); [| lia].
  apply bits_bounded; [lia | exact N |].
  intros i Hi. rewrite Z.lxor_spec.
  rewrite (bits_above 13 a), (bits_above 13 b) by lia. reflexivity.
Qed.

Lemma pow2_rank_range (r : Rank) :
  Rank_valid r -> 0 <= 2 ^ (Rank_value r - 2) <= 8191.
Proof.
  intros H. apply Rank_valid_range in H.
  assert (0 < 2 ^ (Rank_value r - 2)) by (apply Z.pow_pos_nonneg; lia).
  assert (2 ^ (Rank_value r - 2) <= 2 ^ 12)
    by (apply Z.pow_le_mono_r; lia).
  lia.
Qed.

(** ** [set], [reset] and the asserting operators *)

Lemma eqb_shift (a b : Z) : (a - 2 =? b - 2) = (b =? a).
Proof.
  destruct (Z.eqb_spec (a - 2) (b - 2)), (Z.eqb_spec b a); try reflexivity; lia.
Qed.

Lemma RankSet_set_spec (s : RankSet) (r : Rank) :
  RankSet_valid s -> Rank_valid r ->
  exists s',
    RankSet_set s r = Some s' /\ RankSet_valid s' /\
    forall r', Rank_valid r' ->
      RankSet_has s' r' = RankSet_has s r' || (Rank_value r' =? Rank_value r).
Proof.
  intros Hs Hr.
  pose proof (proj1 (RankSet_valid_range s) Hs) as Rs.
  pose proof (pow2_rank_range r Hr) as Rm.
  pose proof (lor_range _ _ Rs Rm) as Ro.
  exists (mkRankSet (Z.lor (RankSet_value s) (2 ^ (Rank_value r - 2)))).
  assert (Hv : RankSet_valid
                 (mkRankSet (Z.lor (RankSet_value s) (2 ^ (Rank_value r - 2)))))
    by (apply RankSet_valid_range; exact Ro).
  split; [| split; [exact Hv |]].
  - unfold RankSet_set. rewrite (proj2 Hs), (Rank_bitMask_spec r Hr).
    cbn [check bind ret]. rewrite u16_small by exact Ro. reflexivity.
  - intros r' Hr'.
    rewrite (RankSet_has_spec _ r' Hv Hr'), (RankSet_has_spec s r' Hs Hr').
    cbn [RankSet_value]. apply Rank_valid_range in Hr.
    rewrite Z.lor_spec, Z.pow2_bits_eqb by lia.
    rewrite eqb_shift. reflexivity.
Qed.

Lemma RankSet_reset_spec (s : RankSet) (r : Rank) :
  RankSet_valid s -> Rank_valid r ->
  exists s',
    RankSet_reset s r = Some s' /\ RankSet_valid s' /\
    forall r', Rank_valid r' ->
      RankSet_has s' r'
      = RankSet_has s r' && negb (Rank_value r' =? Rank_value r).
Proof.
  intros Hs Hr.
  pose proof (proj1 (RankSet_valid_range s) Hs) as Rs.
  pose proof (land_range _ (Z.lnot (2 ^ (Rank_value r - 2))) Rs) as Ro.
  exists (mkRankSet (Z.land (RankSet_value s) (Z.lnot (2 ^ (Rank_value r - 2))))).
  assert (Hv : RankSet_valid
                 (mkRankSet (Z.land (RankSet_value s)
                                    (Z.lnot (2 ^ (Rank_value r - 2))))))
    by (apply RankSet_valid_range; exact Ro).
  split; [| split; [exact Hv |]].
  - unfold RankSet_reset. rewrite (proj2 Hs), (Rank_bitMask_spec r Hr).
    cbn [check bind ret]. rewrite u16_small by exact Ro. reflexivity.
  - intros r' Hr'.
    rewrite (RankSet_has_spec _ r' Hv Hr'), (RankSet_has_spec s r' Hs Hr').
    cbn [RankSet_value]. apply Rank_valid_range in Hr, Hr'.
    rewrite Z.land_spec. rewrite Z.lnot_spec by lia.
    rewrite Z.pow2_bits_eqb by lia. rewrite eqb_shift. reflexivity.
Qed.

(** The assertion of [+=] passes exactly when the rank is absent, that
    of [-=] exactly when it is present. *)
Lemma RankSet_add_assign_spec (s : RankSet) (r : Rank) :
  RankSet_valid s -> Rank_valid r ->
  RankSet_add_assign s r
  = if RankSet_has s r then None else RankSet_set s r.
Proof.
  intros Hs Hr. unfold RankSet_add_assign, RankSet_set.
  rewrite (RankSet_has_spec s r Hs Hr), (proj2 Hs), (Rank_bitMask_spec r Hr).
  cbn [check bind ret]. rewrite Z.land_comm.
  apply Rank_valid_range in Hr.
  rewrite <- (land_pow2_eqb (RankSet_value s) (Rank_value r - 2)) by lia.
  destruct (Z.land (RankSet_value s) (2 ^ (Rank_value r - 2)) =? 0);
    reflexivity.
Qed.

Lemma RankSet_sub_assign_spec (s : RankSet) (r : Rank) :
  RankSet_valid s -> Rank_valid r ->
  RankSet_sub_assign s r
  = if RankSet_has s r then RankSet_reset s r else None.
Proof.
  intros Hs Hr. unfold RankSet_sub_assign, RankSet_reset.
  rewrite (RankSet_has_spec s r Hs Hr), (proj2 Hs), (Rank_bitMask_spec r Hr).
  cbn [check bind ret]. rewrite Z.land_comm.
  apply Rank_valid_range in Hr.
  rewrite <- (land_pow2_eqb (RankSet_value s) (Rank_value r - 2)) by lia.
  destruct (Z.land (RankSet_value s) (2 ^ (Rank_value r - 2)) =? 0);
    reflexivity.
Qed.

(** C8: on a valid set and a valid rank, [S += r] passes its assertion
    exactly when [r] is absent and then returns what [S.set(r)] returns,
    the set with [r] added; [S -= r] passes its assertion exactly when [r]
    is present and then returns what [S.reset(r)] returns, the set with
    [r] removed.  With the precondition the assertion cannot fail; without
    it the asserting operator aborts where the plain one returns. *)
Theorem C8_asserting_operators (s : RankSet) (r : Rank) :
  RankSet_valid s -> Rank_valid r ->
  (RankSet_has s r = false ->
     exists s', RankSet_add_assign s r = Some s' /\ RankSet_set s r = Some s' /\
       RankSet_valid s' /\
       forall r', Rank_valid r' ->
         RankSet_has s' r' = RankSet_has s r' || (Rank_value r' =? Rank_value r)) /\
  (RankSet_has s r = true ->
     exists s', RankSet_sub_assign s r = Some s' /\ RankSet_reset s r = Some s' /\
       RankSet_valid s' /\
       forall r', Rank_valid r' ->
         RankSet_has s' r'
         = RankSet_has s r' && negb (Rank_value r' =? Rank_value r)) /\
  (RankSet_has s r = true ->
     RankSet_add_assign s r = None /\ RankSet_set s r <> None) /\
  (RankSet_has s r = false ->
     RankSet_sub_assign s r = None /\ RankSet_reset s r <> None).
Proof.
  intros Hs Hr.
  destruct (RankSet_set_spec s r Hs Hr) as [a [Ea [Va Ma]]].
  destruct (RankSet_reset_spec s r Hs Hr) as [b [Eb [Vb Mb]]].
  pose proof (RankSet_add_assign_spec s r Hs Hr) as Hadd.
  pose proof (RankSet_sub_assign_spec s r Hs Hr) as Hsub.
  repeat split.
  - intros H. rewrite H in Hadd. exists a. rewrite Hadd. auto.
  - intros H. rewrite H in Hsub. exists b. rewrite Hsub. auto.
  - rewrite H in Hadd. exact Hadd.
  - rewrite Ea. discriminate.
  - rewrite H in Hsub. exact Hsub.
  - rewrite Eb. discriminate.
Qed.

Lemma C8_asserting_operators_witness :
  RankSet_valid (mkRankSet 5) /\ Rank_valid (mkRank 3) /\
  RankSet_add_assign (mkRankSet 5) (mkRank 3) = Some (mkRankSet 7) /\
  RankSet_sub_assign (mkRankSet 5) (mkRank 3) = None.
Proof.
  assert (Hs : RankSet_valid (mkRankSet 5)) by (split; [simpl; lia | reflexivity]).
  assert (Hr : Rank_valid (mkRank 3)) by (split; [simpl; lia | reflexivity]).
  split; [exact Hs | split; [exact Hr |]].
  destruct (C8_asserting_operators (mkRankSet 5) (mkRank 3) Hs Hr)
    as [Hadd [_ [_ Hsub]]].
  split.
  - destruct (Hadd eq_refl) as [s' [E1 [E2 _]]].
    rewrite E1, <- E2. reflexivity.
  - exact (proj1 (Hsub eq_refl)).
Defined.

(** ** The representation invariant *)

Lemma lnot_land_range (a : Z) : 0 <= Z.land (Z.lnot a) 8191 <= 8191.
Proof. rewrite Z.land_comm. apply land_range. lia. Qed.

Lemma returns_valid_intro (res : Checked RankSet) (v : Z) :
  res = Some (mkRankSet (u16 v)) -> 0 <= v <= 8191 -> returns_valid res.
Proof.
  intros E R. exists (mkRankSet v). split.
  - rewrite E, u16_small by exact R. reflexivity.
  - apply RankSet_valid_range. exact R.
Qed.

Lemma valid_if_returns_of (res : Checked RankSet) :
  returns_valid res -> valid_if_returns res.
Proof.
  intros [s' [E V]] s'' E'. rewrite E in E'. inversion E'. subst. exact V.
Qed.

Lemma valid_if_returns_None : valid_if_returns None.
Proof. intros s' E. discriminate E. Qed.

Section Invariant.

Variables (s other : RankSet) (r : Rank).
Hypothesis Hs : RankSet_valid s.
Hypothesis Ho : RankSet_valid other.
Hypothesis Hr : Rank_valid r.

Let Rs : 0 <= RankSet_value s <= 8191 := proj1 (RankSet_valid_range s) Hs.
Let Ro : 0 <= RankSet_value other <= 8191 :=
  proj1 (RankSet_valid_range other) Ho.
Let Rm : 0 <= 2 ^ (Rank_value r - 2) <= 8191 := pow2_rank_range r Hr.

Ltac enter op :=
  unfold op;
  rewrite ?(proj2 Hs), ?(RankSet_toNumber_spec other Ho),
    ?(Rank_bitMask_spec r Hr);
  cbn [check bind ret].

Lemma set_valid : returns_valid (RankSet_set s r).
Proof.
  destruct (RankSet_set_spec s r Hs Hr) as [s' [E [V _]]].
  exists s'. auto.
Qed.

Lemma reset_valid : returns_valid (RankSet_reset s r).
Proof.
  destruct (RankSet_reset_spec s r Hs Hr) as [s' [E [V _]]].
  exists s'. auto.
Qed.

Lemma set_all_valid : returns_valid (RankSet_set_all s).
Proof.
  exists (mkRankSet RankSet_max). split.
  - enter RankSet_set_all. reflexivity.
  - split; [simpl; unfold RankSet_max; simpl; lia | reflexivity].
Qed.

Lemma reset_all_valid : returns_valid (RankSet_reset_all s).
Proof.
  exists (mkRankSet 0). split.
  - enter RankSet_reset_all. reflexivity.
  - split; [simpl; lia | reflexivity].
Qed.

Lemma flip_valid : returns_valid (RankSet_flip s r).
Proof.
  eapply returns_valid_intro.
  - enter RankSet_flip. reflexivity.
  - apply lxor_range; assumption.
Qed.

Lemma flip_all_valid : returns_valid (RankSet_flip_all s).
Proof.
  eapply returns_valid_intro.
  - enter RankSet_flip_all. reflexivity.
  - apply lnot_land_range.
Qed.

Lemma complement_valid : returns_valid (RankSet_complement s).
Proof.
  pose proof (lnot_land_range (RankSet_value s)) as R.
  exists (mkRankSet (Z.land (Z.lnot (RankSet_value s)) 8191)). split.
  - enter RankSet_complement. change RankSet_max with 8191.
    rewrite u16_small by exact R.
    unfold RankSet_ctor, RankSet_checkValid. cbn [RankSet_value].
    change RankSet_max with 8191.
    destruct (Z.leb_spec (Z.land (Z.lnot (RankSet_value s)) 8191) 8191);
      [reflexivity | lia].
  - apply RankSet_valid_range. exact R.
Qed.

Lemma or_assign_valid : returns_valid (RankSet_or_assign s other).
Proof.
  eapply returns_valid_intro.
  - enter RankSet_or_assign. reflexivity.
  - apply lor_range; assumption.
Qed.

Lemma and_assign_valid : returns_valid (RankSet_and_assign s other).
Proof.
  eapply returns_valid_intro.
  - enter RankSet_and_assign. reflexivity.
  - apply land_range; assumption.
Qed.

Lemma xor_assign_valid : returns_valid (RankSet_xor_assign s other).
Proof.
  eapply returns_valid_intro.
  - enter RankSet_xor_assign. reflexivity.
  - apply lxor_range; assumption.
Qed.

Lemma add_assign_valid : valid_if_returns (RankSet_add_assign s r).
Proof.
  rewrite (RankSet_add_assign_spec s r Hs Hr).
  destruct (RankSet_has s r).
  - apply valid_if_returns_None.
  - apply valid_if_returns_of, set_valid.
Qed.

Lemma sub_assign_valid : valid_if_returns (RankSet_sub_assign s r).
Proof.
  rewrite (RankSet_sub_assign_spec s r Hs Hr).
  destruct (RankSet_has s r).
  - apply valid_if_returns_of, reset_valid.
  - apply valid_if_returns_None.
Qed.

Lemma add_assign_set_valid :
  valid_if_returns (RankSet_add_assign_set s other).
Proof.
  enter RankSet_add_assign_set.
  destruct (Z.land (RankSet_value other) (RankSet_value s) =? 0);
    cbn [check bind ret].
  - apply valid_if_returns_of. eapply returns_valid_intro; [reflexivity |].
    apply lor_range; assumption.
  - apply valid_if_returns_None.
Qed.

Lemma sub_assign_set_valid :
  valid_if_returns (RankSet_sub_assign_set s other).
Proof.
  enter RankSet_sub_assign_set.
  destruct (Z.land (RankSet_value other) (RankSet_value s)
            =? RankSet_value other); cbn [check bind ret].
  - apply valid_if_returns_of. eapply returns_valid_intro; [reflexivity |].
    apply land_range; assumption.
  - apply valid_if_returns_None.
Qed.

Lemma add_assign_returns :
  RankSet_has s r = false -> returns_valid (RankSet_add_assign s r).
Proof.
  intros H. rewrite (RankSet_add_assign_spec s r Hs Hr), H. apply set_valid.
Qed.

Lemma sub_assign_returns :
  RankSet_has s r = true -> returns_valid (RankSet_sub_assign s r).
Proof.
  intros H. rewrite (RankSet_sub_assign_spec s r Hs Hr), H. apply reset_valid.
Qed.

Lemma add_assign_set_returns :
  Z.land (RankSet_value other) (RankSet_value s) = 0 ->
  returns_valid (RankSet_add_assign_set s other).
Proof.
  intros H. enter RankSet_add_assign_set. rewrite H. cbn [Z.eqb check bind].
  eapply returns_valid_intro; [reflexivity |]. apply lor_range; assumption.
Qed.

Lemma sub_assign_set_returns :
  Z.land (RankSet_value other) (RankSet_value s) = RankSet_value other ->
  returns_valid (RankSet_sub_assign_set s other).
Proof.
  intros H. enter RankSet_sub_assign_set. rewrite H, Z.eqb_refl.
  cbn [check bind].
  eapply returns_valid_intro; [reflexivity |]. apply land_range; assumption.
Qed.

End Invariant.

(** C9: on valid sets and a valid rank, [set], [reset], [flip] (with a
    rank and without), [~], [|=], [&=] and [^=] return a set whose value
    is between 0 and 8191; [+=] and [-=] (with a rank or with a set) return
    such a set when their asserted precondition holds, and never return
    anything else. *)
Theorem C9_operations_preserve_invariant (s other : RankSet) (r : Rank) :
  RankSet_valid s -> RankSet_valid other -> Rank_valid r ->
  returns_valid (RankSet_set s r) /\
  returns_valid (RankSet_set_all s) /\
  returns_valid (RankSet_reset s r) /\
  returns_valid (RankSet_reset_all s) /\
  returns_valid (RankSet_flip s r) /\
  returns_valid (RankSet_flip_all s) /\
  returns_valid (RankSet_complement s) /\
  returns_valid (RankSet_or_assign s other) /\
  returns_valid (RankSet_and_assign s other) /\
  returns_valid (RankSet_xor_assign s other) /\
  (RankSet_has s r = false -> returns_valid (RankSet_add_assign s r)) /\
  (RankSet_has s r = true -> returns_valid (RankSet_sub_assign s r)) /\
  (Z.land (RankSet_value other) (RankSet_value s) = 0 ->
   returns_valid (RankSet_add_assign_set s other)) /\
  (Z.land (RankSet_value other) (RankSet_value s) = RankSet_value other ->
   returns_valid (RankSet_sub_assign_set s other)) /\
  valid_if_returns (RankSet_add_assign s r) /\
  valid_if_returns (RankSet_sub_assign s r) /\
  valid_if_returns (RankSet_add_assign_set s other) /\
  valid_if_returns (RankSet_sub_assign_set s other).
Proof.
  intros Hs Ho Hr.
  split; [apply set_valid; assumption |].
  split; [apply set_all_valid; assumption |].
  split; [apply reset_valid; assumption |].
  split; [apply reset_all_valid; assumption |].
  split; [apply flip_valid; assumption |].
  split; [apply flip_all_valid; assumption |].
  split; [apply complement_valid; assumption |].
  split; [apply or_assign_valid; assumption |].
  split; [apply and_assign_valid; assumption |].
  split; [apply xor_assign_valid; assumption |].
  split; [apply add_assign_returns; assumption |].
  split; [apply sub_assign_returns; assumption |].
  split; [apply add_assign_set_returns; assumption |].
  split; [apply sub_assign_set_returns; assumption |].
  split; [apply add_assign_valid; assumption |].
  split; [apply sub_assign_valid; assumption |].
  split; [apply add_assign_set_valid; assumption |].
  apply sub_assign_set_valid; assumption.
Qed.

Lemma C9_operations_preserve_invariant_witness :
  RankSet_valid (mkRankSet 8191) /\ RankSet_valid (mkRankSet 4097) /\
  Rank_valid (mkRank 14) /\
  returns_valid (RankSet_complement (mkRankSet 8191)) /\
  returns_valid (RankSet_xor_assign (mkRankSet 8191) (mkRankSet 4097)).
Proof.
  assert (Hs : RankSet_valid (mkRankSet 8191))
    by (split; [simpl; lia | reflexivity]).
  assert (Ho : RankSet_valid (mkRankSet 4097))
    by (split; [simpl; lia | reflexivity]).
  assert (Hr : Rank_valid (mkRank 14)) by (split; [simpl; lia | reflexivity]).
  pose proof (C9_operations_preserve_invariant
                (mkRankSet 8191) (mkRankSet 4097) (mkRank 14) Hs Ho Hr) as H.
  destruct H as (_ & _ & _ & _ & _ & _ & Hc & _ & _ & Hx & _).
  split; [exact Hs | split; [exact Ho | split; [exact Hr |]]].
  split; [exact Hc | exact Hx].
Defined.

(** ** Reading the lookup tables *)

(** Filling a table succeeds when every entry does, and the cell of a
    valid set [s] then holds what the loop body computes for [rs = s]. *)
Lemma table_lookup {B : Type} (entry : RankSet -> Checked B) (d : B)
    (s : RankSet) :
  (forall rs, RankSet_valid rs -> exists b, entry rs = Some b) ->
  RankSet_valid s ->
  exists data,
    mapM entry RankSet_loop = Some data /\
    entry s = Some (nth (Z.to_nat (RankSet_value s)) data d).
Proof.
  intros Htot Hs.
  destruct (mapM_total entry RankSet_loop) as [data Hd].
  { intros rs Hin. apply Htot, RankSet_valid_range, RankSet_loop_In, Hin. }
  exists data. split; [exact Hd |].
  apply RankSet_valid_range in Hs.
  pose proof (mapM_nth entry RankSet_loop data s d Hd
                (Z.to_nat (RankSet_value s))) as H.
  rewrite RankSet_loop_nth in H by lia.
  destruct s as [v]. cbn [RankSet_value] in *.
  apply H. rewrite RankSet_loop_length. lia.
Qed.

(** ** [count] *)

Lemma count_loop (rs : RankSet) (l : list Rank) :
  RankSet_valid rs -> (forall r, In r l -> Rank_valid r) ->
  forall acc, 0 <= acc -> acc + Z.of_nat (length l) < 256 ->
  for_each l (count_body rs) acc
  = Some (acc + Z.of_nat (length (filter (RankSet_has rs) l))).
Proof.
  intros Hrs. induction l as [| a l IH]; intros Hl acc Hacc Hlen.
  - simpl. unfold ret. f_equal. lia.
  - cbn [for_each filter]. unfold count_body at 1.
    rewrite (RankSet_test_has rs a Hrs (Hl a (or_introl eq_refl))).
    cbn [bind ret]. cbn [length] in Hlen.
    destruct (RankSet_has rs a).
    + assert (Hu : u8 (acc + 1) = acc + 1)
        by (unfold u8; apply Z.mod_small; lia).
      rewrite Hu, IH; [| intros r Hr; apply Hl; right; exact Hr | lia | lia].
      cbn [length]. f_equal. lia.
    + apply IH; [intros r Hr; apply Hl; right; exact Hr | lia | lia].
Qed.

Lemma count_entry_spec (rs : RankSet) :
  RankSet_valid rs ->
  count_entry rs = Some (Z.of_nat (length (RankSet_members rs))).
Proof.
  intros Hrs. unfold count_entry. rewrite Rank_loop_all_ranks.
  rewrite (count_loop rs all_ranks Hrs all_ranks_valid 0);
    [| lia | simpl; lia].
  cbn [bind]. rewrite (RankSet_toNumber_spec rs Hrs). reflexivity.
Qed.

Lemma RankSet_count_spec (s : RankSet) :
  RankSet_valid s ->
  RankSet_count s = Some (Z.of_nat (length (RankSet_members s))).
Proof.
  intros Hs. unfold RankSet_count, count_data.
  destruct (table_lookup count_entry 0 s) as [data [Hd He]].
  - intros rs Hrs. eexists. apply count_entry_spec, Hrs.
  - exact Hs.
  - rewrite (proj2 Hs), Hd. cbn [check bind ret].
    rewrite (count_entry_spec s Hs) in He. unfold ret. congruence.
Qed.

(** Switching one element of a duplicate-free list on adds one to the
    number of elements a predicate selects. *)
Lemma filter_length_switch {A : Type} (f f' : A -> bool) (x : A) (l : list A) :
  NoDup l -> In x l -> f x = false -> f' x = true ->
  (forall y, In y l -> y <> x -> f' y = f y) ->
  length (filter f' l) = S (length (filter f l)).
Proof.
  induction l as [| a l IH]; intros Hnd Hin Hfx Hf'x Hoth.
  - contradiction.
  - inversion Hnd as [| a' l' Hna Hnd']; subst.
    destruct Hin as [E | Hin].
    + subst a. cbn [filter]. rewrite Hfx, Hf'x. cbn [length]. f_equal.
      f_equal. apply filter_ext_in. intros y Hy. apply Hoth.
      * right. exact Hy.
      * intros E. subst y. contradiction.
    + assert (Hax : a <> x) by (intros E; subst a; contradiction).
      cbn [filter]. rewrite (Hoth a (or_introl eq_refl) Hax).
      assert (IH' : length (filter f' l) = S (length (filter f l))).
      { apply IH; try assumption. intros y Hy. apply Hoth. right. exact Hy. }
      destruct (f a); cbn [length]; rewrite IH'; reflexivity.
Qed.

Lemma Rank_value_eqb_neq (r r' : Rank) :
  r' <> r -> (Rank_value r' =? Rank_value r) = false.
Proof.
  intros H. destruct (Z.eqb_spec (Rank_value r') (Rank_value r)) as [E | E].
  - exfalso. apply H, Rank_eq_value, E.
  - reflexivity.
Qed.

(** C7: for a valid set [S] and a valid rank [r], when [r] is not in [S]
    then [S.set(r).count()] is [S.count() + 1] and [S.set(r).test(r)]
    holds; when [r] is in [S] then [S.reset(r).count()] is
    [S.count() - 1]. *)
Theorem C7_set_reset_count (s : RankSet) (r : Rank) :
  RankSet_valid s -> Rank_valid r ->
  (RankSet_test s r = Some false ->
     exists s' c,
       RankSet_set s r = Some s' /\ RankSet_count s = Some c /\
       RankSet_count s' = Some (c + 1) /\ RankSet_test s' r = Some true) /\
  (RankSet_test s r = Some true ->
     exists s' c,
       RankSet_reset s r = Some s' /\ RankSet_count s = Some c /\
       RankSet_count s' = Some (c - 1)).
Proof.
  intros Hs Hr. rewrite (RankSet_test_has s r Hs Hr). split; intros Ht.
  - assert (Hn : RankSet_has s r = false) by congruence.
    destruct (RankSet_set_spec s r Hs Hr) as [s' [E [V M]]].
    exists s', (Z.of_nat (length (RankSet_members s))).
    assert (Hr' : RankSet_has s' r = true)
      by (rewrite (M r Hr), Z.eqb_refl; apply orb_true_r).
    split; [exact E | split; [apply RankSet_count_spec, Hs | split]].
    + rewrite (RankSet_count_spec s' V). f_equal. unfold RankSet_members.
      rewrite (filter_length_switch (RankSet_has s) (RankSet_has s') r).
      * lia.
      * apply all_ranks_NoDup.
      * apply Rank_valid_cases, Hr.
      * exact Hn.
      * exact Hr'.
      * intros y Hy Hne. rewrite (M y (all_ranks_valid y Hy)).
        rewrite (Rank_value_eqb_neq r y Hne). apply orb_false_r.
    + rewrite (RankSet_test_has s' r V Hr), Hr'. reflexivity.
  - assert (Hy : RankSet_has s r = true) by congruence.
    destruct (RankSet_reset_spec s r Hs Hr) as [s' [E [V M]]].
    exists s', (Z.of_nat (length (RankSet_members s))).
    assert (Hr' : RankSet_has s' r = false)
      by (rewrite (M r Hr), Z.eqb_refl; apply andb_false_r).
    split; [exact E | split; [apply RankSet_count_spec, Hs |]].
    rewrite (RankSet_count_spec s' V). f_equal. unfold RankSet_members.
    rewrite (filter_length_switch (RankSet_has s') (RankSet_has s) r).
    + lia.
    + apply all_ranks_NoDup.
    + apply Rank_valid_cases, Hr.
    + exact Hr'.
    + exact Hy.
    + intros y Hin Hne. rewrite (M y (all_ranks_valid y Hin)).
      rewrite (Rank_value_eqb_neq r y Hne). symmetry. apply andb_true_r.
Qed.

Lemma C7_set_reset_count_witness :
  RankSet_valid (mkRankSet 5) /\ Rank_valid (mkRank 3) /\
  exists s' c,
    RankSet_set (mkRankSet 5) (mkRank 3) = Some s' /\
    RankSet_count (mkRankSet 5) = Some c /\
    RankSet_count s' = Some (c + 1) /\
    RankSet_test s' (mkRank 3) = Some true.
Proof.
  assert (Hs : RankSet_valid (mkRankSet 5))
    by (split; [simpl; lia | reflexivity]).
  assert (Hr : Rank_valid (mkRank 3)) by (split; [simpl; lia | reflexivity]).
  split; [exact Hs | split; [exact Hr |]].
  apply (C7_set_reset_count (mkRankSet 5) (mkRank 3) Hs Hr). reflexivity.
Defined.

(** ** [toSingleRank] *)

(** A valid set with the single member [r] is the bit of [r]. *)
Lemma singleton_value (s : RankSet) (r : Rank) :
  RankSet_valid s -> RankSet_members s = [r] ->
  RankSet_value s = 2 ^ (Rank_value r - 2).
Proof.
  intros Hs Hm.
  assert (Hin : In r (RankSet_members s)) by (rewrite Hm; left; reflexivity).
  apply RankSet_members_In in Hin. destruct Hin as [Hr Hhas].
  assert (Hv : RankSet_valid (mkRankSet (2 ^ (Rank_value r - 2))))
    by (apply RankSet_valid_range, pow2_rank_range, Hr).
  rewrite (RankSet_ext s _ Hs Hv); [reflexivity |].
  intros r' Hr'. rewrite (RankSet_has_spec _ r' Hv Hr'). cbn [RankSet_value].
  pose proof (proj1 (Rank_valid_range r) Hr) as Rr.
  rewrite Z.pow2_bits_eqb by lia. rewrite eqb_shift.
  destruct (Z.eqb_spec (Rank_value r') (Rank_value r)) as [E | E].
  - apply Rank_eq_value in E. subst r'. exact Hhas.
  - destruct (RankSet_has s r') eqn:Hh; [| reflexivity].
    exfalso. apply E.
    assert (Hin' : In r' (RankSet_members s))
      by (apply RankSet_members_In; split; assumption).
    rewrite Hm in Hin'. destruct Hin' as [E' | []]. subst r'. reflexivity.
Qed.

Ltac single_rank k :=
  exists (mkRank k), 1;
  split; [reflexivity |];
  split; [reflexivity |];
  split; [intros _; split; reflexivity |];
  split; [intros N; exfalso; apply N; reflexivity |];
  split; intros _; reflexivity.

(** C10: for a valid set, [toSingleRank()] returns a present Rank exactly
    when [count()] is 1, and that Rank is then the one member of the set;
    for the empty set and for a set of two or more ranks it returns the
    absent value. *)
Theorem C10_toSingleRank (s : RankSet) :
  RankSet_valid s ->
  exists o c,
    RankSet_toSingleRank s = Some o /\ RankSet_count s = Some c /\
    (c = 1 -> RankSet_members s = [o] /\ Rank_hasValue o = true) /\
    (c <> 1 -> o = Rank_nullopt) /\
    (Rank_hasValue o = true <-> c = 1).
Proof.
  intros Hs. rewrite (RankSet_count_spec s Hs).
  unfold RankSet_toSingleRank. rewrite (proj2 Hs). cbn [check bind].
  destruct s as [v]. cbn [RankSet_value].
  destruct (Z.eqb_spec v 0x1000) as [E | N14]; [subst v; single_rank 14 |].
  destruct (Z.eqb_spec v 0x0800) as [E | N13]; [subst v; single_rank 13 |].
  destruct (Z.eqb_spec v 0x0400) as [E | N12]; [subst v; single_rank 12 |].
  destruct (Z.eqb_spec v 0x0200) as [E | N11]; [subst v; single_rank 11 |].
  destruct (Z.eqb_spec v 0x0100) as [E | N10]; [subst v; single_rank 10 |].
  destruct (Z.eqb_spec v 0x0080) as [E | N9]; [subst v; single_rank 9 |].
  destruct (Z.eqb_spec v 0x0040) as [E | N8]; [subst v; single_rank 8 |].
  destruct (Z.eqb_spec v 0x0020) as [E | N7]; [subst v; single_rank 7 |].
  destruct (Z.eqb_spec v 0x0010) as [E | N6]; [subst v; single_rank 6 |].
  destruct (Z.eqb_spec v 0x0008) as [E | N5]; [subst v; single_rank 5 |].
  destruct (Z.eqb_spec v 0x0004) as [E | N4]; [subst v; single_rank 4 |].
  destruct (Z.eqb_spec v 0x0002) as [E | N3]; [subst v; single_rank 3 |].
  destruct (Z.eqb_spec v 0x0001) as [E | N2]; [subst v; single_rank 2 |].
  assert (Hc : Z.of_nat (length (RankSet_members (mkRankSet v))) <> 1).
  { intros Hc.
    destruct (RankSet_members (mkRankSet v)) as [| r [| r' l]] eqn:Hm;
      cbn [length] in Hc; try lia.
    pose proof (singleton_value _ r Hs Hm) as Hv. cbn [RankSet_value] in Hv.
    assert (Hin : In r (RankSet_members (mkRankSet v)))
      by (rewrite Hm; left; reflexivity).
    apply RankSet_members_In in Hin. destruct Hin as [Hr _].
    apply Rank_valid_cases in Hr. unfold all_ranks in Hr. cbn [map In] in Hr.
    repeat (destruct Hr as [Hr | Hr];
            [subst r; vm_compute in Hv; congruence |]).
    contradiction. }
  exists Rank_nullopt, (Z.of_nat (length (RankSet_members (mkRankSet v)))).
  split; [destruct (v =? 0x0000); reflexivity |].
  split; [reflexivity |].
  split; [intros H; contradiction |].
  split; [reflexivity |].
  split; [intros H; discriminate H | intros H; contradiction].
Qed.

Lemma C10_toSingleRank_witness :
  RankSet_valid (mkRankSet 0x0200) /\
  exists o c,
    RankSet_toSingleRank (mkRankSet 0x0200) = Some o /\
    RankSet_count (mkRankSet 0x0200) = Some c /\
    (c = 1 -> RankSet_members (mkRankSet 0x0200) = [o] /\
              Rank_hasValue o = true) /\
    (c <> 1 -> o = Rank_nullopt) /\
    (Rank_hasValue o = true <-> c = 1).
Proof.
  assert (Hs : RankSet_valid (mkRankSet 0x0200))
    by (split; [simpl; lia | reflexivity]).
  split; [exact Hs |].
  exact (C10_toSingleRank (mkRankSet 0x0200) Hs).
Defined.

(** ** Ranks in falling order *)

Lemma all_ranks_falling : falling all_ranks.
Proof.
  unfold falling, all_ranks. cbn [map].
  repeat (constructor; [| repeat (constructor; [simpl; lia |]); constructor]).
  constructor.
Qed.

Lemma falling_filter (f : Rank -> bool) (l : list Rank) :
  falling l -> falling (filter f l).
Proof.
  unfold falling. induction l as [| a l IH]; intros H.
  - constructor.
  - apply StronglySorted_inv in H. destruct H as [Hl Ha]. cbn [filter].
    destruct (f a).
    + constructor; [apply IH, Hl |].
      rewrite Forall_forall in *. intros x Hx. apply Ha.
      apply filter_In in Hx. tauto.
    + apply IH, Hl.
Qed.

Lemma RankSet_members_falling (s : RankSet) : falling (RankSet_members s).
Proof. apply falling_filter, all_ranks_falling. Qed.

Lemma filter_none {A : Type} (f : A -> bool) (l : list A) :
  (forall x, In x l -> f x = false) -> filter f l = [].
Proof.
  induction l as [| a l IH]; intros H; cbn [filter].
  - reflexivity.
  - rewrite (H a (or_introl eq_refl)). apply IH.
    intros x Hx. apply H. right. exact Hx.
Qed.

(** Nothing in a falling list outranks its head. *)
Lemma falling_head_top (a : Rank) (l : list Rank) :
  falling (a :: l) ->
  filter (fun r' => Rank_value a <? Rank_value r') (a :: l) = [].
Proof.
  intros H. apply StronglySorted_inv in H. destruct H as [_ Ha].
  rewrite Forall_forall in Ha. apply filter_none.
  intros x [E | Hx]; apply Z.ltb_ge.
  - subst x. lia.
  - specialize (Ha x Hx). lia.
Qed.

(** In a falling list the number of elements that outrank an element
    is its position. *)
Lemma falling_positions (l : list Rank) :
  falling l ->
  forall k : nat,
    map (fun r => (k + length (filter (fun r' => (Rank_value r <? Rank_value r')%Z) l))%nat) l
    = seq k (length l).
Proof.
  induction l as [| a l IH]; intros H k.
  - reflexivity.
  - pose proof (falling_head_top a l H) as Htop.
    apply StronglySorted_inv in H. destruct H as [Hl Ha].
    rewrite Forall_forall in Ha.
    cbn [map length seq]. f_equal.
    + rewrite Htop. simpl. lia.
    + rewrite <- (IH Hl (S k)). apply map_ext_in. intros r Hr.
      cbn [filter]. specialize (Ha r Hr).
      destruct (Z.ltb_spec (Rank_value r) (Rank_value a)); [| lia].
      cbn [length]. lia.
Qed.

Lemma filter_length_lt {A : Type} (f g : A -> bool) (y : A) (l : list A) :
  (forall x, f x = true -> g x = true) ->
  In y l -> f y = false -> g y = true ->
  (length (filter f l) < length (filter g l))%nat.
Proof.
  intros Hfg. induction l as [| a l IH]; intros Hin Hf Hg.
  - contradiction.
  - assert (Hle : (length (filter f l) <= length (filter g l))%nat).
    { clear IH Hin. induction l as [| b l IHl]; cbn [filter]; [lia |].
      destruct (f b) eqn:Fb.
      - rewrite (Hfg b Fb). cbn [length]. lia.
      - destruct (g b); cbn [length]; lia. }
    cbn [filter]. destruct Hin as [E | Hin].
    + subst a. rewrite Hf, Hg. cbn [length]. lia.
    + specialize (IH Hin Hf Hg). destruct (f a) eqn:Fa.
      * rewrite (Hfg a Fa). cbn [length]. lia.
      * destruct (g a); cbn [length]; lia.
Qed.

Lemma filter_length_le {A : Type} (f : A -> bool) (l : list A) :
  (length (filter f l) <= length l)%nat.
Proof.
  induction l as [| a l IH]; cbn [filter length]; [lia |].
  destruct (f a); cbn [length]; lia.
Qed.

Lemma outranking_bound (s : RankSet) (r : Rank) :
  0 <= Z.of_nat (length (outranking s r)) <= 13.
Proof.
  unfold outranking, RankSet_members.
  pose proof (filter_length_le (fun r' => Rank_value r <? Rank_value r')
                (filter (RankSet_has s) all_ranks)).
  pose proof (filter_length_le (RankSet_has s) all_ranks).
  change (length all_ranks) with 13%nat in *. lia.
Qed.

(** ** [highestRank] *)

Lemma highestRank_loop (rs : RankSet) (l : list Rank) :
  RankSet_valid rs -> (forall r, In r l -> Rank_valid r) ->
  forall acc,
  for_each l (highestRank_body rs) acc
  = Some (hd acc (filter (RankSet_has rs) l)).
Proof.
  intros Hrs. induction l as [| a l IH]; intros Hl acc.
  - reflexivity.
  - cbn [for_each filter]. unfold highestRank_body at 1.
    rewrite (RankSet_test_has rs a Hrs (Hl a (or_introl eq_refl))).
    cbn [bind ret]. destruct (RankSet_has rs a).
    + rewrite (RankSet_toNumber_spec rs Hrs). reflexivity.
    + apply IH. intros r Hr. apply Hl. right. exact Hr.
Qed.

Lemma highestRank_entry_spec (rs : RankSet) :
  RankSet_valid rs ->
  highestRank_entry rs = Some (hd Rank_nullopt (RankSet_members rs)).
Proof.
  intros Hrs. unfold highestRank_entry. rewrite Rank_loop_all_ranks.
  apply (highestRank_loop rs all_ranks Hrs all_ranks_valid).
Qed.

Lemma RankSet_highestRank_spec (s : RankSet) :
  RankSet_valid s ->
  RankSet_highestRank s = Some (hd Rank_nullopt (RankSet_members s)).
Proof.
  intros Hs. unfold RankSet_highestRank, highestRank_data.
  destruct (table_lookup highestRank_entry Rank_nullopt s) as [data [Hd He]].
  - intros rs Hrs. eexists. apply highestRank_entry_spec, Hrs.
  - exact Hs.
  - rewrite (proj2 Hs), Hd. cbn [check bind].
    rewrite (highestRank_entry_spec s Hs) in He. unfold ret. congruence.
Qed.

(** A valid set without members has the value 0. *)
Lemma RankSet_members_nil (s : RankSet) :
  RankSet_valid s -> RankSet_members s = [] -> RankSet_value s = 0.
Proof.
  intros Hs Hm.
  assert (He : RankSet_valid RankSet_empty)
    by (split; [simpl; lia | reflexivity]).
  rewrite (RankSet_ext s RankSet_empty Hs He); [reflexivity |].
  intros r Hr. rewrite (RankSet_has_spec _ r He Hr). cbn [RankSet_value RankSet_empty].
  rewrite Z.bits_0.
  destruct (RankSet_has s r) eqn:Hh; [| reflexivity].
  assert (Hin : In r (RankSet_members s))
    by (apply RankSet_members_In; split; assumption).
  rewrite Hm in Hin. contradiction.
Qed.

(** ** [priorityIfInHand] and [priority] *)

Lemma Row_store_same (row : Row) (i x : Z) : Row_store row i x i = x.
Proof. unfold Row_store. rewrite Z.eqb_refl. reflexivity. Qed.

Lemma Row_store_other (row : Row) (i x j : Z) :
  i <> j -> Row_store row i x j = row j.
Proof.
  intros H. unfold Row_store.
  destruct (Z.eqb_spec j i); [congruence | reflexivity].
Qed.

(** The inner loop over a falling list of ranks, started with [ord]
    ranks already counted: the cell of a member receives [ord] plus its
    position among the members met, the cell of a non-member 0, and no
    other cell changes. *)
Lemma priority_loop (rs : RankSet) (l : list Rank) :
  RankSet_valid rs -> (forall r, In r l -> Rank_valid r) -> falling l ->
  forall (ord : Z) (row : Row),
  0 <= ord -> ord + Z.of_nat (length l) < 256 ->
  exists row',
    for_each l (priority_body rs) (ord, row)
    = Some (ord + Z.of_nat (length (filter (RankSet_has rs) l)), row') /\
    (forall r, In r l ->
       row' (Rank_value r - 2)
       = if RankSet_has rs r
         then ord + 1 + Z.of_nat (length
                (filter (fun r' => Rank_value r <? Rank_value r')
                        (filter (RankSet_has rs) l)))
         else 0) /\
    (forall j, (forall r, In r l -> Rank_value r - 2 <> j) -> row' j = row j).
Proof.
  intros Hrs. induction l as [| a l IH]; intros Hl Hf ord row Hord Hlen.
  - exists row. split; [| split].
    + cbn [for_each filter length]. unfold ret. do 2 f_equal. lia.
    + intros r [].
    + reflexivity.
  - assert (Ha : Rank_valid a) by (apply Hl; left; reflexivity).
    assert (Hl' : forall r, In r l -> Rank_valid r)
      by (intros r Hr; apply Hl; right; exact Hr).
    pose proof Hf as Hf0.
    apply StronglySorted_inv in Hf. destruct Hf as [Hfl Hfa].
    rewrite Forall_forall in Hfa.
    cbn [length] in Hlen.
    cbn [for_each]. unfold priority_body at 1.
    rewrite (RankSet_test_has rs a Hrs Ha).
    rewrite (RankSet_toNumber_spec rs Hrs), (Rank_toNumber_spec a Ha).
    cbn [bind]. change Rank_min with 2.
    assert (Hfresh : forall r, In r l -> Rank_value r - 2 <> Rank_value a - 2)
      by (intros r Hr; specialize (Hfa r Hr); lia).
    destruct (RankSet_has rs a) eqn:Hha; cbn [ret bind filter]; rewrite Hha.
    + assert (Hu : u8 (ord + 1) = ord + 1)
        by (unfold u8; apply Z.mod_small; lia).
      rewrite Hu.
      destruct (IH Hl' Hfl (ord + 1)
                  (Row_store row (Rank_value a - 2) (ord + 1)))
        as [row' [Hrun [Hcell Hframe]]]; [lia | lia |].
      exists row'. split; [| split].
      * rewrite Hrun. cbn [length]. do 2 f_equal. lia.
      * intros r [E | Hr].
        -- subst r. rewrite Hha.
           rewrite (Hframe _ Hfresh), Row_store_same.
           pose proof (falling_head_top a (filter (RankSet_has rs) l)) as Htop.
           rewrite Htop.
           ++ simpl. lia.
           ++ pose proof (falling_filter (RankSet_has rs) (a :: l) Hf0) as Hff.
              cbn [filter] in Hff. rewrite Hha in Hff. exact Hff.
        -- rewrite (Hcell r Hr). destruct (RankSet_has rs r); [| reflexivity].
           cbn [filter]. specialize (Hfa r Hr).
           destruct (Z.ltb_spec (Rank_value r) (Rank_value a)); [| lia].
           cbn [length]. lia.
      * intros j Hj. rewrite Hframe.
        -- apply Row_store_other. apply (Hj a). left. reflexivity.
        -- intros r Hr. apply Hj. right. exact Hr.
    + destruct (IH Hl' Hfl ord (Row_store row (Rank_value a - 2) 0))
        as [row' [Hrun [Hcell Hframe]]]; [lia | lia |].
      exists row'. split; [| split].
      * exact Hrun.
      * intros r [E | Hr].
        -- subst r. rewrite Hha.
           rewrite (Hframe _ Hfresh), Row_store_same. reflexivity.
        -- apply (Hcell r Hr).
      * intros j Hj. rewrite Hframe.
        -- apply Row_store_other. apply (Hj a). left. reflexivity.
        -- intros r Hr. apply Hj. right. exact Hr.
Qed.

Lemma priority_entry_spec (rs : RankSet) :
  RankSet_valid rs ->
  exists row,
    priority_entry rs = Some row /\
    forall r, Rank_valid r ->
      row (Rank_value r - 2)
      = if RankSet_has rs r
        then 1 + Z.of_nat (length (outranking rs r))
        else 0.
Proof.
  intros Hrs.
  destruct (priority_loop rs all_ranks Hrs all_ranks_valid all_ranks_falling
              0 Row_zero) as [row [Hrun [Hcell _]]]; [lia | simpl; lia |].
  exists row. split.
  - unfold priority_entry. rewrite Rank_loop_all_ranks, Hrun. reflexivity.
  - intros r Hr. rewrite (Hcell r (Rank_valid_cases r Hr)).
    destruct (RankSet_has rs r); reflexivity.
Qed.

Lemma RankSet_priorityIfInHand_spec (s : RankSet) (r : Rank) :
  RankSet_valid s -> Rank_valid r ->
  RankSet_priorityIfInHand s r
  = Some (if RankSet_has s r
          then mkPriority (1 + Z.of_nat (length (outranking s r)))
          else Priority_nullopt).
Proof.
  intros Hs Hr. unfold RankSet_priorityIfInHand, priority_data.
  destruct (table_lookup priority_entry Row_zero s) as [data [Hd He]].
  - intros rs Hrs. destruct (priority_entry_spec rs Hrs) as [row [E _]].
    exists row. exact E.
  - exact Hs.
  - destruct (priority_entry_spec s Hs) as [row [E Hrow]].
    rewrite E in He. inversion He as [Erow]. clear He.
    rewrite (proj2 Hs), (Rank_toNumber_spec r Hr), Hd. cbn [check bind].
    pose proof (proj1 (Rank_valid_range r) Hr) as Rr.
    destruct (Z.ltb_spec (Rank_value r) 2); [lia |].
    change Rank_min with 2. rewrite <- Erow, (Hrow r Hr).
    pose proof (outranking_bound s r) as Hb.
    destruct (RankSet_has s r).
    + destruct (Z.eqb_spec (1 + Z.of_nat (length (outranking s r))) 0);
        [lia |].
      unfold Priority_ctor, Priority_checkValid. cbn [Priority_value].
      destruct (Z.eqb_spec (1 + Z.of_nat (length (outranking s r))) 0);
        [lia |].
      destruct (Z.leb_spec (1 + Z.of_nat (length (outranking s r))) 14);
        [reflexivity | lia].
    + reflexivity.
Qed.

Lemma RankSet_priority_spec (s : RankSet) (r : Rank) :
  RankSet_valid s -> Rank_valid r -> RankSet_has s r = true ->
  RankSet_priority s r
  = Some (mkPriority (1 + Z.of_nat (length (outranking s r)))).
Proof.
  intros Hs Hr Hh. unfold RankSet_priority.
  rewrite (RankSet_priorityIfInHand_spec s r Hs Hr), Hh. cbn [bind].
  unfold Priority_testOptional, optionalValue. cbn [Priority_value].
  pose proof (outranking_bound s r) as Hb.
  destruct (Z.eqb_spec (1 + Z.of_nat (length (outranking s r))) 189);
    [lia | reflexivity].
Qed.

Lemma Rank_valid_hasValue (r : Rank) : Rank_valid r -> Rank_hasValue r = true.
Proof.
  intros H. apply Rank_valid_range in H.
  unfold Rank_hasValue, Rank_testOptional, optionalValue.
  destruct (Z.eqb_spec (Rank_value r) 189); [lia | reflexivity].
Qed.

(** Listed from the highest member down, the priorities are 1, 2, ... *)
Lemma RankSet_priorities_spec (s : RankSet) :
  RankSet_valid s ->
  RankSet_priorities s
  = first_priorities (Z.of_nat (length (RankSet_members s))).
Proof.
  intros Hs. unfold RankSet_priorities, first_priorities.
  rewrite Nat2Z.id.
  rewrite <- (falling_positions (RankSet_members s)
                (RankSet_members_falling s) 1).
  rewrite map_map. apply map_ext_in. intros r Hr.
  apply RankSet_members_In in Hr. destruct Hr as [Hv Hh].
  rewrite (RankSet_priority_spec s r Hs Hv Hh). unfold outranking.
  do 2 f_equal. lia.
Qed.

(** C6: for a valid set [S], (1) when [S] is not empty its highest rank
    is present and has priority 1; (2) the priorities of the members,
    listed from the highest member to the lowest, are exactly
    1, 2, ..., [S.count()]; (3) of two members the lower one has the
    larger priority; (4) for a valid rank that is not in [S],
    [priorityIfInHand] returns the absent value. *)
Theorem C6_priority (s : RankSet) :
  RankSet_valid s ->
  (RankSet_any s = true ->
     exists h,
       RankSet_highestRank s = Some h /\ Rank_hasValue h = true /\
       RankSet_has s h = true /\
       RankSet_priority s h = Some (mkPriority 1)) /\
  (exists c,
     RankSet_count s = Some c /\
     RankSet_priorities s = first_priorities c) /\
  (forall r1 r2 p1 p2,
     In r1 (RankSet_members s) -> In r2 (RankSet_members s) ->
     Rank_value r2 < Rank_value r1 ->
     RankSet_priority s r1 = Some p1 -> RankSet_priority s r2 = Some p2 ->
     Priority_value p1 < Priority_value p2) /\
  (forall r,
     Rank_valid r -> RankSet_test s r = Some false ->
     RankSet_priorityIfInHand s r = Some Priority_nullopt).
Proof.
  intros Hs. split; [| split; [| split]].
  - intros Hany. rewrite (RankSet_highestRank_spec s Hs).
    destruct (RankSet_members s) as [| h t] eqn:Hm.
    + apply (RankSet_members_nil s Hs) in Hm.
      unfold RankSet_any in Hany. rewrite Hm in Hany. discriminate Hany.
    + exists h. cbn [hd].
      assert (Hin : In h (RankSet_members s))
        by (rewrite Hm; left; reflexivity).
      apply RankSet_members_In in Hin. destruct Hin as [Hv Hh].
      split; [reflexivity |].
      split; [apply Rank_valid_hasValue, Hv |].
      split; [exact Hh |].
      rewrite (RankSet_priority_spec s h Hs Hv Hh). unfold outranking.
      rewrite Hm, falling_head_top; [reflexivity |].
      rewrite <- Hm. apply RankSet_members_falling.
  - exists (Z.of_nat (length (RankSet_members s))).
    split; [apply RankSet_count_spec, Hs | apply RankSet_priorities_spec, Hs].
  - intros r1 r2 p1 p2 H1 H2 Hlt E1 E2.
    pose proof H1 as H1'.
    apply RankSet_members_In in H1'. destruct H1' as [V1 M1].
    apply RankSet_members_In in H2. destruct H2 as [V2 M2].
    rewrite (RankSet_priority_spec s r1 Hs V1 M1) in E1.
    rewrite (RankSet_priority_spec s r2 Hs V2 M2) in E2.
    assert (P1 : Priority_value p1 = 1 + Z.of_nat (length (outranking s r1)))
      by (apply (f_equal (option_map Priority_value)) in E1;
          injection E1 as E1; symmetry; exact E1).
    assert (P2 : Priority_value p2 = 1 + Z.of_nat (length (outranking s r2)))
      by (apply (f_equal (option_map Priority_value)) in E2;
          injection E2 as E2; symmetry; exact E2).
    rewrite P1, P2.
    assert ((length (outranking s r1) < length (outranking s r2))%nat);
      [| lia].
    unfold outranking. apply (filter_length_lt _ _ r1).
    + intros x Hx. apply Z.ltb_lt in Hx. apply Z.ltb_lt. lia.
    + exact H1.
    + apply Z.ltb_ge. lia.
    + apply Z.ltb_lt. exact Hlt.
  - intros r Hr Ht.
    rewrite (RankSet_priorityIfInHand_spec s r Hs Hr).
    rewrite (RankSet_test_has s r Hs Hr) in Ht.
    inversion Ht as [Hh]. rewrite Hh. reflexivity.
Qed.

Lemma C6_priority_witness :
  RankSet_valid (mkRankSet 0x0234) /\
  (exists h,
     RankSet_highestRank (mkRankSet 0x0234) = Some h /\
     Rank_hasValue h = true /\
     RankSet_has (mkRankSet 0x0234) h = true /\
     RankSet_priority (mkRankSet 0x0234) h = Some (mkPriority 1)) /\
  RankSet_priorityIfInHand (mkRankSet 0x0234) (mkRank 8)
  = Some Priority_nullopt.
Proof.
  assert (Hs : RankSet_valid (mkRankSet 0x0234))
    by (split; [simpl; lia | reflexivity]).
  assert (Hr : Rank_valid (mkRank 8)) by (split; [simpl; lia | reflexivity]).
  destruct (C6_priority (mkRankSet 0x0234) Hs) as [Hhigh [_ [_ Habsent]]].
  split; [exact Hs |].
  split; [exact (Hhigh eq_refl) | exact (Habsent (mkRank 8) Hr eq_refl)].
Defined.

(** ** [winRanks] *)

(** The inner loop over a duplicate-free list of ranks none of which is
    in [res] yet: it adds to [res] the first [lw + 1 - nb] members of
    [rs] it meets, and every [+=] passes its assertion. *)
Lemma winRanks_loop (rs : RankSet) (lw : Z) (l : list Rank) :
  RankSet_valid rs -> (forall r, In r l -> Rank_valid r) -> NoDup l ->
  forall (nb : Z) (res : RankSet),
  1 <= nb -> nb + Z.of_nat (length l) < 65536 ->
  RankSet_valid res ->
  (forall r, In r l -> RankSet_has res r = false) ->
  exists nb' res',
    for_each l (winRanks_body rs lw) (nb, res) = Some (nb', res') /\
    RankSet_valid res' /\
    forall r, Rank_valid r ->
      (RankSet_has res' r = true <->
       RankSet_has res r = true \/
       In r (firstn (Z.to_nat (lw + 1 - nb)) (filter (RankSet_has rs) l))).
Proof.
  intros Hrs. induction l as [| a l IH];
    intros Hl Hnd nb res Hnb Hlen Hres Hout.
  - exists nb, res. split; [reflexivity | split; [exact Hres |]].
    intros r Hr. cbn [filter]. rewrite firstn_nil. cbn [In]. tauto.
  - assert (Ha : Rank_valid a) by (apply Hl; left; reflexivity).
    assert (Hl' : forall r, In r l -> Rank_valid r)
      by (intros r Hr; apply Hl; right; exact Hr).
    inversion Hnd as [| a' l' Hna Hnd']; subst a' l'.
    cbn [length] in Hlen.
    cbn [for_each filter]. unfold winRanks_body at 1.
    rewrite (RankSet_test_has rs a Hrs Ha). cbn [bind].
    destruct (RankSet_has rs a) eqn:Hha.
    + destruct (Z.leb_spec nb lw) as [Hle | Hgt].
      * rewrite (RankSet_add_assign_spec res a Hres Ha).
        rewrite (Hout a (or_introl eq_refl)).
        destruct (RankSet_set_spec res a Hres Ha) as [res1 [E1 [V1 M1]]].
        rewrite E1. cbn [bind ret].
        assert (Hu : u16 (nb + 1) = nb + 1)
          by (unfold u16; apply Z.mod_small; lia).
        rewrite Hu.
        destruct (IH Hl' Hnd' (nb + 1) res1) as [nb' [res' [Hrun [V' M']]]];
          [lia | lia | exact V1 | |].
        { intros r Hr. rewrite (M1 r (Hl' r Hr)).
          rewrite (Hout r (or_intror Hr)).
          rewrite Rank_value_eqb_neq; [reflexivity |].
          intros E. subst r. contradiction. }
        exists nb', res'. split; [exact Hrun | split; [exact V' |]].
        intros r Hr. rewrite (M' r Hr), (M1 r Hr).
        replace (Z.to_nat (lw + 1 - nb))
          with (S (Z.to_nat (lw + 1 - (nb + 1)))) by lia.
        cbn [firstn In]. rewrite orb_true_iff, Z.eqb_eq.
        split.
        -- intros [[H | H] | H]; auto.
           right. left. symmetry. apply Rank_eq_value, H.
        -- intros [H | [H | H]]; auto. subst r. auto.
      * cbn [ret bind]. exists nb, res.
        split; [reflexivity | split; [exact Hres |]].
        intros r Hr.
        replace (Z.to_nat (lw + 1 - nb)) with 0%nat by lia.
        cbn [firstn In]. tauto.
    + cbn [ret bind].
      destruct (IH Hl' Hnd' nb res) as [nb' [res' [Hrun [V' M']]]];
        [lia | lia | exact Hres | |].
      { intros r Hr. apply Hout. right. exact Hr. }
      exists nb', res'. split; [exact Hrun | split; [exact V' | exact M']].
Qed.

Lemma RankSet_empty_valid : RankSet_valid RankSet_empty.
Proof. split; [simpl; lia | reflexivity]. Qed.

Lemma RankSet_empty_has (r : Rank) :
  Rank_valid r -> RankSet_has RankSet_empty r = false.
Proof.
  intros Hr. rewrite (RankSet_has_spec _ r RankSet_empty_valid Hr).
  apply Z.bits_0.
Qed.

Lemma In_firstn {A : Type} (x : A) (l : list A) (k : nat) :
  In x (firstn k l) -> In x l.
Proof.
  revert k. induction l as [| a l IH]; intros k H.
  - rewrite firstn_nil in H. exact H.
  - destruct k as [| k]; [contradiction |].
    cbn [firstn In] in H. destruct H as [E | H].
    + left. exact E.
    + right. apply (IH k H).
Qed.

(** A predicate that selects from a duplicate-free list exactly a prefix
    of the selection of another one selects that prefix. *)
Lemma filter_as_firstn {A : Type} (f p : A -> bool) (l : list A) :
  NoDup l ->
  forall k : nat,
    (forall x, In x l -> (f x = true <-> In x (firstn k (filter p l)))) ->
    filter f l = firstn k (filter p l).
Proof.
  induction l as [| a l IH]; intros Hnd k H.
  - cbn [filter]. rewrite firstn_nil. reflexivity.
  - inversion Hnd as [| a' l' Hna Hnd']; subst a' l'.
    cbn [filter] in *. destruct (p a) eqn:Hpa.
    + destruct k as [| k].
      * cbn [firstn] in *. apply (filter_none f (a :: l)).
        intros x Hx. destruct (f x) eqn:Hfx; [| reflexivity].
        exfalso. apply (H x Hx). exact Hfx.
      * cbn [firstn] in *.
        assert (Hfa : f a = true)
          by (apply (H a (or_introl eq_refl)); left; reflexivity).
        rewrite Hfa. f_equal. apply (IH Hnd' k).
        intros x Hx. rewrite (H x (or_intror Hx)). cbn [In]. split.
        -- intros [E | Hin]; [subst x; contradiction | exact Hin].
        -- intros Hin. right. exact Hin.
    + assert (Hfa : f a = false).
      { destruct (f a) eqn:Hfa; [| reflexivity]. exfalso. apply Hna.
        apply (H a (or_introl eq_refl)) in Hfa.
        apply In_firstn, filter_In in Hfa. tauto. }
      rewrite Hfa. apply (IH Hnd' k).
      intros x Hx. apply (H x (or_intror Hx)).
Qed.

Lemma winRanks_cell_spec (rs : RankSet) (lw : Z) :
  RankSet_valid rs ->
  exists w,
    winRanks_cell rs lw = Some w /\ RankSet_valid w /\
    RankSet_members w = firstn (Z.to_nat lw) (RankSet_members rs).
Proof.
  intros Hrs.
  destruct (winRanks_loop rs lw all_ranks Hrs all_ranks_valid all_ranks_NoDup
              1 RankSet_empty) as [nb' [w [Hrun [Vw Mw]]]].
  - lia.
  - simpl. lia.
  - exact RankSet_empty_valid.
  - intros r Hr. apply RankSet_empty_has, all_ranks_valid, Hr.
  - exists w. split; [| split; [exact Vw |]].
    + unfold winRanks_cell. rewrite Rank_loop_all_ranks, Hrun. cbn [bind].
      rewrite (RankSet_toNumber_spec rs Hrs). reflexivity.
    + unfold RankSet_members. apply filter_as_firstn.
      * exact all_ranks_NoDup.
      * intros r Hr. apply all_ranks_valid in Hr.
        rewrite (Mw r Hr), (RankSet_empty_has r Hr).
        replace (lw + 1 - 1) with lw by lia.
        split; [intros [H | H]; [discriminate H | exact H] | auto].
Qed.

Lemma leastWin_loop_nth (k : Z) :
  1 <= k <= 13 -> nth (Z.to_nat (k - 1)) leastWin_loop 0 = k.
Proof.
  intros Hk. unfold leastWin_loop.
  change 0 with (Z.of_nat 0). rewrite map_nth, seq_nth by lia. lia.
Qed.

Lemma RankSet_winRanks_spec (s : RankSet) (k : Z) :
  RankSet_valid s -> 0 <= k <= 13 ->
  exists w,
    RankSet_winRanks s k = Some w /\ RankSet_valid w /\
    RankSet_members w = firstn (Z.to_nat k) (RankSet_members s).
Proof.
  intros Hs Hk. unfold RankSet_winRanks. rewrite (proj2 Hs). cbn [check bind].
  destruct (Z.eqb_spec k 0) as [E | Hk0].
  - subst k. exists RankSet_empty.
    split; [reflexivity | split; [exact RankSet_empty_valid | reflexivity]].
  - destruct (Z.ltb_spec k 14); [| lia]. cbn [check bind].
    destruct (table_lookup winRanks_entry [] s) as [data [Hd He]].
    + intros rs Hrs. apply mapM_total. intros lw _.
      destruct (winRanks_cell_spec rs lw Hrs) as [w [E _]]. exists w. exact E.
    + exact Hs.
    + unfold winRanks_data. rewrite Hd. cbn [bind].
      pose proof (mapM_nth (winRanks_cell s) leastWin_loop _ 0 RankSet_empty
                    He (Z.to_nat (k - 1))) as Hcell.
      rewrite leastWin_loop_nth in Hcell by lia.
      destruct (winRanks_cell_spec s k Hs) as [w [E [Vw Mw]]].
      rewrite E in Hcell. exists w. split; [| split; assumption].
      unfold ret. rewrite Hcell; [reflexivity |].
      unfold leastWin_loop. rewrite length_map, length_seq. lia.
Qed.

(** Fewer than [k] elements of a falling list outrank one of its first
    [k] elements. *)
Lemma falling_firstn_outranked (l : list Rank) (m : Rank) :
  falling l ->
  forall k : nat,
    In m (firstn k l) ->
    (length (filter (fun r' => (Rank_value m <? Rank_value r')%Z) l) < k)%nat.
Proof.
  induction l as [| a l IH]; intros Hf k Hin.
  - rewrite firstn_nil in Hin. contradiction.
  - destruct k as [| k]; [contradiction |].
    pose proof (falling_head_top a l Hf) as Htop.
    apply StronglySorted_inv in Hf. destruct Hf as [Hfl Hfa].
    rewrite Forall_forall in Hfa.
    cbn [firstn In] in Hin. destruct Hin as [E | Hin].
    + subst m. rewrite Htop. simpl. lia.
    + specialize (IH Hfl k Hin). cbn [filter].
      destruct (Rank_value m <? Rank_value a); cbn [length]; lia.
Qed.

Lemma falling_nth_outranked (l : list Rank) (i : nat) (d : Rank) :
  falling l -> (i < length l)%nat ->
  length (filter (fun r' => Rank_value (nth i l d) <? Rank_value r') l) = i.
Proof.
  intros Hf Hi.
  pose proof (falling_positions l Hf 0) as H.
  apply (f_equal (fun x => nth i x 0%nat)) in H.
  rewrite seq_nth in H by exact Hi.
  rewrite (nth_indep _ 0%nat
             (0 + length (filter (fun r' => (Rank_value d <? Rank_value r')%Z) l))%nat)
    in H by (rewrite length_map; exact Hi).
  rewrite (map_nth
             (fun r => (0 + length (filter (fun r' => (Rank_value r <? Rank_value r')%Z) l))%nat))
    in H.
  exact H.
Qed.

(** A set of at least [k] ranks has a [k]-th highest member. *)
Lemma kth_highest_exists (s : RankSet) (k : Z) :
  1 <= k <= Z.of_nat (length (RankSet_members s)) ->
  exists r, kth_highest s k r.
Proof.
  intros Hk. exists (nth (Z.to_nat (k - 1)) (RankSet_members s) (mkRank 0)).
  split.
  - apply nth_In. lia.
  - unfold outranking.
    rewrite falling_nth_outranked; [lia | apply RankSet_members_falling | lia].
Qed.

(** C5: for a valid set [S] and [0 <= k <= 13], [S.winRanks(k)] returns a
    set of exactly [min(k, S.count())] ranks, each of them at least the
    [k]-th highest member of [S] (the member that exactly [k - 1] members
    outrank), and [S.winRanks(0)] is the empty set. *)
Theorem C5_winRanks (s : RankSet) (k : Z) :
  RankSet_valid s -> 0 <= k <= 13 ->
  (exists w c,
     RankSet_winRanks s k = Some w /\ RankSet_count s = Some c /\
     RankSet_count w = Some (Z.min k c) /\
     forall m r,
       Rank_valid m -> RankSet_test w m = Some true ->
       kth_highest s k r -> Rank_value r <= Rank_value m) /\
  RankSet_winRanks s 0 = Some RankSet_empty.
Proof.
  intros Hs Hk. split.
  - destruct (RankSet_winRanks_spec s k Hs Hk) as [w [E [Vw Mw]]].
    exists w, (Z.of_nat (length (RankSet_members s))).
    split; [exact E | split; [apply RankSet_count_spec, Hs | split]].
    + rewrite (RankSet_count_spec w Vw), Mw, length_firstn. f_equal. lia.
    + intros m r Hm Ht [Hr Hout].
      rewrite (RankSet_test_has w m Vw Hm) in Ht. injection Ht as Ht.
      assert (Hin : In m (RankSet_members w))
        by (apply RankSet_members_In; split; assumption).
      rewrite Mw in Hin.
      pose proof (falling_firstn_outranked (RankSet_members s) m
                    (RankSet_members_falling s) (Z.to_nat k) Hin) as Hlt.
      destruct (Z_le_gt_dec (Rank_value r) (Rank_value m)) as [L | G];
        [exact L | exfalso].
      assert (Hmore : (length (outranking s r) < length (outranking s m))%nat).
      { unfold outranking. apply (filter_length_lt _ _ r).
        - intros x Hx. apply Z.ltb_lt in Hx. apply Z.ltb_lt. lia.
        - exact Hr.
        - apply Z.ltb_ge. lia.
        - apply Z.ltb_lt. lia. }
      unfold outranking in *. lia.
  - unfold RankSet_winRanks. rewrite (proj2 Hs). reflexivity.
Qed.

Lemma C5_winRanks_witness :
  RankSet_valid (mkRankSet 0x0234) /\ 0 <= 2 <= 13 /\
  (exists w c,
     RankSet_winRanks (mkRankSet 0x0234) 2 = Some w /\
     RankSet_count (mkRankSet 0x0234) = Some c /\
     RankSet_count w = Some (Z.min 2 c) /\
     forall m r,
       Rank_valid m -> RankSet_test w m = Some true ->
       kth_highest (mkRankSet 0x0234) 2 r -> Rank_value r <= Rank_value m).
Proof.
  assert (Hs : RankSet_valid (mkRankSet 0x0234))
    by (split; [simpl; lia | reflexivity]).
  assert (Hk : 0 <= 2 <= 13) by lia.
  split; [exact Hs | split; [exact Hk |]].
  exact (proj1 (C5_winRanks (mkRankSet 0x0234) 2 Hs Hk)).
Defined.

(** * Further properties of the header *)

(** X1: for a valid Direction [d] and a valid Position [p], [d + p] is a
    valid Direction whose number is [(d.toNumber() + p.toNumber()) mod 4]. *)
Theorem X1_Direction_plus_mod4 (d : Direction) (p : Position) :
  Direction_valid d -> Position_valid p ->
  exists d',
    Direction_plus d p = Some d' /\ Direction_valid d' /\
    (n <- Direction_toNumber d ;; m <- Position_toNumber p ;;
     ret ((n + m) mod 4))
    = Direction_toNumber d'.
Proof.
  intros Hd Hp.
  exists (mkDirection ((Direction_value d + Position_value p) mod 4)).
  pose proof (Z.mod_pos_bound (Direction_value d + Position_value p) 4) as Hm.
  assert (Hv : Direction_valid
                 (mkDirection ((Direction_value d + Position_value p) mod 4)))
    by (apply Direction_valid_range; simpl; lia).
  split; [apply Direction_plus_spec; assumption | split; [exact Hv |]].
  unfold Direction_toNumber, Position_toNumber.
  rewrite (proj2 Hd), (proj2 Hp), (proj2 Hv). reflexivity.
Qed.

Lemma X1_Direction_plus_mod4_witness :
  Direction_valid South /\ Position_valid (mkPosition 3) /\
  exists d',
    Direction_plus South (mkPosition 3) = Some d' /\ Direction_valid d' /\
    (n <- Direction_toNumber South ;; m <- Position_toNumber (mkPosition 3) ;;
     ret ((n + m) mod 4))
    = Direction_toNumber d'.
Proof.
  assert (Hd : Direction_valid South) by (split; [simpl; lia | reflexivity]).
  assert (Hp : Position_valid (mkPosition 3))
    by (split; [simpl; lia | reflexivity]).
  split; [exact Hd | split; [exact Hp |]].
  exact (X1_Direction_plus_mod4 South (mkPosition 3) Hd Hp).
Defined.

(** X2: for a valid set [S] and [0 <= k <= 13], [S.winRanks(k)] is a valid
    set whose members are the [k] highest members of [S] (all of them when
    [S] has fewer). *)
Theorem X2_winRanks_members (s : RankSet) (k : Z) :
  RankSet_valid s -> 0 <= k <= 13 ->
  exists w,
    RankSet_winRanks s k = Some w /\ RankSet_valid w /\
    RankSet_members w = firstn (Z.to_nat k) (RankSet_members s).
Proof. intros Hs Hk. exact (RankSet_winRanks_spec s k Hs Hk). Qed.

Lemma X2_winRanks_members_witness :
  RankSet_valid (mkRankSet 0x0234) /\ 0 <= 2 <= 13 /\
  exists w,
    RankSet_winRanks (mkRankSet 0x0234) 2 = Some w /\ RankSet_valid w /\
    RankSet_members w = firstn (Z.to_nat 2) (RankSet_members (mkRankSet 0x0234)).
Proof.
  assert (Hs : RankSet_valid (mkRankSet 0x0234))
    by (split; [simpl; lia | reflexivity]).
  assert (Hk : 0 <= 2 <= 13) by lia.
  split; [exact Hs | split; [exact Hk |]].
  exact (X2_winRanks_members (mkRankSet 0x0234) 2 Hs Hk).
Defined.

(** X3: for a valid set [S], [highestRank()] returns the absent value when
    [S] is empty, and otherwise a member of [S] that no member outranks. *)
Theorem X3_highestRank (s : RankSet) :
  RankSet_valid s ->
  exists h,
    RankSet_highestRank s = Some h /\
    (RankSet_none s = true -> h = Rank_nullopt) /\
    (RankSet_any s = true ->
       In h (RankSet_members s) /\
       forall m, In m (RankSet_members s) -> Rank_value m <= Rank_value h).
Proof.
  intros Hs. exists (hd Rank_nullopt (RankSet_members s)).
  split; [apply RankSet_highestRank_spec, Hs | split].
  - intros Hn. unfold RankSet_none in Hn. apply Z.eqb_eq in Hn.
    destruct s as [v]. cbn [RankSet_value] in Hn. subst v. reflexivity.
  - intros Ha. pose proof (RankSet_members_falling s) as Hf.
    destruct (RankSet_members s) as [| h t] eqn:Hm.
    + apply (RankSet_members_nil s Hs) in Hm.
      unfold RankSet_any in Ha. rewrite Hm in Ha. discriminate Ha.
    + cbn [hd]. split; [left; reflexivity |].
      apply StronglySorted_inv in Hf. destruct Hf as [_ Hh].
      rewrite Forall_forall in Hh.
      intros m [E | Hin]; [subst m; lia | specialize (Hh m Hin); lia].
Qed.

Lemma X3_highestRank_witness :
  RankSet_valid (mkRankSet 0x0234) /\
  exists h,
    RankSet_highestRank (mkRankSet 0x0234) = Some h /\
    (RankSet_none (mkRankSet 0x0234) = true -> h = Rank_nullopt) /\
    (RankSet_any (mkRankSet 0x0234) = true ->
       In h (RankSet_members (mkRankSet 0x0234)) /\
       forall m, In m (RankSet_members (mkRankSet 0x0234)) ->
                 Rank_value m <= Rank_value h).
Proof.
  assert (Hs : RankSet_valid (mkRankSet 0x0234))
    by (split; [simpl; lia | reflexivity]).
  split; [exact Hs |].
  exact (X3_highestRank (mkRankSet 0x0234) Hs).
Defined.

(** X4: adding a rank that a valid set does not hold and removing it
    again gives the set back. *)
Theorem X4_set_then_reset (s : RankSet) (r : Rank) :
  RankSet_valid s -> Rank_valid r -> RankSet_has s r = false ->
  (s' <- RankSet_set s r ;; RankSet_reset s' r) = Some s.
Proof.
  intros Hs Hr Hn.
  destruct (RankSet_set_spec s r Hs Hr) as [s1 [E1 [V1 M1]]].
  destruct (RankSet_reset_spec s1 r V1 Hr) as [s2 [E2 [V2 M2]]].
  rewrite E1. cbn [bind]. rewrite E2. f_equal.
  apply RankSet_ext; try assumption.
  intros r' Hr'. rewrite (M2 r' Hr'), (M1 r' Hr').
  destruct (Z.eqb_spec (Rank_value r') (Rank_value r)) as [E | E].
  - apply Rank_eq_value in E. subst r'. rewrite Hn. reflexivity.
  - rewrite orb_false_r, andb_true_r. reflexivity.
Qed.

Lemma X4_set_then_reset_witness :
  RankSet_valid (mkRankSet 5) /\ Rank_valid (mkRank 3) /\
  RankSet_has (mkRankSet 5) (mkRank 3) = false /\
  (s' <- RankSet_set (mkRankSet 5) (mkRank 3) ;; RankSet_reset s' (mkRank 3))
  = Some (mkRankSet 5).
Proof.
  assert (Hs : RankSet_valid (mkRankSet 5))
    by (split; [simpl; lia | reflexivity]).
  assert (Hr : Rank_valid (mkRank 3)) by (split; [simpl; lia | reflexivity]).
  split; [exact Hs | split; [exact Hr | split; [reflexivity |]]].
  exact (X4_set_then_reset (mkRankSet 5) (mkRank 3) Hs Hr eq_refl).
Defined.

(** X5: the order in which two ranks are added to a valid set does not
    change the result. *)
Theorem X5_set_commutes (s : RankSet) (r1 r2 : Rank) :
  RankSet_valid s -> Rank_valid r1 -> Rank_valid r2 ->
  (s' <- RankSet_set s r1 ;; RankSet_set s' r2)
  = (s' <- RankSet_set s r2 ;; RankSet_set s' r1).
Proof.
  intros Hs H1 H2.
  destruct (RankSet_set_spec s r1 Hs H1) as [a [Ea [Va Ma]]].
  destruct (RankSet_set_spec a r2 Va H2) as [ab [Eab [Vab Mab]]].
  destruct (RankSet_set_spec s r2 Hs H2) as [b [Eb [Vb Mb]]].
  destruct (RankSet_set_spec b r1 Vb H1) as [ba [Eba [Vba Mba]]].
  rewrite Ea, Eb. cbn [bind]. rewrite Eab, Eba. f_equal.
  apply RankSet_ext; try assumption.
  intros r Hr. rewrite (Mab r Hr), (Ma r Hr), (Mba r Hr), (Mb r Hr).
  rewrite <- !orb_assoc. f_equal. apply orb_comm.
Qed.

Lemma X5_set_commutes_witness :
  RankSet_valid (mkRankSet 5) /\ Rank_valid (mkRank 3) /\
  Rank_valid (mkRank 14) /\
  (s' <- RankSet_set (mkRankSet 5) (mkRank 3) ;; RankSet_set s' (mkRank 14))
  = (s' <- RankSet_set (mkRankSet 5) (mkRank 14) ;; RankSet_set s' (mkRank 3)).
Proof.
  assert (Hs : RankSet_valid (mkRankSet 5))
    by (split; [simpl; lia | reflexivity]).
  assert (H1 : Rank_valid (mkRank 3)) by (split; [simpl; lia | reflexivity]).
  assert (H2 : Rank_valid (mkRank 14)) by (split; [simpl; lia | reflexivity]).
  split; [exact Hs | split; [exact H1 | split; [exact H2 |]]].
  exact (X5_set_commutes (mkRankSet 5) (mkRank 3) (mkRank 14) Hs H1 H2).
Defined.

(** ** Sets as bit vectors *)

Ltac valid_now := split; [simpl; lia | reflexivity].

Lemma RankSet_count_size (s : RankSet) :
  RankSet_valid s -> RankSet_count s = Some (RankSet_size s).
Proof. apply RankSet_count_spec. Qed.

Lemma RankSet_size_bound (s : RankSet) : 0 <= RankSet_size s <= 13.
Proof.
  unfold RankSet_size, RankSet_members.
  pose proof (filter_length_le (RankSet_has s) all_ranks) as H.
  change (length all_ranks) with 13%nat in H. lia.
Qed.

Lemma RankSet_members_ext (s : RankSet) (f : Rank -> bool) :
  (forall r, Rank_valid r -> RankSet_has s r = f r) ->
  RankSet_members s = filter f all_ranks.
Proof.
  intros H. unfold RankSet_members. apply filter_ext_in.
  intros r Hr. apply H, all_ranks_valid, Hr.
Qed.

Lemma toSingleRank_singleton (s : RankSet) (r : Rank) :
  RankSet_valid s -> RankSet_members s = [r] ->
  RankSet_toSingleRank s = Some r.
Proof.
  intros Hs Hm. pose proof (singleton_value s r Hs Hm) as Hv.
  assert (Hin : In r (RankSet_members s)) by (rewrite Hm; left; reflexivity).
  apply RankSet_members_In in Hin. destruct Hin as [Hr _].
  apply Rank_valid_cases in Hr. unfold all_ranks in Hr. cbn [map In] in Hr.
  destruct s as [v]. cbn [RankSet_value] in Hv.
  repeat (destruct Hr as [Hr | Hr];
          [subst r; vm_compute in Hv; subst v; reflexivity |]).
  contradiction.
Qed.

(** X6: on a valid set and a valid rank, [test] reads bit
    [rank - Rank::min()] of the value, and [bitMask] is 1 shifted left by
    that amount. *)
Theorem X6_test_reads_bit (s : RankSet) (r : Rank) :
  RankSet_valid s -> Rank_valid r ->
  RankSet_test s r
  = Some (Z.testbit (RankSet_value s) (Rank_value r - Rank_min)) /\
  Rank_bitMask r = Some (Z.shiftl 1 (Rank_value r - Rank_min)).
Proof.
  intros Hs Hr. change Rank_min with 2. split.
  - apply RankSet_test_spec; assumption.
  - rewrite (Rank_bitMask_spec r Hr). apply Rank_valid_range in Hr.
    rewrite Z.shiftl_1_l. reflexivity.
Qed.

Lemma X6_test_reads_bit_witness :
  RankSet_valid (mkRankSet 0x0234) /\ Rank_valid (mkRank 11) /\
  RankSet_test (mkRankSet 0x0234) (mkRank 11)
  = Some (Z.testbit 0x0234 (11 - Rank_min)) /\
  Rank_bitMask (mkRank 11) = Some (Z.shiftl 1 (11 - Rank_min)).
Proof.
  assert (Hs : RankSet_valid (mkRankSet 0x0234)) by valid_now.
  assert (Hr : Rank_valid (mkRank 11)) by valid_now.
  split; [exact Hs | split; [exact Hr |]].
  exact (X6_test_reads_bit (mkRankSet 0x0234) (mkRank 11) Hs Hr).
Defined.

(** X7: the set built from a valid rank [r] by [RankSet(r)] is valid,
    has [r] as its only member and count 1, and [toSingleRank()] gives
    [r] back. *)
Theorem X7_singleton_round_trip (r : Rank) :
  Rank_valid r ->
  exists s,
    RankSet_ofRank r = Some s /\ RankSet_valid s /\
    RankSet_members s = [r] /\ RankSet_count s = Some 1 /\
    RankSet_toSingleRank s = Some r.
Proof.
  intros Hr.
  assert (Hv : RankSet_valid (mkRankSet (2 ^ (Rank_value r - 2))))
    by (apply RankSet_valid_range, pow2_rank_range, Hr).
  exists (mkRankSet (2 ^ (Rank_value r - 2))).
  assert (Hm : RankSet_members (mkRankSet (2 ^ (Rank_value r - 2))) = [r]).
  { apply Rank_valid_cases in Hr. unfold all_ranks in Hr. cbn [map In] in Hr.
    repeat (destruct Hr as [Hr | Hr]; [subst r; reflexivity |]).
    contradiction. }
  split; [| split; [exact Hv | split; [exact Hm | split]]].
  - unfold RankSet_ofRank. rewrite (Rank_bitMask_spec r Hr). cbn [bind].
    rewrite (proj2 Hv). reflexivity.
  - rewrite (RankSet_count_spec _ Hv), Hm. reflexivity.
  - apply toSingleRank_singleton; assumption.
Qed.

Lemma X7_singleton_round_trip_witness :
  Rank_valid (mkRank 12) /\
  exists s,
    RankSet_ofRank (mkRank 12) = Some s /\ RankSet_valid s /\
    RankSet_members s = [mkRank 12] /\ RankSet_count s = Some 1 /\
    RankSet_toSingleRank s = Some (mkRank 12).
Proof.
  assert (Hr : Rank_valid (mkRank 12)) by valid_now.
  split; [exact Hr |].
  exact (X7_singleton_round_trip (mkRank 12) Hr).
Defined.

(** X8: for a valid set, [count()] is between 0 and 13, [none()] holds
    exactly when it is 0 and [any()] exactly when it is positive. *)
Theorem X8_none_any_count (s : RankSet) :
  RankSet_valid s ->
  exists c,
    RankSet_count s = Some c /\ 0 <= c <= 13 /\
    (RankSet_none s = true <-> c = 0) /\
    (RankSet_any s = true <-> 0 < c).
Proof.
  intros Hs. exists (RankSet_size s).
  split; [apply RankSet_count_size, Hs |].
  split; [apply RankSet_size_bound |].
  assert (H0 : RankSet_value s = 0 <-> RankSet_size s = 0).
  { unfold RankSet_size. split.
    - intros E. destruct s as [v]. cbn [RankSet_value] in E. subst v.
      reflexivity.
    - intros E. apply (RankSet_members_nil s Hs).
      destruct (RankSet_members s); [reflexivity | cbn [length] in E; lia]. }
  pose proof (RankSet_size_bound s) as Hb.
  unfold RankSet_none, RankSet_any. split.
  - rewrite Z.eqb_eq. exact H0.
  - rewrite negb_true_iff, Z.eqb_neq. rewrite H0. lia.
Qed.

Lemma X8_none_any_count_witness :
  RankSet_valid (mkRankSet 0) /\
  exists c,
    RankSet_count (mkRankSet 0) = Some c /\ 0 <= c <= 13 /\
    (RankSet_none (mkRankSet 0) = true <-> c = 0) /\
    (RankSet_any (mkRankSet 0) = true <-> 0 < c).
Proof.
  assert (Hs : RankSet_valid (mkRankSet 0)) by valid_now.
  split; [exact Hs |].
  exact (X8_none_any_count (mkRankSet 0) Hs).
Defined.

(** X9: on valid sets, [a == b] holds exactly when [test] agrees on
    every valid rank, and [a != b] is its negation. *)
Theorem X9_eq_same_members (a b : RankSet) :
  RankSet_valid a -> RankSet_valid b ->
  exists e,
    RankSet_eq a b = Some e /\ RankSet_ne a b = Some (negb e) /\
    (e = true <->
     forall r, Rank_valid r -> RankSet_test a r = RankSet_test b r).
Proof.
  intros Ha Hb. exists (RankSet_value a =? RankSet_value b).
  unfold RankSet_eq, RankSet_ne.
  rewrite (proj2 Ha), (RankSet_toNumber_spec b Hb). cbn [check bind].
  split; [reflexivity | split; [reflexivity |]].
  rewrite Z.eqb_eq. split.
  - intros E r Hr. destruct a as [va], b as [vb]. cbn [RankSet_value] in E.
    subst vb. reflexivity.
  - intros H. f_equal. apply RankSet_ext; try assumption.
    intros r Hr. specialize (H r Hr).
    rewrite (RankSet_test_has a r Ha Hr), (RankSet_test_has b r Hb Hr) in H.
    congruence.
Qed.

Lemma X9_eq_same_members_witness :
  RankSet_valid (mkRankSet 5) /\ RankSet_valid (mkRankSet 6) /\
  exists e,
    RankSet_eq (mkRankSet 5) (mkRankSet 6) = Some e /\
    RankSet_ne (mkRankSet 5) (mkRankSet 6) = Some (negb e) /\
    (e = true <->
     forall r, Rank_valid r ->
       RankSet_test (mkRankSet 5) r = RankSet_test (mkRankSet 6) r).
Proof.
  assert (Ha : RankSet_valid (mkRankSet 5)) by valid_now.
  assert (Hb : RankSet_valid (mkRankSet 6)) by valid_now.
  split; [exact Ha | split; [exact Hb |]].
  exact (X9_eq_same_members (mkRankSet 5) (mkRankSet 6) Ha Hb).
Defined.

(** ** Union, intersection, difference and complement *)

Lemma RankSet_or_spec (a b : RankSet) :
  RankSet_valid a -> RankSet_valid b ->
  exists s',
    RankSet_or_assign a b = Some s' /\ RankSet_valid s' /\
    forall r, Rank_valid r ->
      RankSet_has s' r = RankSet_has a r || RankSet_has b r.
Proof.
  intros Ha Hb.
  pose proof (proj1 (RankSet_valid_range a) Ha) as Ra.
  pose proof (proj1 (RankSet_valid_range b) Hb) as Rb.
  pose proof (lor_range _ _ Ra Rb) as Ro.
  assert (Hv : RankSet_valid
                 (mkRankSet (Z.lor (RankSet_value a) (RankSet_value b))))
    by (apply RankSet_valid_range; exact Ro).
  exists (mkRankSet (Z.lor (RankSet_value a) (RankSet_value b))).
  split; [| split; [exact Hv |]].
  - unfold RankSet_or_assign.
    rewrite (proj2 Ha), (RankSet_toNumber_spec b Hb). cbn [check bind].
    rewrite u16_small by exact Ro. reflexivity.
  - intros r Hr.
    rewrite (RankSet_has_spec _ r Hv Hr), (RankSet_has_spec a r Ha Hr),
      (RankSet_has_spec b r Hb Hr).
    cbn [RankSet_value]. apply Z.lor_spec.
Qed.

Lemma RankSet_and_spec (a b : RankSet) :
  RankSet_valid a -> RankSet_valid b ->
  exists s',
    RankSet_and_assign a b = Some s' /\ RankSet_valid s' /\
    forall r, Rank_valid r ->
      RankSet_has s' r = RankSet_has a r && RankSet_has b r.
Proof.
  intros Ha Hb.
  pose proof (proj1 (RankSet_valid_range a) Ha) as Ra.
  pose proof (land_range _ (RankSet_value b) Ra) as Ro.
  assert (Hv : RankSet_valid
                 (mkRankSet (Z.land (RankSet_value a) (RankSet_value b))))
    by (apply RankSet_valid_range; exact Ro).
  exists (mkRankSet (Z.land (RankSet_value a) (RankSet_value b))).
  split; [| split; [exact Hv |]].
  - unfold RankSet_and_assign.
    rewrite (proj2 Ha), (RankSet_toNumber_spec b Hb). cbn [check bind].
    rewrite u16_small by exact Ro. reflexivity.
  - intros r Hr.
    rewrite (RankSet_has_spec _ r Hv Hr), (RankSet_has_spec a r Ha Hr),
      (RankSet_has_spec b r Hb Hr).
    cbn [RankSet_value]. apply Z.land_spec.
Qed.

Lemma RankSet_xor_spec (a b : RankSet) :
  RankSet_valid a -> RankSet_valid b ->
  exists s',
    RankSet_xor_assign a b = Some s' /\ RankSet_valid s' /\
    forall r, Rank_valid r ->
      RankSet_has s' r = xorb (RankSet_has a r) (RankSet_has b r).
Proof.
  intros Ha Hb.
  pose proof (proj1 (RankSet_valid_range a) Ha) as Ra.
  pose proof (proj1 (RankSet_valid_range b) Hb) as Rb.
  pose proof (lxor_range _ _ Ra Rb) as Ro.
  assert (Hv : RankSet_valid
                 (mkRankSet (Z.lxor (RankSet_value a) (RankSet_value b))))
    by (apply RankSet_valid_range; exact Ro).
  exists (mkRankSet (Z.lxor (RankSet_value a) (RankSet_value b))).
  split; [| split; [exact Hv |]].
  - unfold RankSet_xor_assign.
    rewrite (proj2 Ha), (RankSet_toNumber_spec b Hb). cbn [check bind].
    rewrite u16_small by exact Ro. reflexivity.
  - intros r Hr.
    rewrite (RankSet_has_spec _ r Hv Hr), (RankSet_has_spec a r Ha Hr),
      (RankSet_has_spec b r Hb Hr).
    cbn [RankSet_value]. apply Z.lxor_spec.
Qed.

Lemma RankSet_complement_spec (s : RankSet) :
  RankSet_valid s ->
  exists c,
    RankSet_complement s = Some c /\ RankSet_flip_all s = Some c /\
    RankSet_valid c /\
    forall r, Rank_valid r -> RankSet_has c r = negb (RankSet_has s r).
Proof.
  intros Hs.
  pose proof (lnot_land_range (RankSet_value s)) as Ro.
  assert (Hv : RankSet_valid
                 (mkRankSet (Z.land (Z.lnot (RankSet_value s)) 8191)))
    by (apply RankSet_valid_range; exact Ro).
  exists (mkRankSet (Z.land (Z.lnot (RankSet_value s)) 8191)).
  split; [| split; [| split; [exact Hv |]]].
  - unfold RankSet_complement. rewrite (proj2 Hs). cbn [check bind].
    change RankSet_max with 8191. rewrite u16_small by exact Ro.
    unfold RankSet_ctor. rewrite (proj2 Hv). reflexivity.
  - unfold RankSet_flip_all. rewrite (proj2 Hs). cbn [check bind].
    change RankSet_max with 8191. rewrite u16_small by exact Ro.
    reflexivity.
  - intros r Hr.
    rewrite (RankSet_has_spec _ r Hv Hr), (RankSet_has_spec s r Hs Hr).
    cbn [RankSet_value]. apply Rank_valid_range in Hr.
    rewrite Z.land_spec. rewrite Z.lnot_spec by lia.
    change 8191 with (Z.ones 13). rewrite Z.ones_spec_low by lia.
    apply andb_true_r.
Qed.

Lemma filter_or_and_length {A : Type} (f g : A -> bool) (l : list A) :
  (length (filter (fun x => f x || g x) l)
   + length (filter (fun x => f x && g x) l)
   = length (filter f l) + length (filter g l))%nat.
Proof.
  induction l as [| a l IH]; cbn [filter]; [reflexivity |].
  destruct (f a), (g a); cbn [orb andb length]; lia.
Qed.

Lemma filter_negb_length {A : Type} (f : A -> bool) (l : list A) :
  (length (filter (fun x => negb (f x)) l) + length (filter f l)
   = length l)%nat.
Proof.
  induction l as [| a l IH]; cbn [filter]; [reflexivity |].
  destruct (f a); cbn [negb length]; lia.
Qed.

(** X10: on valid sets the operators [|], [&] and [^] return valid sets
    whose members are those in either operand, in both, and in exactly
    one. *)
Theorem X10_bitwise_members (a b : RankSet) :
  RankSet_valid a -> RankSet_valid b ->
  exists u i x,
    RankSet_or a b = Some u /\ RankSet_and a b = Some i /\
    RankSet_xor a b = Some x /\
    RankSet_valid u /\ RankSet_valid i /\ RankSet_valid x /\
    forall r, Rank_valid r ->
      RankSet_has u r = RankSet_has a r || RankSet_has b r /\
      RankSet_has i r = RankSet_has a r && RankSet_has b r /\
      RankSet_has x r = xorb (RankSet_has a r) (RankSet_has b r).
Proof.
  intros Ha Hb.
  destruct (RankSet_or_spec a b Ha Hb) as [u [Eu [Vu Mu]]].
  destruct (RankSet_and_spec a b Ha Hb) as [i [Ei [Vi Mi]]].
  destruct (RankSet_xor_spec a b Ha Hb) as [x [Ex [Vx Mx]]].
  exists u, i, x. unfold RankSet_or, RankSet_and, RankSet_xor.
  repeat (split; [assumption |]).
  intros r Hr. split; [apply Mu, Hr | split; [apply Mi, Hr | apply Mx, Hr]].
Qed.

Lemma X10_bitwise_members_witness :
  RankSet_valid (mkRankSet 5) /\ RankSet_valid (mkRankSet 6) /\
  exists u i x,
    RankSet_or (mkRankSet 5) (mkRankSet 6) = Some u /\
    RankSet_and (mkRankSet 5) (mkRankSet 6) = Some i /\
    RankSet_xor (mkRankSet 5) (mkRankSet 6) = Some x /\
    RankSet_valid u /\ RankSet_valid i /\ RankSet_valid x /\
    forall r, Rank_valid r ->
      RankSet_has u r
      = RankSet_has (mkRankSet 5) r || RankSet_has (mkRankSet 6) r /\
      RankSet_has i r
      = RankSet_has (mkRankSet 5) r && RankSet_has (mkRankSet 6) r /\
      RankSet_has x r
      = xorb (RankSet_has (mkRankSet 5) r) (RankSet_has (mkRankSet 6) r).
Proof.
  assert (Ha : RankSet_valid (mkRankSet 5)) by valid_now.
  assert (Hb : RankSet_valid (mkRankSet 6)) by valid_now.
  split; [exact Ha | split; [exact Hb |]].
  exact (X10_bitwise_members (mkRankSet 5) (mkRankSet 6) Ha Hb).
Defined.

(** X11: on a valid set, [~S] and [S.flip()] return the same valid set,
    whose members are exactly the valid ranks not in [S]; its count is
    13 minus the count of [S], and complementing it gives [S] back. *)
Theorem X11_complement (s : RankSet) :
  RankSet_valid s ->
  exists c,
    RankSet_complement s = Some c /\ RankSet_flip_all s = Some c /\
    RankSet_valid c /\
    (forall r, Rank_valid r -> RankSet_has c r = negb (RankSet_has s r)) /\
    (n <- RankSet_count s ;; ret (13 - n)) = RankSet_count c /\
    RankSet_complement c = Some s.
Proof.
  intros Hs.
  destruct (RankSet_complement_spec s Hs) as [c [Ec [Ef [Vc Mc]]]].
  exists c. split; [exact Ec | split; [exact Ef | split; [exact Vc |]]].
  split; [exact Mc | split].
  - rewrite (RankSet_count_spec s Hs), (RankSet_count_spec c Vc). cbn [bind].
    unfold ret. f_equal.
    rewrite (RankSet_members_ext c (fun r => negb (RankSet_has s r)) Mc).
    unfold RankSet_members.
    pose proof (filter_negb_length (RankSet_has s) all_ranks) as H.
    change (length all_ranks) with 13%nat in H. lia.
  - destruct (RankSet_complement_spec c Vc) as [c' [Ec' [_ [Vc' Mc']]]].
    rewrite Ec'. f_equal. apply RankSet_ext; try assumption.
    intros r Hr. rewrite (Mc' r Hr), (Mc r Hr). apply negb_involutive.
Qed.

Lemma X11_complement_witness :
  RankSet_valid (mkRankSet 5) /\
  exists c,
    RankSet_complement (mkRankSet 5) = Some c /\
    RankSet_flip_all (mkRankSet 5) = Some c /\
    RankSet_valid c /\
    (forall r, Rank_valid r ->
       RankSet_has c r = negb (RankSet_has (mkRankSet 5) r)) /\
    (n <- RankSet_count (mkRankSet 5) ;; ret (13 - n)) = RankSet_count c /\
    RankSet_complement c = Some (mkRankSet 5).
Proof.
  assert (Hs : RankSet_valid (mkRankSet 5)) by valid_now.
  split; [exact Hs |].
  exact (X11_complement (mkRankSet 5) Hs).
Defined.

(** X12: for valid sets, the counts of [a | b] and [a & b] add up to the
    counts of [a] and [b]. *)
Theorem X12_count_union_intersection (a b : RankSet) :
  RankSet_valid a -> RankSet_valid b ->
  (u <- RankSet_or a b ;; i <- RankSet_and a b ;;
   cu <- RankSet_count u ;; ci <- RankSet_count i ;; ret (cu + ci))
  = (ca <- RankSet_count a ;; cb <- RankSet_count b ;; ret (ca + cb)).
Proof.
  intros Ha Hb.
  destruct (RankSet_or_spec a b Ha Hb) as [u [Eu [Vu Mu]]].
  destruct (RankSet_and_spec a b Ha Hb) as [i [Ei [Vi Mi]]].
  unfold RankSet_or, RankSet_and. rewrite Eu, Ei. cbn [bind].
  rewrite (RankSet_count_spec u Vu), (RankSet_count_spec i Vi),
    (RankSet_count_spec a Ha), (RankSet_count_spec b Hb).
  cbn [bind]. unfold ret. f_equal.
  rewrite (RankSet_members_ext u _ Mu), (RankSet_members_ext i _ Mi).
  unfold RankSet_members.
  pose proof (filter_or_and_length (RankSet_has a) (RankSet_has b) all_ranks).
  lia.
Qed.

Lemma X12_count_union_intersection_witness :
  RankSet_valid (mkRankSet 5) /\ RankSet_valid (mkRankSet 6) /\
  (u <- RankSet_or (mkRankSet 5) (mkRankSet 6) ;;
   i <- RankSet_and (mkRankSet 5) (mkRankSet 6) ;;
   cu <- RankSet_count u ;; ci <- RankSet_count i ;; ret (cu + ci))
  = (ca <- RankSet_count (mkRankSet 5) ;;
     cb <- RankSet_count (mkRankSet 6) ;; ret (ca + cb)).
Proof.
  assert (Ha : RankSet_valid (mkRankSet 5)) by valid_now.
  assert (Hb : RankSet_valid (mkRankSet 6)) by valid_now.
  split; [exact Ha | split; [exact Hb |]].
  exact (X12_count_union_intersection (mkRankSet 5) (mkRankSet 6) Ha Hb).
Defined.

(** ** The asserting operators on two sets *)

Lemma testbit_has (s : RankSet) (i : Z) :
  RankSet_valid s -> 0 <= i < 13 ->
  Z.testbit (RankSet_value s) i = RankSet_has s (mkRank (i + 2)).
Proof.
  intros Hs Hi.
  assert (Hr : Rank_valid (mkRank (i + 2)))
    by (apply Rank_valid_range; simpl; lia).
  rewrite (RankSet_has_spec s _ Hs Hr). cbn [Rank_value].
  f_equal. lia.
Qed.

(** The assertion of [+=]: no rank is in both sets. *)
Lemma land_zero_disjoint (a b : RankSet) :
  RankSet_valid a -> RankSet_valid b ->
  (Z.land (RankSet_value b) (RankSet_value a) = 0 <->
   forall r, Rank_valid r -> RankSet_has a r = true -> RankSet_has b r = false).
Proof.
  intros Ha Hb. split.
  - intros E r Hr Har.
    apply (f_equal (fun z => Z.testbit z (Rank_value r - 2))) in E.
    rewrite Z.land_spec, Z.bits_0 in E.
    rewrite <- (RankSet_has_spec a r Ha Hr), <- (RankSet_has_spec b r Hb Hr) in E.
    rewrite Har, andb_true_r in E. exact E.
  - intros H.
    pose proof (proj1 (RankSet_valid_range b) Hb) as Rb.
    apply (bits_eq_below 13); [lia | | lia |].
    + pose proof (land_range _ (RankSet_value a) Rb). lia.
    + intros i Hi. rewrite Z.land_spec, Z.bits_0.
      rewrite (testbit_has a i Ha Hi), (testbit_has b i Hb Hi).
      assert (Hr : Rank_valid (mkRank (i + 2)))
        by (apply Rank_valid_range; simpl; lia).
      specialize (H _ Hr).
      destruct (RankSet_has a (mkRank (i + 2))).
      * rewrite (H eq_refl). reflexivity.
      * apply andb_false_r.
Qed.

(** The assertion of [-=]: every rank of [b] is in [a]. *)
Lemma land_self_subset (a b : RankSet) :
  RankSet_valid a -> RankSet_valid b ->
  (Z.land (RankSet_value b) (RankSet_value a) = RankSet_value b <->
   forall r, Rank_valid r -> RankSet_has b r = true -> RankSet_has a r = true).
Proof.
  intros Ha Hb. split.
  - intros E r Hr Hbr.
    apply (f_equal (fun z => Z.testbit z (Rank_value r - 2))) in E.
    rewrite Z.land_spec in E.
    rewrite <- (RankSet_has_spec a r Ha Hr), <- (RankSet_has_spec b r Hb Hr) in E.
    rewrite Hbr in E. exact E.
  - intros H.
    pose proof (proj1 (RankSet_valid_range b) Hb) as Rb.
    apply (bits_eq_below 13); [lia | | lia |].
    + pose proof (land_range _ (RankSet_value a) Rb). lia.
    + intros i Hi. rewrite Z.land_spec.
      rewrite (testbit_has a i Ha Hi), (testbit_has b i Hb Hi).
      assert (Hr : Rank_valid (mkRank (i + 2)))
        by (apply Rank_valid_range; simpl; lia).
      specialize (H _ Hr).
      destruct (RankSet_has b (mkRank (i + 2))).
      * rewrite (H eq_refl). reflexivity.
      * reflexivity.
Qed.

Lemma RankSet_minus_spec (a b : RankSet) :
  RankSet_valid a -> RankSet_valid b ->
  Z.land (RankSet_value b) (RankSet_value a) = RankSet_value b ->
  exists d,
    RankSet_sub_assign_set a b = Some d /\ RankSet_valid d /\
    forall r, Rank_valid r ->
      RankSet_has d r = RankSet_has a r && negb (RankSet_has b r).
Proof.
  intros Ha Hb E.
  pose proof (proj1 (RankSet_valid_range a) Ha) as Ra.
  pose proof (land_range _ (Z.lnot (RankSet_value b)) Ra) as Ro.
  assert (Hv : RankSet_valid
                 (mkRankSet (Z.land (RankSet_value a)
                                    (Z.lnot (RankSet_value b)))))
    by (apply RankSet_valid_range; exact Ro).
  exists (mkRankSet (Z.land (RankSet_value a) (Z.lnot (RankSet_value b)))).
  split; [| split; [exact Hv |]].
  - unfold RankSet_sub_assign_set.
    rewrite (proj2 Ha), E, Z.eqb_refl, (RankSet_toNumber_spec b Hb).
    cbn [check bind]. rewrite u16_small by exact Ro. reflexivity.
  - intros r Hr.
    rewrite (RankSet_has_spec _ r Hv Hr), (RankSet_has_spec a r Ha Hr),
      (RankSet_has_spec b r Hb Hr).
    cbn [RankSet_value]. apply Rank_valid_range in Hr.
    rewrite Z.land_spec. rewrite Z.lnot_spec by lia. reflexivity.
Qed.

(** X13: on valid sets, [a + b] returns exactly when no rank is in both
    operands, and then returns what [a | b] returns; when some rank is in
    both, its assertion fails. *)
Theorem X13_plus_is_disjoint_union (a b : RankSet) :
  RankSet_valid a -> RankSet_valid b ->
  ((forall r, Rank_valid r ->
      RankSet_has a r = true -> RankSet_has b r = false) ->
   exists s,
     RankSet_plus a b = Some s /\ RankSet_or a b = Some s /\
     RankSet_valid s /\
     forall r, Rank_valid r ->
       RankSet_has s r = RankSet_has a r || RankSet_has b r) /\
  ((exists r, Rank_valid r /\
      RankSet_has a r = true /\ RankSet_has b r = true) ->
   RankSet_plus a b = None).
Proof.
  intros Ha Hb.
  destruct (RankSet_or_spec a b Ha Hb) as [u [Eu [Vu Mu]]].
  assert (Hplus :
    RankSet_plus a b
    = if Z.land (RankSet_value b) (RankSet_value a) =? 0
      then RankSet_or a b else None).
  { unfold RankSet_plus, RankSet_add_assign_set, RankSet_or, RankSet_or_assign.
    rewrite (proj2 Ha). cbn [check bind].
    destruct (Z.land (RankSet_value b) (RankSet_value a) =? 0); reflexivity. }
  split.
  - intros Hd. apply (proj2 (land_zero_disjoint a b Ha Hb)) in Hd.
    rewrite Hd in Hplus. cbn [Z.eqb] in Hplus.
    exists u. rewrite Hplus. unfold RankSet_or. auto.
  - intros [r [Hr [Har Hbr]]].
    destruct (Z.eqb_spec (Z.land (RankSet_value b) (RankSet_value a)) 0)
      as [E | E]; [| exact Hplus].
    pose proof (proj1 (land_zero_disjoint a b Ha Hb) E) as E'.
    rewrite (E' r Hr Har) in Hbr. discriminate Hbr.
Qed.

Lemma X13_plus_is_disjoint_union_witness :
  RankSet_valid (mkRankSet 5) /\ RankSet_valid (mkRankSet 6) /\
  RankSet_plus (mkRankSet 5) (mkRankSet 6) = None.
Proof.
  assert (Ha : RankSet_valid (mkRankSet 5)) by valid_now.
  assert (Hb : RankSet_valid (mkRankSet 6)) by valid_now.
  assert (Hr : Rank_valid (mkRank 4)) by valid_now.
  split; [exact Ha | split; [exact Hb |]].
  apply (X13_plus_is_disjoint_union (mkRankSet 5) (mkRankSet 6) Ha Hb).
  exists (mkRank 4). split; [exact Hr | split; reflexivity].
Defined.

(** X14: on valid sets, [a - b] returns exactly when every rank of [b]
    is in [a], and then returns the valid set of the ranks of [a] that
    are not in [b]; when [a] and [b] share no rank, [(a + b) - b] is
    [a]. *)
Theorem X14_minus_is_difference (a b : RankSet) :
  RankSet_valid a -> RankSet_valid b ->
  ((forall r, Rank_valid r ->
      RankSet_has b r = true -> RankSet_has a r = true) ->
   exists d,
     RankSet_minus a b = Some d /\ RankSet_valid d /\
     forall r, Rank_valid r ->
       RankSet_has d r = RankSet_has a r && negb (RankSet_has b r)) /\
  ((exists r, Rank_valid r /\
      RankSet_has b r = true /\ RankSet_has a r = false) ->
   RankSet_minus a b = None) /\
  ((forall r, Rank_valid r ->
      RankSet_has a r = true -> RankSet_has b r = false) ->
   (s <- RankSet_plus a b ;; RankSet_minus s b) = Some a).
Proof.
  intros Ha Hb. split; [| split].
  - intros Hsub. apply (proj2 (land_self_subset a b Ha Hb)) in Hsub.
    exact (RankSet_minus_spec a b Ha Hb Hsub).
  - intros [r [Hr [Hbr Har]]].
    unfold RankSet_minus, RankSet_sub_assign_set.
    rewrite (proj2 Ha). cbn [check bind].
    destruct (Z.eqb_spec (Z.land (RankSet_value b) (RankSet_value a))
                (RankSet_value b)) as [E | E]; [| reflexivity].
    pose proof (proj1 (land_self_subset a b Ha Hb) E) as E'.
    rewrite (E' r Hr Hbr) in Har. discriminate Har.
  - intros Hd.
    destruct (RankSet_or_spec a b Ha Hb) as [u [Eu [Vu Mu]]].
    pose proof (proj2 (land_zero_disjoint a b Ha Hb) Hd) as Hz.
    assert (Eplus : RankSet_plus a b = Some u).
    { unfold RankSet_plus, RankSet_add_assign_set.
      unfold RankSet_or_assign in Eu.
      rewrite (proj2 Ha) in *. cbn [check bind] in *.
      rewrite Hz. cbn [Z.eqb check bind]. exact Eu. }
    rewrite Eplus. cbn [bind].
    assert (Hsub : forall r, Rank_valid r ->
              RankSet_has b r = true -> RankSet_has u r = true).
    { intros r Hr Hbr. rewrite (Mu r Hr), Hbr. apply orb_true_r. }
    apply (proj2 (land_self_subset u b Vu Hb)) in Hsub.
    destruct (RankSet_minus_spec u b Vu Hb Hsub) as [d [Ed [Vd Md]]].
    unfold RankSet_minus. rewrite Ed. f_equal.
    apply RankSet_ext; try assumption.
    intros r Hr. rewrite (Md r Hr), (Mu r Hr). specialize (Hd r Hr).
    destruct (RankSet_has a r), (RankSet_has b r); try reflexivity.
    specialize (Hd eq_refl). discriminate Hd.
Qed.

Lemma X14_minus_is_difference_witness :
  RankSet_valid (mkRankSet 5) /\ RankSet_valid (mkRankSet 6) /\
  RankSet_minus (mkRankSet 5) (mkRankSet 6) = None.
Proof.
  assert (Ha : RankSet_valid (mkRankSet 5)) by valid_now.
  assert (Hb : RankSet_valid (mkRankSet 6)) by valid_now.
  assert (Hr : Rank_valid (mkRank 3)) by valid_now.
  split; [exact Ha | split; [exact Hb |]].
  apply (X14_minus_is_difference (mkRankSet 5) (mkRankSet 6) Ha Hb).
  exists (mkRank 3). split; [exact Hr | split; reflexivity].
Defined.

(** ** [flip], [set()] and [reset()] *)

Lemma RankSet_flip_spec (s : RankSet) (r : Rank) :
  RankSet_valid s -> Rank_valid r ->
  exists s',
    RankSet_flip s r = Some s' /\ RankSet_valid s' /\
    forall r', Rank_valid r' ->
      RankSet_has s' r'
      = xorb (RankSet_has s r') (Rank_value r' =? Rank_value r).
Proof.
  intros Hs Hr.
  pose proof (proj1 (RankSet_valid_range s) Hs) as Rs.
  pose proof (pow2_rank_range r Hr) as Rm.
  pose proof (lxor_range _ _ Rs Rm) as Ro.
  assert (Hv : RankSet_valid
                 (mkRankSet (Z.lxor (RankSet_value s) (2 ^ (Rank_value r - 2)))))
    by (apply RankSet_valid_range; exact Ro).
  exists (mkRankSet (Z.lxor (RankSet_value s) (2 ^ (Rank_value r - 2)))).
  split; [| split; [exact Hv |]].
  - unfold RankSet_flip. rewrite (proj2 Hs), (Rank_bitMask_spec r Hr).
    cbn [check bind]. rewrite u16_small by exact Ro. reflexivity.
  - intros r' Hr'.
    rewrite (RankSet_has_spec _ r' Hv Hr'), (RankSet_has_spec s r' Hs Hr').
    cbn [RankSet_value]. apply Rank_valid_range in Hr.
    rewrite Z.lxor_spec. rewrite Z.pow2_bits_eqb by lia.
    rewrite eqb_shift. reflexivity.
Qed.

(** X15: on a valid set and a valid rank, [flip(r)] returns what
    [reset(r)] returns when [r] is in the set and what [set(r)] returns
    when it is not, and flipping the same rank twice gives the set
    back. *)
Theorem X15_flip_toggles (s : RankSet) (r : Rank) :
  RankSet_valid s -> Rank_valid r ->
  (RankSet_has s r = true -> RankSet_flip s r = RankSet_reset s r) /\
  (RankSet_has s r = false -> RankSet_flip s r = RankSet_set s r) /\
  (s' <- RankSet_flip s r ;; RankSet_flip s' r) = Some s.
Proof.
  intros Hs Hr.
  destruct (RankSet_flip_spec s r Hs Hr) as [f [Ef [Vf Mf]]].
  destruct (RankSet_set_spec s r Hs Hr) as [a [Ea [Va Ma]]].
  destruct (RankSet_reset_spec s r Hs Hr) as [b [Eb [Vb Mb]]].
  split; [| split].
  - intros H. rewrite Ef, Eb. f_equal. apply RankSet_ext; try assumption.
    intros r' Hr'. rewrite (Mf r' Hr'), (Mb r' Hr').
    destruct (Z.eqb_spec (Rank_value r') (Rank_value r)) as [E | E].
    + apply Rank_eq_value in E. subst r'. rewrite H. reflexivity.
    + rewrite xorb_false_r, andb_true_r. reflexivity.
  - intros H. rewrite Ef, Ea. f_equal. apply RankSet_ext; try assumption.
    intros r' Hr'. rewrite (Mf r' Hr'), (Ma r' Hr').
    destruct (Z.eqb_spec (Rank_value r') (Rank_value r)) as [E | E].
    + apply Rank_eq_value in E. subst r'. rewrite H. reflexivity.
    + rewrite xorb_false_r, orb_false_r. reflexivity.
  - rewrite Ef. cbn [bind].
    destruct (RankSet_flip_spec f r Vf Hr) as [g [Eg [Vg Mg]]].
    rewrite Eg. f_equal. apply RankSet_ext; try assumption.
    intros r' Hr'. rewrite (Mg r' Hr'), (Mf r' Hr').
    rewrite xorb_assoc, xorb_nilpotent. apply xorb_false_r.
Qed.

Lemma X15_flip_toggles_witness :
  RankSet_valid (mkRankSet 5) /\ Rank_valid (mkRank 4) /\
  (s' <- RankSet_flip (mkRankSet 5) (mkRank 4) ;; RankSet_flip s' (mkRank 4))
  = Some (mkRankSet 5).
Proof.
  assert (Hs : RankSet_valid (mkRankSet 5)) by valid_now.
  assert (Hr : Rank_valid (mkRank 4)) by valid_now.
  split; [exact Hs | split; [exact Hr |]].
  apply (X15_flip_toggles (mkRankSet 5) (mkRank 4) Hs Hr).
Defined.

(** X16: on a valid set, [set()] returns the set of all thirteen ranks
    and [reset()] the set of none, whatever the set held: every valid
    rank tests true in the first and false in the second, the counts are
    13 and 0, and each is the complement of the other. *)
Theorem X16_set_all_reset_all (s : RankSet) :
  RankSet_valid s ->
  exists f e,
    RankSet_set_all s = Some f /\ RankSet_reset_all s = Some e /\
    RankSet_valid f /\ RankSet_valid e /\
    (forall r, Rank_valid r ->
       RankSet_test f r = Some true /\ RankSet_test e r = Some false) /\
    RankSet_count f = Some 13 /\ RankSet_count e = Some 0 /\
    RankSet_complement f = Some e /\ RankSet_complement e = Some f.
Proof.
  intros Hs. exists (mkRankSet RankSet_max), (mkRankSet 0).
  assert (Vf : RankSet_valid (mkRankSet RankSet_max))
    by (apply RankSet_valid_range; change RankSet_max with 8191; simpl; lia).
  assert (Ve : RankSet_valid (mkRankSet 0)) by valid_now.
  unfold RankSet_set_all, RankSet_reset_all. rewrite (proj2 Hs).
  split; [reflexivity | split; [reflexivity |]].
  split; [exact Vf | split; [exact Ve |]].
  split; [| split; [| split; [| split]]].
  - intros r Hr.
    rewrite (RankSet_test_has _ r Vf Hr), (RankSet_test_has _ r Ve Hr).
    assert (Hin : In r (RankSet_members (mkRankSet RankSet_max)))
      by (apply Rank_valid_cases, Hr).
    apply RankSet_members_In in Hin.
    rewrite (proj2 Hin). change (mkRankSet 0) with RankSet_empty.
    rewrite (RankSet_empty_has r Hr). split; reflexivity.
  - rewrite (RankSet_count_spec _ Vf). reflexivity.
  - rewrite (RankSet_count_spec _ Ve). reflexivity.
  - reflexivity.
  - reflexivity.
Qed.

Lemma X16_set_all_reset_all_witness :
  RankSet_valid (mkRankSet 0x0234) /\
  exists f e,
    RankSet_set_all (mkRankSet 0x0234) = Some f /\
    RankSet_reset_all (mkRankSet 0x0234) = Some e /\
    RankSet_valid f /\ RankSet_valid e /\
    (forall r, Rank_valid r ->
       RankSet_test f r = Some true /\ RankSet_test e r = Some false) /\
    RankSet_count f = Some 13 /\ RankSet_count e = Some 0 /\
    RankSet_complement f = Some e /\ RankSet_complement e = Some f.
Proof.
  assert (Hs : RankSet_valid (mkRankSet 0x0234)) by valid_now.
  split; [exact Hs |].
  exact (X16_set_all_reset_all (mkRankSet 0x0234) Hs).
Defined.

(** ** The lowest bit *)

Lemma land_opp_odd (a : Z) : Z.odd a = true -> Z.land a (- a) = 1.
Proof.
  intros Ha. apply Z.bits_inj'. intros n Hn. rewrite Z.land_spec.
  destruct (Z.eq_dec n 0) as [E | E].
  - subst n. rewrite !Z.bit0_odd, Z.odd_opp, Ha. reflexivity.
  - rewrite Z.bits_opp by lia.
    destruct (Zeven_odd_dec a) as [Hev | Hod].
    + apply Zeven_bool_iff in Hev. rewrite <- Z.negb_odd, Ha in Hev.
      discriminate Hev.
    + apply Zodd_ex in Hod. destruct Hod as [q Hq]. subst a.
      replace (Z.pred (2 * q + 1)) with (2 * q) by lia.
      replace n with (Z.succ (n - 1)) by lia.
      rewrite Z.testbit_odd_succ, Z.testbit_even_succ by lia.
      change 1 with (2 * 0 + 1). rewrite Z.testbit_odd_succ by lia.
      rewrite Z.bits_0. apply andb_negb_r.
Qed.

(** With bit [i] set and no bit below it, [v & -v] is [2 ^ i]. *)
Lemma land_opp_lowest (v i : Z) :
  0 <= i ->
  (forall j, 0 <= j < i -> Z.testbit v j = false) ->
  Z.testbit v i = true ->
  Z.land v (- v) = 2 ^ i.
Proof.
  intros Hi Hlow Hbit.
  assert (Ev : v = Z.shiftl (Z.shiftr v i) i).
  { apply Z.bits_inj'. intros n Hn. rewrite Z.shiftl_spec by lia.
    destruct (Z_lt_le_dec n i) as [L | L].
    - rewrite (Hlow n) by lia. rewrite Z.testbit_neg_r by lia. reflexivity.
    - rewrite Z.shiftr_spec by lia. f_equal. lia. }
  assert (Hodd : Z.odd (Z.shiftr v i) = true).
  { rewrite <- Z.bit0_odd, Z.shiftr_spec by lia. exact Hbit. }
  set (a := Z.shiftr v i) in *.
  assert (Eo : - v = Z.shiftl (- a) i).
  { rewrite Ev at 1. rewrite !Z.shiftl_mul_pow2 by lia. lia. }
  rewrite Eo. rewrite Ev at 1. rewrite <- Z.shiftl_land.
  rewrite (land_opp_odd a Hodd). apply Z.shiftl_1_l.
Qed.

Lemma falling_last_least (l : list Rank) (d : Rank) :
  falling l -> forall x, In x l -> Rank_value (last l d) <= Rank_value x.
Proof.
  induction l as [| a l IH]; intros Hf x Hx.
  - contradiction.
  - apply StronglySorted_inv in Hf. destruct Hf as [Hfl Hfa].
    rewrite Forall_forall in Hfa.
    destruct l as [| b l'].
    + destruct Hx as [E | []]. subst x. simpl. lia.
    + change (last (a :: b :: l') d) with (last (b :: l') d).
      destruct Hx as [E | Hx].
      * subst x.
        assert (Hin : In (last (b :: l') d) (b :: l')).
        { destruct (exists_last (l := b :: l')) as [l0 [z E]];
            [discriminate |].
          rewrite E, last_last. apply in_or_app. right. left. reflexivity. }
        specialize (Hfa _ Hin). lia.
      * apply (IH Hfl x Hx).
Qed.

Lemma last_In {A : Type} (l : list A) (d : A) : l <> [] -> In (last l d) l.
Proof.
  intros H. destruct (exists_last H) as [l0 [z E]].
  rewrite E, last_last. apply in_or_app. right. left. reflexivity.
Qed.

Lemma RankSet_nonempty_members (s : RankSet) :
  RankSet_valid s -> RankSet_any s = true -> RankSet_members s <> [].
Proof.
  intros Hs Ha Hm. apply (RankSet_members_nil s Hs) in Hm.
  unfold RankSet_any in Ha. rewrite Hm in Ha. discriminate Ha.
Qed.

Lemma singleton_members (r : Rank) :
  Rank_valid r -> RankSet_members (mkRankSet (2 ^ (Rank_value r - 2))) = [r].
Proof.
  intros Hr. apply Rank_valid_cases in Hr. unfold all_ranks in Hr.
  cbn [map In] in Hr.
  repeat (destruct Hr as [Hr | Hr]; [subst r; reflexivity |]).
  contradiction.
Qed.

(** X17: on a valid set, [toLowest()] and [cloneOnlyLSB()] return the
    same valid set: the empty set when the set is empty, and otherwise
    the set whose only member is the lowest member of the set, which
    [toSingleRank()] then gives. *)
Theorem X17_toLowest (s : RankSet) :
  RankSet_valid s ->
  exists w,
    RankSet_toLowest s = Some w /\ RankSet_cloneOnlyLSB s = Some w /\
    RankSet_valid w /\
    (RankSet_none s = true -> w = RankSet_empty) /\
    (RankSet_any s = true ->
       RankSet_members w = [RankSet_lowest s] /\
       RankSet_toSingleRank w = Some (RankSet_lowest s) /\
       In (RankSet_lowest s) (RankSet_members s) /\
       forall m, In m (RankSet_members s) ->
                 Rank_value (RankSet_lowest s) <= Rank_value m).
Proof.
  intros Hs.
  unfold RankSet_toLowest, RankSet_cloneOnlyLSB. rewrite (proj2 Hs).
  cbn [check bind].
  destruct (Z.eqb_spec (RankSet_value s) 0) as [E0 | N0].
  - exists RankSet_empty. rewrite E0.
    split; [reflexivity | split; [reflexivity |]].
    split; [exact RankSet_empty_valid |].
    split; [reflexivity |].
    intros Ha. unfold RankSet_any in Ha. rewrite E0 in Ha. discriminate Ha.
  - assert (Ha : RankSet_any s = true)
      by (unfold RankSet_any; apply negb_true_iff, Z.eqb_neq, N0).
    pose proof (RankSet_nonempty_members s Hs Ha) as Hne.
    pose proof (last_In (RankSet_members s) Rank_nullopt Hne) as Hin.
    fold (RankSet_lowest s) in Hin.
    pose proof (falling_last_least (RankSet_members s) Rank_nullopt
                  (RankSet_members_falling s)) as Hleast.
    fold (RankSet_lowest s) in Hleast.
    pose proof Hin as Hin'. apply RankSet_members_In in Hin'.
    destruct Hin' as [Hl Hhas].
    pose proof (proj1 (Rank_valid_range _) Hl) as Rl.
    assert (Ev : Z.land (RankSet_value s) (- RankSet_value s)
                 = 2 ^ (Rank_value (RankSet_lowest s) - 2)).
    { apply land_opp_lowest; [lia | |].
      - intros j Hj. rewrite (testbit_has s j Hs) by lia.
        destruct (RankSet_has s (mkRank (j + 2))) eqn:Hh; [| reflexivity].
        assert (Hm : In (mkRank (j + 2)) (RankSet_members s)).
        { apply RankSet_members_In. split; [| exact Hh].
          apply Rank_valid_range. simpl. lia. }
        specialize (Hleast _ Hm). simpl in Hleast. lia.
      - rewrite <- (RankSet_has_spec s _ Hs Hl). exact Hhas. }
    rewrite Ev.
    pose proof (pow2_rank_range _ Hl) as Rw.
    rewrite u16_small by exact Rw.
    assert (Vw : RankSet_valid
                   (mkRankSet (2 ^ (Rank_value (RankSet_lowest s) - 2))))
      by (apply RankSet_valid_range; exact Rw).
    exists (mkRankSet (2 ^ (Rank_value (RankSet_lowest s) - 2))).
    unfold RankSet_ctor. rewrite (proj2 Vw). cbn [check bind].
    split; [reflexivity | split; [reflexivity | split; [exact Vw |]]].
    split.
    + intros Hn. unfold RankSet_none in Hn. apply Z.eqb_eq in Hn.
      contradiction.
    + intros _. pose proof (singleton_members _ Hl) as Hm.
      split; [exact Hm |].
      split; [apply toSingleRank_singleton; assumption |].
      split; [exact Hin | exact Hleast].
Qed.

Lemma X17_toLowest_witness :
  RankSet_valid (mkRankSet 0x0234) /\
  exists w,
    RankSet_toLowest (mkRankSet 0x0234) = Some w /\
    RankSet_cloneOnlyLSB (mkRankSet 0x0234) = Some w /\
    RankSet_valid w /\
    (RankSet_none (mkRankSet 0x0234) = true -> w = RankSet_empty) /\
    (RankSet_any (mkRankSet 0x0234) = true ->
       RankSet_members w = [RankSet_lowest (mkRankSet 0x0234)] /\
       RankSet_toSingleRank w = Some (RankSet_lowest (mkRankSet 0x0234)) /\
       In (RankSet_lowest (mkRankSet 0x0234))
          (RankSet_members (mkRankSet 0x0234)) /\
       forall m, In m (RankSet_members (mkRankSet 0x0234)) ->
                 Rank_value (RankSet_lowest (mkRankSet 0x0234))
                 <= Rank_value m).
Proof.
  assert (Hs : RankSet_valid (mkRankSet 0x0234)) by valid_now.
  split; [exact Hs |].
  exact (X17_toLowest (mkRankSet 0x0234) Hs).
Defined.

(** ** Comparing sets by value *)

Lemma value_ge_member (s : RankSet) (r : Rank) :
  RankSet_valid s -> Rank_valid r -> RankSet_has s r = true ->
  2 ^ (Rank_value r - 2) <= RankSet_value s.
Proof.
  intros Hs Hr Hh. rewrite (RankSet_has_spec s r Hs Hr) in Hh.
  pose proof (proj1 (RankSet_valid_range s) Hs) as Rs.
  apply Rank_valid_range in Hr.
  destruct (Z_le_gt_dec (2 ^ (Rank_value r - 2)) (RankSet_value s))
    as [L | G]; [exact L | exfalso].
  rewrite (bits_above (Rank_value r - 2) (RankSet_value s)) in Hh;
    [discriminate Hh | lia | lia | lia].
Qed.

Lemma value_lt_above (s : RankSet) (n : Z) :
  RankSet_valid s -> 0 <= n <= 13 ->
  (forall r, Rank_valid r -> RankSet_has s r = true -> Rank_value r - 2 < n) ->
  RankSet_value s < 2 ^ n.
Proof.
  intros Hs Hn H.
  pose proof (proj1 (RankSet_valid_range s) Hs) as Rs.
  apply bits_bounded; [lia | lia |].
  intros i Hi. destruct (Z_lt_le_dec i 13) as [L | L].
  - rewrite (testbit_has s i Hs) by lia.
    destruct (RankSet_has s (mkRank (i + 2))) eqn:Hh; [| reflexivity].
    assert (Hr : Rank_valid (mkRank (i + 2)))
      by (apply Rank_valid_range; simpl; lia).
    specialize (H _ Hr Hh). simpl in H. lia.
  - apply (bits_above 13); lia.
Qed.

(** X18: for valid sets [a] and [b] whose highest ranks are present, when
    the highest rank of [a] outranks the highest rank of [b] then
    [a > b] and [b < a] hold and [a < b] does not; a set that is not
    empty is greater than the empty set. *)
Theorem X18_order_follows_highest (a b : RankSet) :
  RankSet_valid a -> RankSet_valid b ->
  (forall ha hb,
     RankSet_highestRank a = Some ha -> RankSet_highestRank b = Some hb ->
     Rank_hasValue ha = true -> Rank_hasValue hb = true ->
     Rank_value hb < Rank_value ha ->
     RankSet_gt a b = Some true /\ RankSet_lt b a = Some true /\
     RankSet_lt a b = Some false) /\
  (RankSet_any a = true -> RankSet_none b = true ->
   RankSet_gt a b = Some true /\ RankSet_lt b a = Some true).
Proof.
  intros Ha Hb.
  assert (Hcmp : forall x y : Z,
            y < x ->
            (x >? y) = true /\ (y <? x) = true /\ (x <? y) = false).
  { intros x y H. rewrite Z.gtb_ltb. repeat split.
    - apply Z.ltb_lt, H.
    - apply Z.ltb_lt, H.
    - apply Z.ltb_ge. lia. }
  unfold RankSet_gt, RankSet_lt.
  rewrite (proj2 Ha), (proj2 Hb), (RankSet_toNumber_spec a Ha),
    (RankSet_toNumber_spec b Hb).
  cbn [check bind]. unfold ret. split.
  - intros ha hb Eha Ehb Vha Vhb Hlt.
    rewrite (RankSet_highestRank_spec a Ha) in Eha.
    rewrite (RankSet_highestRank_spec b Hb) in Ehb.
    injection Eha as Eha. injection Ehb as Ehb.
    pose proof (RankSet_members_falling b) as Hfb.
    destruct (RankSet_members a) as [| xa ta] eqn:Hma;
      [subst ha; discriminate Vha |].
    destruct (RankSet_members b) as [| xb tb] eqn:Hmb;
      [subst hb; discriminate Vhb |].
    cbn [hd] in Eha, Ehb. subst xa xb.
    assert (Ia : In ha (RankSet_members a)) by (rewrite Hma; left; reflexivity).
    apply RankSet_members_In in Ia. destruct Ia as [Vra Hha].
    pose proof (value_ge_member a ha Ha Vra Hha) as Hge.
    pose proof (proj1 (Rank_valid_range ha) Vra) as Rha.
    assert (Ib : In hb (RankSet_members b)) by (rewrite Hmb; left; reflexivity).
    apply RankSet_members_In in Ib. destruct Ib as [Vrb _].
    pose proof (proj1 (Rank_valid_range hb) Vrb) as Rhb.
    assert (Hltb : RankSet_value b < 2 ^ (Rank_value hb - 1)).
    { apply value_lt_above; [exact Hb | lia |].
      intros r Hr Hh.
      assert (Hin : In r (RankSet_members b))
        by (apply RankSet_members_In; split; assumption).
      rewrite Hmb in Hin. apply StronglySorted_inv in Hfb.
      destruct Hfb as [_ Hall]. rewrite Forall_forall in Hall.
      destruct Hin as [E | Hin]; [subst r; lia |].
      specialize (Hall r Hin). lia. }
    assert (Hpow : 2 ^ (Rank_value hb - 1) <= 2 ^ (Rank_value ha - 2))
      by (apply Z.pow_le_mono_r; lia).
    destruct (Hcmp (RankSet_value a) (RankSet_value b)) as [C1 [C2 C3]];
      [lia |].
    rewrite C1, C2, C3. repeat split; reflexivity.
  - intros Hany Hnone. unfold RankSet_none in Hnone.
    apply Z.eqb_eq in Hnone. unfold RankSet_any in Hany.
    apply negb_true_iff, Z.eqb_neq in Hany.
    pose proof (proj1 (RankSet_valid_range a) Ha) as Ra.
    destruct (Hcmp (RankSet_value a) (RankSet_value b)) as [C1 [C2 _]];
      [lia |].
    rewrite C1, C2. split; reflexivity.
Qed.

Lemma X18_order_follows_highest_witness :
  RankSet_valid (mkRankSet 0x0200) /\ RankSet_valid (mkRankSet 0x01FF) /\
  RankSet_gt (mkRankSet 0x0200) (mkRankSet 0x01FF) = Some true /\
  RankSet_lt (mkRankSet 0x01FF) (mkRankSet 0x0200) = Some true /\
  RankSet_lt (mkRankSet 0x0200) (mkRankSet 0x01FF) = Some false.
Proof.
  assert (Ha : RankSet_valid (mkRankSet 0x0200)) by valid_now.
  assert (Hb : RankSet_valid (mkRankSet 0x01FF)) by valid_now.
  split; [exact Ha | split; [exact Hb |]].
  apply (proj1 (X18_order_follows_highest
                  (mkRankSet 0x0200) (mkRankSet 0x01FF) Ha Hb)
               (mkRank 11) (mkRank 10)).
  - apply (RankSet_highestRank_spec _ Ha).
  - apply (RankSet_highestRank_spec _ Hb).
  - reflexivity.
  - reflexivity.
  - simpl. lia.
Defined.

(** ** Priorities and winning ranks together *)

Lemma nth_In_firstn {A : Type} (l : list A) (i k : nat) (d : A) :
  (i < k)%nat -> (i < length l)%nat -> In (nth i l d) (firstn k l).
Proof.
  revert i k. induction l as [| a l IH]; intros i k Hik Hil.
  - cbn [length] in Hil. lia.
  - destruct k as [| k]; [lia |]. cbn [firstn].
    destruct i as [| i]; [left; reflexivity |].
    right. cbn [nth]. apply IH; cbn [length] in Hil; lia.
Qed.

(** In a falling list, an element is among the first [k] exactly when
    fewer than [k] elements outrank it. *)
Lemma falling_firstn_iff (l : list Rank) (r : Rank) (k : nat) :
  falling l -> In r l ->
  (In r (firstn k l) <->
   (length (filter (fun r' => (Rank_value r <? Rank_value r')%Z) l) < k)%nat).
Proof.
  intros Hf Hin. split.
  - apply falling_firstn_outranked, Hf.
  - intros Hlt. destruct (In_nth l r (mkRank 0) Hin) as [i [Hi E]].
    rewrite <- E in Hlt. rewrite (falling_nth_outranked l i _ Hf Hi) in Hlt.
    rewrite <- E. apply nth_In_firstn; assumption.
Qed.


Lemma RankSet_ofRank_spec (r : Rank) :
  Rank_valid r ->
  RankSet_ofRank r = Some (mkRankSet (2 ^ (Rank_value r - 2))).
Proof.
  intros Hr. unfold RankSet_ofRank. rewrite (Rank_bitMask_spec r Hr).
  cbn [bind].
  assert (Hv : RankSet_valid (mkRankSet (2 ^ (Rank_value r - 2))))
    by (apply RankSet_valid_range, pow2_rank_range, Hr).
  rewrite (proj2 Hv). reflexivity.
Qed.

(** X19: on a valid set and a valid rank, [priority(r)] returns exactly
    when [r] is in the set, and then the priority is 1 plus the number of
    members that outrank [r]; when [r] is not in the set, the dereference
    in [priority] fails its assertion while [priorityIfInHand] returns the
    absent value. *)
Theorem X19_priority_counts_outranking (s : RankSet) (r : Rank) :
  RankSet_valid s -> Rank_valid r ->
  (RankSet_has s r = true ->
   RankSet_priority s r
   = Some (mkPriority (1 + Z.of_nat (length (outranking s r)))) /\
   RankSet_priorityIfInHand s r = RankSet_priority s r) /\
  (RankSet_has s r = false ->
   RankSet_priority s r = None /\
   RankSet_priorityIfInHand s r = Some Priority_nullopt).
Proof.
  intros Hs Hr. split; intros Hh.
  - rewrite (RankSet_priority_spec s r Hs Hr Hh).
    rewrite (RankSet_priorityIfInHand_spec s r Hs Hr), Hh.
    split; reflexivity.
  - unfold RankSet_priority.
    rewrite (RankSet_priorityIfInHand_spec s r Hs Hr), Hh.
    split; reflexivity.
Qed.

Lemma X19_priority_counts_outranking_witness :
  RankSet_valid (mkRankSet 0x0234) /\ Rank_valid (mkRank 8) /\
  RankSet_priority (mkRankSet 0x0234) (mkRank 8) = None /\
  RankSet_priorityIfInHand (mkRankSet 0x0234) (mkRank 8)
  = Some Priority_nullopt.
Proof.
  assert (Hs : RankSet_valid (mkRankSet 0x0234)) by valid_now.
  assert (Hr : Rank_valid (mkRank 8)) by valid_now.
  split; [exact Hs | split; [exact Hr |]].
  apply (X19_priority_counts_outranking (mkRankSet 0x0234) (mkRank 8) Hs Hr).
  reflexivity.
Defined.

(** X20: for a valid set [S], a member [r] of [S] and [0 <= k <= 13],
    [r] is in [S.winRanks(k)] exactly when [S.priority(r)] is at most
    [k]. *)
Theorem X20_winRanks_by_priority (s : RankSet) (r : Rank) (k : Z) :
  RankSet_valid s -> Rank_valid r -> 0 <= k <= 13 ->
  RankSet_test s r = Some true ->
  exists w p,
    RankSet_winRanks s k = Some w /\ RankSet_priority s r = Some p /\
    (RankSet_test w r = Some true <-> Priority_value p <= k).
Proof.
  intros Hs Hr Hk Ht.
  rewrite (RankSet_test_has s r Hs Hr) in Ht. injection Ht as Hh.
  destruct (RankSet_winRanks_spec s k Hs Hk) as [w [Ew [Vw Mw]]].
  exists w, (mkPriority (1 + Z.of_nat (length (outranking s r)))).
  split; [exact Ew | split; [apply RankSet_priority_spec; assumption |]].
  rewrite (RankSet_test_has w r Vw Hr). cbn [Priority_value].
  assert (Hin : In r (RankSet_members s))
    by (apply RankSet_members_In; split; assumption).
  pose proof (falling_firstn_iff (RankSet_members s) r (Z.to_nat k)
                (RankSet_members_falling s) Hin) as Hiff.
  rewrite <- Mw in Hiff. rewrite RankSet_members_In in Hiff.
  unfold outranking. split.
  - intros E. injection E as E.
    assert (H : (length (filter (fun r' => (Rank_value r <? Rank_value r')%Z)
                                (RankSet_members s)) < Z.to_nat k)%nat)
      by (apply Hiff; split; assumption).
    lia.
  - intros H.
    assert (H' : Rank_valid r /\ RankSet_has w r = true)
      by (apply Hiff; lia).
    rewrite (proj2 H'). reflexivity.
Qed.

Lemma X20_winRanks_by_priority_witness :
  RankSet_valid (mkRankSet 0x0234) /\ Rank_valid (mkRank 7) /\
  0 <= 2 <= 13 /\
  RankSet_test (mkRankSet 0x0234) (mkRank 7) = Some true /\
  exists w p,
    RankSet_winRanks (mkRankSet 0x0234) 2 = Some w /\
    RankSet_priority (mkRankSet 0x0234) (mkRank 7) = Some p /\
    (RankSet_test w (mkRank 7) = Some true <-> Priority_value p <= 2).
Proof.
  assert (Hs : RankSet_valid (mkRankSet 0x0234)) by valid_now.
  assert (Hr : Rank_valid (mkRank 7)) by valid_now.
  assert (Hk : 0 <= 2 <= 13) by lia.
  assert (Ht : RankSet_test (mkRankSet 0x0234) (mkRank 7) = Some true)
    by reflexivity.
  split; [exact Hs | split; [exact Hr | split; [exact Hk | split]]].
  - exact Ht.
  - exact (X20_winRanks_by_priority (mkRankSet 0x0234) (mkRank 7) 2
             Hs Hr Hk Ht).
Defined.



(** X22: for a valid set that is not empty, [winRanks(1)] is the set
    [RankSet(h)] of its highest rank [h] alone, and [toSingleRank()] of
    it is [h]. *)
Theorem X22_winRanks_one (s : RankSet) :
  RankSet_valid s -> RankSet_any s = true ->
  exists h w,
    RankSet_highestRank s = Some h /\ RankSet_winRanks s 1 = Some w /\
    RankSet_ofRank h = Some w /\ RankSet_toSingleRank w = Some h.
Proof.
  intros Hs Ha.
  pose proof (RankSet_nonempty_members s Hs Ha) as Hne.
  destruct (RankSet_winRanks_spec s 1 Hs) as [w [Ew [Vw Mw]]]; [lia |].
  destruct (RankSet_members s) as [| h t] eqn:Hm; [contradiction |].
  change (Z.to_nat 1) with 1%nat in Mw. cbn [firstn] in Mw.
  assert (Hin : In h (RankSet_members s)) by (rewrite Hm; left; reflexivity).
  apply RankSet_members_In in Hin. destruct Hin as [Hh _].
  exists h, w. split; [| split; [exact Ew | split]].
  - rewrite (RankSet_highestRank_spec s Hs), Hm. reflexivity.
  - rewrite (RankSet_ofRank_spec h Hh). f_equal.
    pose proof (singleton_value w h Vw Mw) as Ev.
    destruct w as [v]. cbn [RankSet_value] in Ev. subst v. reflexivity.
  - apply toSingleRank_singleton; assumption.
Qed.

Lemma X22_winRanks_one_witness :
  RankSet_valid (mkRankSet 0x0234) /\
  RankSet_any (mkRankSet 0x0234) = true /\
  exists h w,
    RankSet_highestRank (mkRankSet 0x0234) = Some h /\
    RankSet_winRanks (mkRankSet 0x0234) 1 = Some w /\
    RankSet_ofRank h = Some w /\ RankSet_toSingleRank w = Some h.
Proof.
  assert (Hs : RankSet_valid (mkRankSet 0x0234)) by valid_now.
  split; [exact Hs | split; [reflexivity |]].
  exact (X22_winRanks_one (mkRankSet 0x0234) Hs eq_refl).
Defined.

(** ** Around the table *)

Lemma Direction_valid_cases (d : Direction) :
  Direction_valid d -> d = North \/ d = East \/ d = South \/ d = West.
Proof.
  intros H. apply Direction_valid_range in H. destruct d as [v].
  cbn [Direction_value] in H. unfold North, East, South, West.
  assert (C : v = 0 \/ v = 1 \/ v = 2 \/ v = 3) by lia.
  destruct C as [C | [C | [C | C]]]; subst v; tauto.
Qed.

Lemma Position_valid_cases (p : Position) :
  Position_valid p ->
  p = mkPosition 0 \/ p = mkPosition 1 \/ p = mkPosition 2 \/ p = mkPosition 3.
Proof.
  intros H. apply Position_valid_range in H. destruct p as [v].
  cbn [Position_value] in H.
  assert (C : v = 0 \/ v = 1 \/ v = 2 \/ v = 3) by lia.
  destruct C as [C | [C | [C | C]]]; subst v; tauto.
Qed.

Ltac each_direction H :=
  apply Direction_valid_cases in H;
  destruct H as [H | [H | [H | H]]]; rewrite H.

Ltac each_position H :=
  apply Position_valid_cases in H;
  destruct H as [H | [H | [H | H]]]; rewrite H.

(** X23: for a valid Direction [d], [d.lho()], [d.partner()] and
    [d.rho()] are [d] plus the second, third and fourth Position, and [d]
    plus the first Position is [d]; [rho] undoes [lho] and [lho] undoes
    [rho], the partner of the partner is [d], the left-hand opponent of
    the left-hand opponent is the partner, and none of the three is [d]
    itself. *)
Theorem X23_neighbours (d : Direction) :
  Direction_valid d ->
  Direction_plus d (mkPosition 0) = Some d /\
  Direction_lho d = Direction_plus d (mkPosition 1) /\
  Direction_partner d = Direction_plus d (mkPosition 2) /\
  Direction_rho d = Direction_plus d (mkPosition 3) /\
  (l <- Direction_lho d ;; Direction_rho l) = Some d /\
  (r <- Direction_rho d ;; Direction_lho r) = Some d /\
  (p <- Direction_partner d ;; Direction_partner p) = Some d /\
  (l <- Direction_lho d ;; Direction_lho l) = Direction_partner d /\
  Direction_lho d <> Some d /\ Direction_partner d <> Some d /\
  Direction_rho d <> Some d.
Proof.
  intros H. each_direction H;
    repeat (split; [first [reflexivity | discriminate] |]); discriminate.
Qed.

Lemma X23_neighbours_witness :
  Direction_valid West /\
  Direction_lho West = Some North /\ Direction_partner West = Some East /\
  Direction_rho West = Some South.
Proof.
  assert (Hd : Direction_valid West) by valid_now.
  pose proof (X23_neighbours West Hd) as H.
  destruct H as (_ & Hl & Hp & Hr & _).
  split; [exact Hd |].
  split; [rewrite Hl; reflexivity |].
  split; [rewrite Hp; reflexivity | rewrite Hr; reflexivity].
Defined.

(** X24: for a valid Position [p], [p.oneBackwards()] is a valid
    Position that differs from [p]; adding it to a valid Direction [d]
    gives the right-hand opponent of [d + p]; four steps backwards give
    [p] again. *)
Theorem X24_oneBackwards (p : Position) :
  Position_valid p ->
  exists q,
    Position_oneBackwards p = Some q /\ Position_valid q /\ q <> p /\
    (forall d, Direction_valid d ->
       Direction_plus d q = (e <- Direction_plus d p ;; Direction_rho e)) /\
    (b <- Position_oneBackwards q ;; c <- Position_oneBackwards b ;;
     Position_oneBackwards c) = Some p.
Proof.
  intros H.
  assert (V : forall v, 0 <= v <= 3 -> Position_valid (mkPosition v))
    by (intros v Hv; apply Position_valid_range; exact Hv).
  apply Position_valid_cases in H.
  destruct H as [H | [H | [H | H]]]; subst p.
  - exists (mkPosition 3). split; [reflexivity |].
    split; [apply V; lia |]. split; [discriminate |]. split; [| reflexivity].
    intros d Hd. each_direction Hd; reflexivity.
  - exists (mkPosition 0). split; [reflexivity |].
    split; [apply V; lia |]. split; [discriminate |]. split; [| reflexivity].
    intros d Hd. each_direction Hd; reflexivity.
  - exists (mkPosition 1). split; [reflexivity |].
    split; [apply V; lia |]. split; [discriminate |]. split; [| reflexivity].
    intros d Hd. each_direction Hd; reflexivity.
  - exists (mkPosition 2). split; [reflexivity |].
    split; [apply V; lia |]. split; [discriminate |]. split; [| reflexivity].
    intros d Hd. each_direction Hd; reflexivity.
Qed.

Lemma X24_oneBackwards_witness :
  Position_valid (mkPosition 0) /\
  exists q,
    Position_oneBackwards (mkPosition 0) = Some q /\ Position_valid q /\
    q <> mkPosition 0 /\
    (forall d, Direction_valid d ->
       Direction_plus d q
       = (e <- Direction_plus d (mkPosition 0) ;; Direction_rho e)) /\
    (b <- Position_oneBackwards q ;; c <- Position_oneBackwards b ;;
     Position_oneBackwards c) = Some (mkPosition 0).
Proof.
  assert (Hp : Position_valid (mkPosition 0)) by valid_now.
  split; [exact Hp |].
  exact (X24_oneBackwards (mkPosition 0) Hp).
Defined.

(** X25: for valid Directions and Positions, adding two Positions to a
    Direction does not depend on their order; [d + p] determines [p]
    given [d], and determines [d] given [p]. *)
Theorem X25_plus_cancels (d d' : Direction) (p q : Position) :
  Direction_valid d -> Direction_valid d' ->
  Position_valid p -> Position_valid q ->
  (e <- Direction_plus d p ;; Direction_plus e q)
  = (e <- Direction_plus d q ;; Direction_plus e p) /\
  (Direction_plus d p = Direction_plus d q -> p = q) /\
  (Direction_plus d p = Direction_plus d' p -> d = d').
Proof.
  intros Hd Hd' Hp Hq.
  rewrite (Direction_plus_spec d p Hd Hp), (Direction_plus_spec d q Hd Hq),
    (Direction_plus_spec d' p Hd' Hp).
  cbn [bind].
  pose proof (proj1 (Direction_valid_range d) Hd) as Rd.
  pose proof (proj1 (Direction_valid_range d') Hd') as Rd'.
  pose proof (proj1 (Position_valid_range p) Hp) as Rp.
  pose proof (proj1 (Position_valid_range q) Hq) as Rq.
  pose proof (Z.mod_pos_bound (Direction_value d + Position_value p) 4) as Mp.
  pose proof (Z.mod_pos_bound (Direction_value d + Position_value q) 4) as Mq.
  split; [| split].
  - rewrite !Direction_plus_spec;
      try assumption; try (apply Direction_valid_range; simpl; lia).
    cbn [Direction_value]. do 2 f_equal.
    rewrite !Zplus_mod_idemp_l. f_equal. lia.
  - intros E. injection E as E. destruct p as [pv], q as [qv].
    cbn [Position_value] in *. f_equal.
    assert (C : (Direction_value d + pv) mod 4 = Direction_value d + pv \/
                (Direction_value d + pv) mod 4 = Direction_value d + pv - 4).
    { destruct (Z_lt_le_dec (Direction_value d + pv) 4).
      - left. apply Z.mod_small. lia.
      - right. symmetry. apply (Z.mod_unique _ _ 1); lia. }
    assert (C' : (Direction_value d + qv) mod 4 = Direction_value d + qv \/
                 (Direction_value d + qv) mod 4 = Direction_value d + qv - 4).
    { destruct (Z_lt_le_dec (Direction_value d + qv) 4).
      - left. apply Z.mod_small. lia.
      - right. symmetry. apply (Z.mod_unique _ _ 1); lia. }
    lia.
  - intros E. injection E as E. destruct d as [dv], d' as [dv'].
    cbn [Direction_value] in *. f_equal.
    pose proof (Z.mod_pos_bound (dv' + Position_value p) 4) as Mp'.
    assert (C : (dv + Position_value p) mod 4 = dv + Position_value p \/
                (dv + Position_value p) mod 4 = dv + Position_value p - 4).
    { destruct (Z_lt_le_dec (dv + Position_value p) 4).
      - left. apply Z.mod_small. lia.
      - right. symmetry. apply (Z.mod_unique _ _ 1); lia. }
    assert (C' : (dv' + Position_value p) mod 4 = dv' + Position_value p \/
                 (dv' + Position_value p) mod 4 = dv' + Position_value p - 4).
    { destruct (Z_lt_le_dec (dv' + Position_value p) 4).
      - left. apply Z.mod_small. lia.
      - right. symmetry. apply (Z.mod_unique _ _ 1); lia. }
    lia.
Qed.

Lemma X25_plus_cancels_witness :
  Direction_valid East /\ Direction_valid South /\
  Position_valid (mkPosition 3) /\ Position_valid (mkPosition 2) /\
  (e <- Direction_plus East (mkPosition 3) ;; Direction_plus e (mkPosition 2))
  = (e <- Direction_plus East (mkPosition 2) ;; Direction_plus e (mkPosition 3)).
Proof.
  assert (Hd : Direction_valid East) by valid_now.
  assert (Hd' : Direction_valid South) by valid_now.
  assert (Hp : Position_valid (mkPosition 3)) by valid_now.
  assert (Hq : Position_valid (mkPosition 2)) by valid_now.
  split; [exact Hd | split; [exact Hd' | split; [exact Hp | split; [exact Hq |]]]].
  exact (proj1 (X25_plus_cancels East South (mkPosition 3) (mkPosition 2)
                  Hd Hd' Hp Hq)).
Defined.

(** ** What the checked constructors accept *)






(** X27: no object that a checked constructor returns reads as the
    absent value of its optional type, and [checkValid] rejects the
    absent value of each type: the reserved pattern lies outside every
    domain. *)
Theorem X27_absent_is_never_valid (v : Z) :
  (forall r, Rank_ctor v = Some r -> Rank_testOptional r = false) /\
  (forall r, AnyRank_ctor v = Some r -> AnyRank_testOptional r = false) /\
  (forall p, Priority_ctor v = Some p -> Priority_testOptional p = false) /\
  (forall d, Direction_ctor v = Some d -> Direction_testOptional d = false) /\
  (forall p, Position_ctor v = Some p -> Position_testOptional p = false) /\
  (forall s, RankSet_ctor v = Some s -> RankSet_testOptional s = false) /\
  (forall nt (s : StrainT nt),
     StrainT_ctor v = Some s -> (StrainT_value s =? optionalValue) = false) /\
  Rank_checkValid Rank_nullopt = false /\
  Priority_checkValid Priority_nullopt = false /\
  Direction_checkValid (mkDirection optionalValue) = false /\
  Position_checkValid (mkPosition optionalValue) = false /\
  RankSet_checkValid (mkRankSet RankSet_optionalValue) = false.
Proof.
  assert (Hchk : forall (A : Type) (b : bool) (x y : A),
            (check b ;;; ret x) = Some y -> b = true /\ x = y).
  { intros A b x y H. destruct b; cbn in H; [| discriminate H].
    injection H as H. auto. }
  split; [| split; [| split; [| split; [| split; [| split; [| split]]]]]].
  - intros r H. apply Hchk in H. destruct H as [H E]. subst r.
    unfold Rank_testOptional, optionalValue. cbn [Rank_value].
    unfold Rank_checkValid, RankT_checkValid, RankT_maxValue in H.
    cbn [Rank_value] in H. rewrite !andb_true_iff in H.
    destruct H as [[[H _] _] _]. apply Z.leb_le in H.
    apply Z.eqb_neq. lia.
  - intros r H. apply Hchk in H. destruct H as [H E]. subst r.
    unfold AnyRank_testOptional, optionalValue. cbn [AnyRank_value].
    unfold AnyRank_checkValid, RankT_checkValid, RankT_maxValue in H.
    cbn [AnyRank_value] in H. rewrite !andb_true_iff in H.
    destruct H as [[[H _] _] _]. apply Z.leb_le in H.
    apply Z.eqb_neq. lia.
  - intros p H. apply Hchk in H. destruct H as [H E]. subst p.
    unfold Priority_testOptional, optionalValue. cbn [Priority_value].
    unfold Priority_checkValid in H. cbn [Priority_value] in H.
    rewrite andb_true_iff in H. destruct H as [_ H]. apply Z.leb_le in H.
    apply Z.eqb_neq. lia.
  - intros d H. apply Hchk in H. destruct H as [H E]. subst d.
    unfold Direction_testOptional, optionalValue. cbn [Direction_value].
    unfold Direction_checkValid, Direction_max in H.
    cbn [Direction_value] in H. apply Z.leb_le in H. apply Z.eqb_neq. lia.
  - intros p H. apply Hchk in H. destruct H as [H E]. subst p.
    unfold Position_testOptional, optionalValue. cbn [Position_value].
    unfold Position_checkValid in H. cbn [Position_value] in H.
    apply Z.leb_le in H. apply Z.eqb_neq. lia.
  - intros s H. apply Hchk in H. destruct H as [H E]. subst s.
    unfold RankSet_testOptional, RankSet_optionalValue.
    cbn [RankSet_value]. unfold RankSet_checkValid in H.
    cbn [RankSet_value] in H. change RankSet_max with 8191 in H.
    apply Z.leb_le in H. apply Z.eqb_neq. lia.
  - intros nt s H. apply Hchk in H. destruct H as [H E]. subst s.
    cbn [StrainT_value]. unfold StrainT_checkValid in H.
    cbn [StrainT_value] in H.
    destruct (Z.eqb_spec v optionalValue) as [E | E]; [| reflexivity].
    subst v. destruct nt; discriminate H.
  - repeat split; reflexivity.
Qed.

(** ** The assertion of [StrainT] *)


(** ** Enumerating the ranks *)

(** X29: the legacy loop [for (Rank r = Rank::max(); r >= Rank::min();
    r--)] ends after thirteen iterations and visits the ranks of
    [Rank::highToLow()] in its order; [Rank::lowTohigh()] is the reverse
    sequence; the sequence has no duplicate and holds exactly the valid
    ranks. *)
Theorem X29_rank_enumerations :
  (forall k : nat,
     map mkRank (loop_down (13 + k) Rank_max Rank_min) = Rank_loop) /\
  Rank_highToLow = Some Rank_loop /\
  Rank_lowTohigh = Some (rev Rank_loop) /\
  NoDup Rank_loop /\
  (forall r, In r Rank_loop <-> Rank_valid r).
Proof.
  split; [| split; [| split; [| split]]].
  - intros k. rewrite loop_down_Rank_fuel. reflexivity.
  - reflexivity.
  - reflexivity.
  - rewrite Rank_loop_all_ranks. apply all_ranks_NoDup.
  - intros r. rewrite Rank_loop_all_ranks. split.
    + apply all_ranks_valid.
    + apply Rank_valid_cases.
Qed.

(** ** Printing *)

Lemma StrainT_domain_cases (nt : bool) (s : StrainT nt) :
  StrainT_inDomain s ->
  StrainT_value s = 0 \/ StrainT_value s = 1 \/ StrainT_value s = 2 \/
  StrainT_value s = 3 \/ StrainT_value s = 4.
Proof.
  unfold StrainT_inDomain, StrainT_max. intros H. destruct nt; lia.
Qed.

(** X30: distinct values print differently: [toChar()] is injective on
    the valid ranks, on the strains and suits of the documented domain,
    on the valid Directions and on the valid Positions, and so is
    [toString()] on Directions and Positions; a valid rank never prints
    as one of the placeholders of the pseudo-ranks 0, 1 and 15. *)
Theorem X30_printing_is_injective :
  (forall r1 r2, Rank_valid r1 -> Rank_valid r2 ->
     Rank_toChar r1 = Rank_toChar r2 -> r1 = r2) /\
  (forall r c, Rank_valid r -> Rank_toChar r = Some c ->
     c <> "z"%char /\ c <> "o"%char /\ c <> "f"%char) /\
  (forall nt (s1 s2 : StrainT nt),
     StrainT_inDomain s1 -> StrainT_inDomain s2 ->
     StrainT_toChar s1 = StrainT_toChar s2 -> s1 = s2) /\
  (forall d1 d2, Direction_valid d1 -> Direction_valid d2 ->
     Direction_toChar d1 = Direction_toChar d2 -> d1 = d2) /\
  (forall d1 d2, Direction_valid d1 -> Direction_valid d2 ->
     Direction_toString d1 = Direction_toString d2 -> d1 = d2) /\
  (forall p1 p2, Position_valid p1 -> Position_valid p2 ->
     Position_toChar p1 = Position_toChar p2 -> p1 = p2) /\
  (forall p1 p2, Position_valid p1 -> Position_valid p2 ->
     Position_toString p1 = Position_toString p2 -> p1 = p2).
Proof.
  split; [| split; [| split; [| split; [| split; [| split]]]]].
  - intros r1 r2 H1 H2 E.
    apply Rank_valid_cases in H1. apply Rank_valid_cases in H2.
    unfold all_ranks in H1, H2. cbn [map In] in H1, H2.
    repeat (destruct H1 as [H1 | H1];
      [subst r1;
       repeat (destruct H2 as [H2 | H2];
         [subst r2; first [reflexivity | discriminate E] |]);
       contradiction |]).
    contradiction.
  - intros r c H E. apply Rank_valid_cases in H.
    unfold all_ranks in H. cbn [map In] in H.
    repeat (destruct H as [H | H];
      [subst r; injection E as E; subst c;
       repeat split; discriminate |]).
    contradiction.
  - intros nt s1 s2 H1 H2 E.
    apply StrainT_domain_cases in H1. apply StrainT_domain_cases in H2.
    destruct s1 as [v1], s2 as [v2]. cbn [StrainT_value] in H1, H2.
    destruct H1 as [H1 | [H1 | [H1 | [H1 | H1]]]];
      destruct H2 as [H2 | [H2 | [H2 | [H2 | H2]]]];
      subst v1 v2; first [reflexivity | discriminate E].
  - intros d1 d2 H1 H2 E.
    apply Direction_valid_cases in H1. apply Direction_valid_cases in H2.
    destruct H1 as [H1 | [H1 | [H1 | H1]]];
      destruct H2 as [H2 | [H2 | [H2 | H2]]];
      subst d1 d2; first [reflexivity | discriminate E].
  - intros d1 d2 H1 H2 E.
    apply Direction_valid_cases in H1. apply Direction_valid_cases in H2.
    destruct H1 as [H1 | [H1 | [H1 | H1]]];
      destruct H2 as [H2 | [H2 | [H2 | H2]]];
      subst d1 d2; first [reflexivity | discriminate E].
  - intros p1 p2 H1 H2 E.
    apply Position_valid_cases in H1. apply Position_valid_cases in H2.
    destruct H1 as [H1 | [H1 | [H1 | H1]]];
      destruct H2 as [H2 | [H2 | [H2 | H2]]];
      subst p1 p2; first [reflexivity | discriminate E].
  - intros p1 p2 H1 H2 E.
    apply Position_valid_cases in H1. apply Position_valid_cases in H2.
    destruct H1 as [H1 | [H1 | [H1 | H1]]];
      destruct H2 as [H2 | [H2 | [H2 | H2]]];
      subst p1 p2; first [reflexivity | discriminate E].
Qed.
